(** * RevBot memory server: entity store, durability and decision engine

    A shallow embedding of [RevBotMemoryServer] (the MCP memory server of
    the repository) and the properties of its operations.

    Conventions of the embedding:
    - a JavaScript [number] that carries money, a score or a metric is an
      exact rational ([Q]); rounding, NaN and the infinities of IEEE
      doubles are outside the model, and every division is recorded so
      that a zero divisor stays observable.  A sum is the left-to-right
      [reduce] of the source, and the properties speak of that
      computation as it stands, without reordering or regrouping it; what
      rounding does to such a sum is shown on binary64 values where a
      claim is about exactness;
    - timestamps ([Date.now()]) are integers ([Z], milliseconds);
    - arrays are lists, [push] appends at the end, an element mutated
      through a reference is written back at its index;
    - the server object ([this]) and its environment (the data file, the
      clock, the uuid generator) are one explicit [World] threaded through
      a state-and-exception monad;
    - the narrative text an operation returns to the caller is not
      modelled, only the structured values it is rendered from. *)

From Stdlib Require Import ZArith QArith Qminmax Lqa Lia Floats.
From Stdlib Require Import String Ascii List Bool Permutation Sorted.
From stdpp Require Import base list strings pretty.

Import ListNotations.
Set Warnings "-register-all,-inexact-float".
Local Open Scope string_scope.
Local Open Scope list_scope.
Local Open Scope Z_scope.

(** ** JavaScript values *)

(** [any]: an untyped JSON payload carried around but never inspected. *)
Inductive any : Type :=
| JNull
| JBool (b : bool)
| JNum (q : Q)
| JStr (s : string)
| JArr (items : list any)
| JObj (fields : list (string * any)).

(** Truthiness of a number: [0] is falsy. *)
Definition truthyQ (x : Q) : bool := negb (Qeq_bool x 0).

(** [x || d] on an optional number: [undefined] and [0] give [d]. *)
Definition orQ (x : option Q) (d : Q) : Q :=
  match x with
  | Some v => if truthyQ v then v else d
  | None => d
  end.

(** [x || d] on an optional string: [undefined] and [''] give [d]. *)
Definition orS (x : option string) (d : string) : string :=
  match x with
  | Some EmptyString => d
  | Some v => v
  | None => d
  end.

(** [x || d] on an optional object or array: only [undefined] gives [d]. *)
Definition orObj {A : Type} (x : option A) (d : A) : A :=
  match x with Some v => v | None => d end.

(** Rendering of a number inside a template literal.  Integers print as
    JavaScript prints them; other rationals print as a fraction. *)
Definition Number_toString (x : Q) : string :=
  let r := Qred x in
  if Pos.eqb (Qden r) 1 then pretty (Qnum r)
  else pretty (Qnum r) +:+ "/" +:+ pretty (Zpos (Qden r)).

(** ** Enumerations *)

Inductive ServiceStatus := active | paused | killed | scaling.
Inductive Outcome := approved | denied | pending | auto_approved.
Inductive Level := low | medium | high.
Inductive Severity := sev_low | sev_medium | sev_high | critical.
Inductive BlockerStatus := identified | investigating | resolved | escalated.
Inductive BlockerType := technical | dependency | configuration | access | knowledge_gap.
Inductive OpportunityStatus := discovered | analyzing | implementing | deployed | failed.
Inductive ContextType := planning | implementation | debugging | analysis | decision.
Inductive DiscoveryType :=
  code_exists | configuration_needed | dependency_ready | service_built | blocker_found.
Inductive MilestoneType :=
  task_started | task_completed | checkpoint_reached | goal_achieved.
Inductive TriggerType :=
  trig_decision_made | trig_blocker_found | trig_milestone_reached | trig_technical_discovery.

#[global] Instance ServiceStatus_eq_dec : EqDecision ServiceStatus.
Proof. solve_decision. Defined.
#[global] Instance Outcome_eq_dec : EqDecision Outcome.
Proof. solve_decision. Defined.
#[global] Instance Level_eq_dec : EqDecision Level.
Proof. solve_decision. Defined.
#[global] Instance BlockerStatus_eq_dec : EqDecision BlockerStatus.
Proof. solve_decision. Defined.
#[global] Instance OpportunityStatus_eq_dec : EqDecision OpportunityStatus.
Proof. solve_decision. Defined.

(** ** Entities (the interfaces of the source, field by field) *)

Module BusinessState.
Record risk_metrics_t := mk_risk {
    daily_spend : Q;
    service_failures : Q;
    customer_complaints : Q }.
Record t := mk {
    id : string;
    timestamp : Z;
    total_revenue : Q;
    active_services : nat;
    pending_decisions : list any;
    current_priorities : list string;
    session_summary : string;
    optimization_strategies : list any;
    risk_metrics : risk_metrics_t }.
End BusinessState.

(** [extracted_entities]: the interface declares four arrays, but a turn
    stores the object the caller sent when there is one, and the tool
    schema requires none of its fields: each list may be [undefined]. *)
Module Entities.
Record t := mk {
    tasks_mentioned : option (list string);
    technologies_discussed : option (list string);
    decisions_made : option (list string);
    blockers_identified : option (list string) }.
End Entities.

Module ConversationTurn.
Record t := mk {
    id : string;
    session_id : string;
    timestamp : Z;
    user_input : string;
    ai_response : string;
    context_type : ContextType;
    extracted_entities : Entities.t;
    importance_score : Q }.
End ConversationTurn.

Module TechnicalDiscovery.
Record t := mk {
    id : string;
    timestamp : Z;
    discovery_type : DiscoveryType;
    title : string;
    description : string;
    file_path : option string;
    impact_level : Severity;
    actionable_insights : list string;
    related_conversation_turn_id : option string }.
End TechnicalDiscovery.

Module Blocker.
Record t := mk {
    id : string;
    timestamp : Z;
    title : string;
    description : string;
    blocker_type : BlockerType;
    severity : Severity;
    status : BlockerStatus;
    resolution_steps : list string;
    resolution_summary : option string }.

  (** [blocker.status = 'resolved'; blocker.resolution_summary = summary] *)
Definition resolve (summary : string) (b : t) : t :=
    mk (id b) (timestamp b) (title b) (description b) (blocker_type b)
       (severity b) resolved (resolution_steps b) (Some summary).
End Blocker.

Module ProgressMilestone.
Record t := mk {
    id : string;
    timestamp : Z;
    milestone_type : MilestoneType;
    title : string;
    description : string;
    completion_percentage : Q;
    next_steps : list string }.
End ProgressMilestone.

Module Metrics.
Record t := mk {
    uptime_percentage : Q;
    response_time_ms : Q;
    error_rate : Q;
    customer_satisfaction : Q }.
End Metrics.

Module ScalingConfig.
Record t := mk {
    auto_scale : bool;
    max_daily_spend : Q;
    kill_threshold : Q }.
End ScalingConfig.

Module Service.
Record t := mk {
    id : string;
    name : string;
    type : string;
    status : ServiceStatus;
    created_at : Z;
    daily_revenue : Q;
    daily_costs : Q;
    customer_count : Q;
    performance_metrics : Metrics.t;
    scaling_config : ScalingConfig.t;
    updated_at : Z }.

Definition set_status (x : ServiceStatus) (s : t) : t :=
    mk (id s) (name s) (type s) x (created_at s) (daily_revenue s)
       (daily_costs s) (customer_count s) (performance_metrics s)
       (scaling_config s) (updated_at s).
Definition set_daily_revenue (x : Q) (s : t) : t :=
    mk (id s) (name s) (type s) (status s) (created_at s) x
       (daily_costs s) (customer_count s) (performance_metrics s)
       (scaling_config s) (updated_at s).
Definition set_daily_costs (x : Q) (s : t) : t :=
    mk (id s) (name s) (type s) (status s) (created_at s) (daily_revenue s)
       x (customer_count s) (performance_metrics s)
       (scaling_config s) (updated_at s).
Definition set_customer_count (x : Q) (s : t) : t :=
    mk (id s) (name s) (type s) (status s) (created_at s) (daily_revenue s)
       (daily_costs s) x (performance_metrics s)
       (scaling_config s) (updated_at s).
Definition set_performance_metrics (x : Metrics.t) (s : t) : t :=
    mk (id s) (name s) (type s) (status s) (created_at s) (daily_revenue s)
       (daily_costs s) (customer_count s) x
       (scaling_config s) (updated_at s).
Definition set_updated_at (x : Z) (s : t) : t :=
    mk (id s) (name s) (type s) (status s) (created_at s) (daily_revenue s)
       (daily_costs s) (customer_count s) (performance_metrics s)
       (scaling_config s) x.
End Service.

Module Transaction.
Record t := mk {
    id : string;
    service_id : string;
    amount : Q;
    currency : string;
    customer_id : option string;
    timestamp : Z;
    stripe_transaction_id : option string;
    metadata : any }.
End Transaction.

Module ImpactMetrics.
Record t := mk {
    revenue_impact : Q;
    risk_level : Level;
    confidence_score : Q }.
End ImpactMetrics.

Module Decision.
Record t := mk {
    id : string;
    timestamp : Z;
    decision_type : string;
    context : string;
    reasoning : string;
    outcome : Outcome;
    revenue_impact : option Q;
    risk_level : option Level;
    confidence_score : option Q;
    impact_metrics : ImpactMetrics.t }.
End Decision.

Module MarketOpportunity.
Record t := mk {
    id : string;
    opportunity_type : string;
    market_size : option Q;
    competition_level : option Level;
    profit_potential : option Q;
    implementation_effort : option Level;
    discovery_source : option string;
    analysis_data : any;
    status : OpportunityStatus;
    created_at : Z }.
End MarketOpportunity.

Module Customer.
Record t := mk {
    id : string;
    email : option string;
    first_transaction : Z;
    total_spent : Q;
    service_usage : any;
    satisfaction_score : Q;
    churn_risk : Q;
    created_at : Z;
    updated_at : Z }.
End Customer.

Module SessionMetadata.
Record t := mk {
    current_session_id : string;
    session_start : Z;
    last_activity : Z;
    auto_save_enabled : bool }.
End SessionMetadata.

(** [RevBotData]: the whole entity graph, persisted as one document. *)
Record RevBotData := mkData {
  business_states : list BusinessState.t;
  services : list Service.t;
  transactions : list Transaction.t;
  decisions : list Decision.t;
  market_opportunities : list MarketOpportunity.t;
  customers : list Customer.t;
  conversation_turns : list ConversationTurn.t;
  technical_discoveries : list TechnicalDiscovery.t;
  blockers : list Blocker.t;
  progress_milestones : list ProgressMilestone.t;
  session_metadata : SessionMetadata.t }.

(** Field updates of the store ([this.data.<collection>.push(x)] and the
    in-place assignments of the source). *)
Definition push_business_state (x : BusinessState.t) (d : RevBotData) : RevBotData :=
  mkData (business_states d ++ [x]) (services d) (transactions d) (decisions d)
    (market_opportunities d) (customers d) (conversation_turns d)
    (technical_discoveries d) (blockers d) (progress_milestones d)
    (session_metadata d).
Definition set_services (x : list Service.t) (d : RevBotData) : RevBotData :=
  mkData (business_states d) x (transactions d) (decisions d)
    (market_opportunities d) (customers d) (conversation_turns d)
    (technical_discoveries d) (blockers d) (progress_milestones d)
    (session_metadata d).
Definition push_transaction (x : Transaction.t) (d : RevBotData) : RevBotData :=
  mkData (business_states d) (services d) (transactions d ++ [x]) (decisions d)
    (market_opportunities d) (customers d) (conversation_turns d)
    (technical_discoveries d) (blockers d) (progress_milestones d)
    (session_metadata d).
Definition push_decision (x : Decision.t) (d : RevBotData) : RevBotData :=
  mkData (business_states d) (services d) (transactions d) (decisions d ++ [x])
    (market_opportunities d) (customers d) (conversation_turns d)
    (technical_discoveries d) (blockers d) (progress_milestones d)
    (session_metadata d).
Definition set_market_opportunities (x : list MarketOpportunity.t) (d : RevBotData)
  : RevBotData :=
  mkData (business_states d) (services d) (transactions d) (decisions d)
    x (customers d) (conversation_turns d)
    (technical_discoveries d) (blockers d) (progress_milestones d)
    (session_metadata d).
Definition push_conversation_turn (x : ConversationTurn.t) (d : RevBotData) : RevBotData :=
  mkData (business_states d) (services d) (transactions d) (decisions d)
    (market_opportunities d) (customers d) (conversation_turns d ++ [x])
    (technical_discoveries d) (blockers d) (progress_milestones d)
    (session_metadata d).
Definition push_technical_discovery (x : TechnicalDiscovery.t) (d : RevBotData)
  : RevBotData :=
  mkData (business_states d) (services d) (transactions d) (decisions d)
    (market_opportunities d) (customers d) (conversation_turns d)
    (technical_discoveries d ++ [x]) (blockers d) (progress_milestones d)
    (session_metadata d).
Definition set_blockers (x : list Blocker.t) (d : RevBotData) : RevBotData :=
  mkData (business_states d) (services d) (transactions d) (decisions d)
    (market_opportunities d) (customers d) (conversation_turns d)
    (technical_discoveries d) x (progress_milestones d)
    (session_metadata d).
Definition push_progress_milestone (x : ProgressMilestone.t) (d : RevBotData)
  : RevBotData :=
  mkData (business_states d) (services d) (transactions d) (decisions d)
    (market_opportunities d) (customers d) (conversation_turns d)
    (technical_discoveries d) (blockers d) (progress_milestones d ++ [x])
    (session_metadata d).
Definition set_last_activity (now : Z) (d : RevBotData) : RevBotData :=
  mkData (business_states d) (services d) (transactions d) (decisions d)
    (market_opportunities d) (customers d) (conversation_turns d)
    (technical_discoveries d) (blockers d) (progress_milestones d)
    (SessionMetadata.mk
       (SessionMetadata.current_session_id (session_metadata d))
       (SessionMetadata.session_start (session_metadata d))
       now
       (SessionMetadata.auto_save_enabled (session_metadata d))).

(** The empty graph of [loadData] and of the field initialiser. *)
Definition empty_data (session : string) (start last : Z) : RevBotData :=
  mkData [] [] [] [] [] [] [] [] [] []
    (SessionMetadata.mk session start last true).

(** ** The server and its environment *)

(** What [data/revbot-data.json] holds: text that [JSON.parse] rejects, or
    the serialisation of a graph ([JSON.stringify] followed by
    [JSON.parse] is the identity on a graph). *)
Inductive Payload :=
| Malformed (raw : string)
| Json (d : RevBotData).

Inductive FileState :=
| Missing
| Unreadable
| Present (p : Payload).

Record World := mkWorld {
  data : RevBotData;            (* this.data *)
  lastAutoSave : Z;             (* this.lastAutoSave *)
  file : FileState;             (* the data file *)
  fs_writable : bool;           (* does fs.writeFileSync succeed? *)
  fs_writes : nat;              (* completed fs.writeFileSync calls *)
  divisors : list Q;            (* divisor of every division performed *)
  clock : nat -> Z;             (* successive readings of the clock *)
  reads : nat;                  (* readings taken so far *)
  tz_offset : Z;                (* local time minus UTC, in ms *)
  uuid_source : nat -> string;  (* successive results of uuidv4() *)
  drawn : nat }.                (* uuids drawn so far *)

Definition with_data (d : RevBotData) (w : World) : World :=
  mkWorld d (lastAutoSave w) (file w) (fs_writable w) (fs_writes w)
    (divisors w) (clock w) (reads w) (tz_offset w) (uuid_source w) (drawn w).
Definition with_lastAutoSave (t : Z) (w : World) : World :=
  mkWorld (data w) t (file w) (fs_writable w) (fs_writes w)
    (divisors w) (clock w) (reads w) (tz_offset w) (uuid_source w) (drawn w).
Definition with_written (p : Payload) (w : World) : World :=
  mkWorld (data w) (lastAutoSave w) (Present p) (fs_writable w) (S (fs_writes w))
    (divisors w) (clock w) (reads w) (tz_offset w) (uuid_source w) (drawn w).
Definition with_divisor (q : Q) (w : World) : World :=
  mkWorld (data w) (lastAutoSave w) (file w) (fs_writable w) (fs_writes w)
    (divisors w ++ [q]) (clock w) (reads w) (tz_offset w) (uuid_source w) (drawn w).
Definition with_read (w : World) : World :=
  mkWorld (data w) (lastAutoSave w) (file w) (fs_writable w) (fs_writes w)
    (divisors w) (clock w) (S (reads w)) (tz_offset w) (uuid_source w) (drawn w).
Definition with_drawn (w : World) : World :=
  mkWorld (data w) (lastAutoSave w) (file w) (fs_writable w) (fs_writes w)
    (divisors w) (clock w) (reads w) (tz_offset w) (uuid_source w) (S (drawn w)).

(** A method either returns or throws; the world it leaves is kept in
    both cases. *)
Inductive Result (A : Type) :=
| Ok (a : A)
| Throw (msg : string).
Arguments Ok {A} a.
Arguments Throw {A} msg.

Definition M (A : Type) : Type := World -> Result A * World.

Definition ret {A} (a : A) : M A := fun w => (Ok a, w).
Definition bind {A B} (m : M A) (k : A -> M B) : M B :=
  fun w => match m w with
           | (Ok a, w') => k a w'
           | (Throw e, w') => (Throw e, w')
           end.
Definition throw {A} (msg : string) : M A := fun w => (Throw msg, w).
(** [try { m } catch (error) { h error }] *)
Definition catch {A} (m : M A) (h : string -> M A) : M A :=
  fun w => match m w with
           | (Ok a, w') => (Ok a, w')
           | (Throw e, w') => h e w'
           end.
Definition gets {A} (f : World -> A) : M A := fun w => (Ok (f w), w).
Definition modify (f : World -> World) : M unit := fun w => (Ok tt, f w).
Definition when (b : bool) (m : M unit) : M unit := if b then m else ret tt.
(** [for (const x of l) { await body(x) }] *)
Fixpoint for_of {A} (l : list A) (body : A -> M unit) : M unit :=
  match l with
  | [] => ret tt
  | x :: l' => bind (body x) (fun _ => for_of l' body)
  end.

Notation "x <- m ;; k" := (bind m (fun x => k))
  (at level 100, m at next level, right associativity).
Notation "m ;;; k" := (bind m (fun _ => k))
  (at level 100, right associativity).

(** World after running a method, and its outcome. *)
Definition exec {A} (m : M A) (w : World) : World := snd (m w).
Definition outcome {A} (m : M A) (w : World) : Result A := fst (m w).

(** [Date.now()] *)
Definition Date_now : M Z :=
  fun w => (Ok (clock w (reads w)), with_read w).
(** [uuidv4()] *)
Definition uuidv4 : M string :=
  fun w => (Ok (uuid_source w (drawn w)), with_drawn w).

Definition DAY : Z := 24 * 60 * 60 * 1000.
(** Local midnight of the day that contains [t]. *)
Definition startOfDay (tz t : Z) : Z := t - (t + tz) mod DAY.
(** [new Date().setHours(0, 0, 0, 0)] *)
Definition todayStart_now : M Z :=
  t <- Date_now ;; tz <- gets tz_offset ;; ret (startOfDay tz t).

Definition modify_data (f : RevBotData -> RevBotData) : M unit :=
  modify (fun w => with_data (f (data w)) w).

(** [a / b], the divisor being recorded. *)
Definition js_div (a b : Q) : M Q :=
  modify (with_divisor b) ;;; ret (a / b)%Q.

(** *** Durability manager *)

Definition existsSync : M bool :=
  gets (fun w => match file w with Missing => false | _ => true end).
Definition readFileSync : M Payload :=
  fun w => match file w with
           | Present p => (Ok p, w)
           | Missing => (Throw "ENOENT", w)
           | Unreadable => (Throw "EACCES", w)
           end.
Definition JSON_parse (p : Payload) : M RevBotData :=
  match p with
  | Json d => ret d
  | Malformed _ => throw "SyntaxError"
  end.
Definition writeFileSync (p : Payload) : M unit :=
  fun w => if fs_writable w then (Ok tt, with_written p w)
           else (Throw "EIO", w).

Definition saveData : M unit :=
  catch
    (now <- Date_now ;;
     modify_data (set_last_activity now) ;;;
     d <- gets data ;;
     writeFileSync (Json d) ;;;
     t <- Date_now ;;
     modify (with_lastAutoSave t))
    (fun _ => ret tt).

(** The object literal that [loadData] and the field initialiser build. *)
Definition fresh_data : M RevBotData :=
  session <- uuidv4 ;;
  start <- Date_now ;;
  last <- Date_now ;;
  ret (empty_data session start last).

Definition loadData : M unit :=
  catch
    (present <- existsSync ;;
     if (present : bool) then
       rawData <- readFileSync ;;
       d <- JSON_parse rawData ;;
       modify_data (fun _ => d)
     else
       d <- fresh_data ;;
       modify_data (fun _ => d) ;;;
       saveData)
    (fun _ =>
       d <- fresh_data ;;
       modify_data (fun _ => d)).

(** One firing of the [setInterval] callback of [startAutoSaveTimer]. *)
Definition autoSaveTick : M unit :=
  now <- Date_now ;;
  last <- gets lastAutoSave ;;
  enabled <- gets (fun w => SessionMetadata.auto_save_enabled (session_metadata (data w))) ;;
  when ((30000 <? now - last) && enabled) saveData.

(** [stop()]: the final save of a graceful shutdown. *)
Definition stop : M unit := saveData.

(** ** Helpers shared by the operations *)

(** [x < y] on numbers. *)
Definition Qltb (x y : Q) : bool := negb (Qle_bool y x).

(** [l.reduce((sum, t) => sum + amount(t), 0)] *)
Definition sum_by {A} (amount : A -> Q) (l : list A) : Q :=
  fold_left (fun sum t => (sum + amount t)%Q) l 0%Q.

(** [Array.prototype.sort(compareFn)]: a stable sort; [x] goes before the
    first element it does not have to follow ([compareFn(x, y) <= 0]).
    This is the order of every engine when [compareFn] is a consistent
    comparator on the array (the stable sorted arrangement is unique);
    for an inconsistent one the specification of the language leaves the
    order to the engine, and only that the result is a rearrangement of
    the array may be relied on. *)
Fixpoint sort_insert {A} (compareFn : A -> A -> Q) (x : A) (l : list A) : list A :=
  match l with
  | [] => [x]
  | y :: l' =>
      if Qle_bool (compareFn x y) 0 then x :: y :: l'
      else y :: sort_insert compareFn x l'
  end.
Definition js_sort {A} (compareFn : A -> A -> Q) (l : list A) : list A :=
  foldr (sort_insert compareFn) [] l.

(** [l.slice(0, n)] for an integral [n]: a negative [n] counts from the
    end. *)
Definition slice0 {A} (n : Z) (l : list A) : list A :=
  if n <? 0 then take (Z.to_nat (Z.of_nat (length l) + n)) l
  else take (Z.to_nat n) l.

(** [this.data.services[i]]; a property read on [undefined] throws. *)
Definition service_at (i : nat) : M Service.t :=
  l <- gets (fun w => services (data w)) ;;
  match l !! i with
  | Some s => ret s
  | None => throw "TypeError"
  end.
(** An assignment to a field of the service object held at index [i]. *)
Definition modify_service (i : nat) (f : Service.t -> Service.t) : M unit :=
  modify_data (fun d => set_services (alter f i (services d)) d).
Definition modify_blocker (i : nat) (f : Blocker.t -> Blocker.t) : M unit :=
  modify_data (fun d => set_blockers (alter f i (blockers d)) d).

(** ** Decision tracking *)

Module DecisionInput.
Record t := mk {
  decision_type : string;
  context : string;
  reasoning : string;
  outcome : Outcome;
  revenue_impact : option Q;
  risk_level : option Level;
  confidence_score : option Q }.
End DecisionInput.

(** The [decisionRecord] object literal of [logDecisionInternal]. *)
Definition decisionRecord_of (id : string) (timestamp : Z) (decisionInput : DecisionInput.t)
  : Decision.t :=
  Decision.mk id timestamp
    (DecisionInput.decision_type decisionInput)
    (DecisionInput.context decisionInput)
    (DecisionInput.reasoning decisionInput)
    (DecisionInput.outcome decisionInput)
    (DecisionInput.revenue_impact decisionInput)
    (DecisionInput.risk_level decisionInput)
    (DecisionInput.confidence_score decisionInput)
    (ImpactMetrics.mk
       (orQ (DecisionInput.revenue_impact decisionInput) 0)
       (orObj (DecisionInput.risk_level decisionInput) medium)
       (orQ (DecisionInput.confidence_score decisionInput) (5 # 10))).

Definition logDecisionInternal (decisionInput : DecisionInput.t) : M Decision.t :=
  id <- uuidv4 ;;
  timestamp <- Date_now ;;
  let decisionRecord := decisionRecord_of id timestamp decisionInput in
  modify_data (push_decision decisionRecord) ;;;
  saveData ;;;
  ret decisionRecord.

Module LogDecisionArgs.
Record t := mk {
  decision_type : string;
  context : string;
  reasoning : string;
  outcome : option Outcome;
  revenue_impact : option Q;
  risk_level : option Level;
  confidence_score : option Q }.
End LogDecisionArgs.

Definition logDecision (args : LogDecisionArgs.t) : M Decision.t :=
  logDecisionInternal
    (DecisionInput.mk
       (LogDecisionArgs.decision_type args)
       (LogDecisionArgs.context args)
       (LogDecisionArgs.reasoning args)
       (orObj (LogDecisionArgs.outcome args) pending)
       (LogDecisionArgs.revenue_impact args)
       (LogDecisionArgs.risk_level args)
       (LogDecisionArgs.confidence_score args)).

(** ** Business state *)

Module SaveBusinessStateArgs.
Record t := mk {
  session_summary : string;
  current_priorities : option (list string);
  pending_decisions : option (list any);
  optimization_strategies : option (list any) }.
End SaveBusinessStateArgs.

Definition saveBusinessState (args : SaveBusinessStateArgs.t) : M string :=
  id <- uuidv4 ;;
  timestamp <- Date_now ;;
  todayStart <- todayStart_now ;;
  txs <- gets (fun w => transactions (data w)) ;;
  let todayRevenue :=
    sum_by Transaction.amount
      (filter (fun t => todayStart <= Transaction.timestamp t) txs) in
  svcs <- gets (fun w => services (data w)) ;;
  let activeServices := length (filter (fun s => Service.status s = active) svcs) in
  let businessState :=
    BusinessState.mk id timestamp todayRevenue activeServices
      (orObj (SaveBusinessStateArgs.pending_decisions args) [])
      (orObj (SaveBusinessStateArgs.current_priorities args) [])
      (SaveBusinessStateArgs.session_summary args)
      (orObj (SaveBusinessStateArgs.optimization_strategies args) [])
      (BusinessState.mk_risk 0 0 0) in
  modify_data (push_business_state businessState) ;;;
  saveData ;;;
  ret id.

(** ** Service management *)

Module RegisterServiceArgs.
Record t := mk {
  name : string;
  type : string;
  max_daily_spend : option Q;
  auto_scale : option bool }.
End RegisterServiceArgs.

Definition registerService (args : RegisterServiceArgs.t) : M string :=
  id <- uuidv4 ;;
  timestamp <- Date_now ;;
  let service :=
    Service.mk id
      (RegisterServiceArgs.name args)
      (RegisterServiceArgs.type args)
      active
      timestamp
      0 0 0
      (Metrics.mk 100 0 0 5)
      (ScalingConfig.mk
         (match RegisterServiceArgs.auto_scale args with
          | Some false => false
          | _ => true
          end)
         (orQ (RegisterServiceArgs.max_daily_spend args) 100)
         (-10))
      timestamp in
  modify_data (fun d => set_services (services d ++ [service]) d) ;;;
  saveData ;;;
  ret id.

Module MetricsArgs.
Record t := mk {
  uptime_percentage : option Q;
  response_time_ms : option Q;
  error_rate : option Q;
  customer_satisfaction : option Q }.
End MetricsArgs.

Module UpdateServicePerformanceArgs.
Record t := mk {
  service_id : string;
  daily_revenue : option Q;
  daily_costs : option Q;
  customer_count : option Q;
  performance_metrics : option MetricsArgs.t }.
End UpdateServicePerformanceArgs.

(** The four guarded assignments into [service.performance_metrics]. *)
Definition update_metrics (metrics : MetricsArgs.t) (m : Metrics.t) : Metrics.t :=
  Metrics.mk
    (match MetricsArgs.uptime_percentage metrics with
     | Some v => v | None => Metrics.uptime_percentage m end)
    (match MetricsArgs.response_time_ms metrics with
     | Some v => v | None => Metrics.response_time_ms m end)
    (match MetricsArgs.error_rate metrics with
     | Some v => v | None => Metrics.error_rate m end)
    (match MetricsArgs.customer_satisfaction metrics with
     | Some v => v | None => Metrics.customer_satisfaction m end).

(** [if (x !== undefined) service.field = x] *)
Definition assign_if_defined {A} (i : nat) (x : option A)
    (set : A -> Service.t -> Service.t) : M unit :=
  match x with
  | Some v => modify_service i (set v)
  | None => ret tt
  end.

Definition updateServicePerformance (args : UpdateServicePerformanceArgs.t) : M unit :=
  svcs <- gets (fun w => services (data w)) ;;
  match list_find (fun s => Service.id s = UpdateServicePerformanceArgs.service_id args) svcs with
  | None =>
      throw ("Service not found: " +:+ UpdateServicePerformanceArgs.service_id args)
  | Some (serviceIndex, _) =>
      assign_if_defined serviceIndex
        (UpdateServicePerformanceArgs.daily_revenue args) Service.set_daily_revenue ;;;
      assign_if_defined serviceIndex
        (UpdateServicePerformanceArgs.daily_costs args) Service.set_daily_costs ;;;
      assign_if_defined serviceIndex
        (UpdateServicePerformanceArgs.customer_count args) Service.set_customer_count ;;;
      match UpdateServicePerformanceArgs.performance_metrics args with
      | Some metrics =>
          modify_service serviceIndex
            (fun s => Service.set_performance_metrics
                        (update_metrics metrics (Service.performance_metrics s)) s)
      | None => ret tt
      end ;;;
      now <- Date_now ;;
      modify_service serviceIndex (Service.set_updated_at now) ;;;
      service <- service_at serviceIndex ;;
      (* Auto-scaling logic *)
      (if ScalingConfig.auto_scale (Service.scaling_config service) then
         let dailyProfit := (Service.daily_revenue service - Service.daily_costs service)%Q in
         if Qltb dailyProfit (ScalingConfig.kill_threshold (Service.scaling_config service)) then
           modify_service serviceIndex (Service.set_status killed) ;;;
           _ <- logDecisionInternal
             (DecisionInput.mk "auto_kill_service"
                ("Service " +:+ Service.name service
                   +:+ " killed due to low profitability: $"
                   +:+ Number_toString dailyProfit +:+ "/day")
                ("Daily profit ($" +:+ Number_toString dailyProfit
                   +:+ ") below kill threshold ($"
                   +:+ Number_toString
                         (ScalingConfig.kill_threshold (Service.scaling_config service))
                   +:+ ")")
                auto_approved
                (Some dailyProfit)
                (Some low)
                (Some (9 # 10))) ;;
           ret tt
         else if Qltb 50 dailyProfit && bool_decide (Service.status service = active) then
           modify_service serviceIndex (Service.set_status scaling) ;;;
           _ <- logDecisionInternal
             (DecisionInput.mk "auto_scale_service"
                ("Service " +:+ Service.name service
                   +:+ " marked for scaling due to high profitability: $"
                   +:+ Number_toString dailyProfit +:+ "/day")
                ("Daily profit ($" +:+ Number_toString dailyProfit
                   +:+ ") indicates strong demand and scalability potential")
                auto_approved
                (Some (dailyProfit * 2)%Q)
                (Some medium)
                (Some (7 # 10))) ;;
           ret tt
         else ret tt
       else ret tt) ;;;
      saveData
  end.

(** ** Revenue tracking *)

Module RecordTransactionArgs.
Record t := mk {
  service_id : string;
  amount : Q;
  currency : option string;
  customer_id : option string;
  stripe_transaction_id : option string;
  metadata : option any }.
End RecordTransactionArgs.

(** The [transaction] object literal of [recordTransaction]. *)
Definition transaction_of (id : string) (timestamp : Z) (args : RecordTransactionArgs.t)
  : Transaction.t :=
  Transaction.mk id
    (RecordTransactionArgs.service_id args)
    (RecordTransactionArgs.amount args)
    (orS (RecordTransactionArgs.currency args) "USD")
    (RecordTransactionArgs.customer_id args)
    timestamp
    (RecordTransactionArgs.stripe_transaction_id args)
    (orObj (RecordTransactionArgs.metadata args) (JObj [])).

(** The block "Update service revenue" of [recordTransaction]. *)
Definition updateServiceRevenue (args : RecordTransactionArgs.t) : M unit :=
  svcs <- gets (fun w => services (data w)) ;;
  match list_find (fun s => Service.id s = RecordTransactionArgs.service_id args) svcs with
  | Some (i, _) =>
      (* Update daily revenue (rough calculation) *)
      todayStart <- todayStart_now ;;
      txs <- gets (fun w => transactions (data w)) ;;
      let todayTransactions :=
        filter (fun t => Transaction.service_id t = RecordTransactionArgs.service_id args
                         /\ todayStart <= Transaction.timestamp t) txs in
      let todayRevenue := sum_by Transaction.amount todayTransactions in
      modify_service i (Service.set_daily_revenue todayRevenue) ;;;
      now <- Date_now ;;
      modify_service i (Service.set_updated_at now) ;;;
      saveData
  | None => ret tt
  end.

Definition recordTransaction (args : RecordTransactionArgs.t) : M string :=
  id <- uuidv4 ;;
  timestamp <- Date_now ;;
  let transaction := transaction_of id timestamp args in
  modify_data (push_transaction transaction) ;;;
  saveData ;;;
  updateServiceRevenue args ;;;
  ret id.

Module ServiceStats.
Record t := mk {
  service_id : string;
  transaction_count : nat;
  total_revenue : Q;
  transactions : list Transaction.t }.
(** [stats.transaction_count++; stats.total_revenue += t.amount;
    stats.transactions.push(t)] *)
Definition bump (tx : Transaction.t) (stats : t) : t :=
  mk (service_id stats) (S (transaction_count stats))
     (total_revenue stats + Transaction.amount tx)%Q
     (transactions stats ++ [tx]).
End ServiceStats.

Module EnrichedStats.
Record t := mk {
  stats : ServiceStats.t;
  service_name : string;
  avg_transaction : Q;
  daily_average : Q }.
End EnrichedStats.

Module RevenueReport.
Record t := mk {
  timeframe_days : Q;
  total_revenue : Q;
  total_transactions : nat;
  average_transaction : Q;
  daily_average : Q;
  by_service : list (EnrichedStats.t * Q) }. (* each with its revenue share in % *)
End RevenueReport.

(** One iteration of the [forEach] that fills the [Map] (a [Map] keeps
    its keys in insertion order). *)
Definition group_step (serviceAnalytics : list ServiceStats.t) (tx : Transaction.t)
  : list ServiceStats.t :=
  let serviceId := Transaction.service_id tx in
  let has := fun m => list_find (fun a => ServiceStats.service_id a = serviceId) m in
  let m1 := match has serviceAnalytics with
            | Some _ => serviceAnalytics
            | None => serviceAnalytics ++ [ServiceStats.mk serviceId 0 0 []]
            end in
  match has m1 with
  | Some (i, _) => alter (ServiceStats.bump tx) i m1
  | None => m1
  end.

Fixpoint mapM {A B} (f : A -> M B) (l : list A) : M (list B) :=
  match l with
  | [] => ret []
  | x :: l' => y <- f x ;; ys <- mapM f l' ;; ret (y :: ys)
  end.

Module RevenueAnalyticsArgs.
Record t := mk {
  timeframe_days : option Q;
  service_id : option string }.
End RevenueAnalyticsArgs.

(** The transactions a revenue query looks at: those not older than the
    cutoff, narrowed to one service when [args.service_id] is truthy. *)
Definition analytics_window (cutoffTime : Q) (service_id : option string)
    (all : list Transaction.t) : list Transaction.t :=
  let transactions :=
    List.filter (fun t => Qle_bool cutoffTime (inject_Z (Transaction.timestamp t))) all in
  match service_id with
  | None | Some EmptyString => transactions
  | Some sid => filter (fun t => Transaction.service_id t = sid) transactions
  end.

Definition getRevenueAnalytics (args : RevenueAnalyticsArgs.t) : M RevenueReport.t :=
  let timeframeDays := orQ (RevenueAnalyticsArgs.timeframe_days args) 30 in
  now <- Date_now ;;
  let cutoffTime := (inject_Z now - timeframeDays * 24 * 60 * 60 * 1000)%Q in
  all <- gets (fun w => transactions (data w)) ;;
  let txs := analytics_window cutoffTime (RevenueAnalyticsArgs.service_id args) all in
  (* Group by service *)
  let serviceAnalytics := fold_left group_step txs [] in
  let analytics :=
    js_sort (fun a b => (ServiceStats.total_revenue b - ServiceStats.total_revenue a)%Q)
      serviceAnalytics in
  let totalRevenue := sum_by Transaction.amount txs in
  let totalTransactions := length txs in
  svcs <- gets (fun w => services (data w)) ;;
  enrichedAnalytics <-
    mapM (fun a =>
            let service_name :=
              match list_find (fun s => Service.id s = ServiceStats.service_id a) svcs with
              | Some (_, s) => orS (Some (Service.name s)) "Unknown Service"
              | None => "Unknown Service"
              end in
            avg <- js_div (ServiceStats.total_revenue a)
                     (inject_Z (Z.of_nat (ServiceStats.transaction_count a))) ;;
            daily <- js_div (ServiceStats.total_revenue a) timeframeDays ;;
            ret (EnrichedStats.mk a service_name avg daily))
         analytics ;;
  (* the divisions of the report text *)
  average <- (if (0 <? totalTransactions)%nat
              then js_div totalRevenue (inject_Z (Z.of_nat totalTransactions))
              else ret 0%Q) ;;
  dailyAverage <- js_div totalRevenue timeframeDays ;;
  shares <-
    mapM (fun a =>
            share <- js_div (ServiceStats.total_revenue (EnrichedStats.stats a)) totalRevenue ;;
            ret (a, (share * 100)%Q))
         enrichedAnalytics ;;
  ret (RevenueReport.mk timeframeDays totalRevenue totalTransactions
         average dailyAverage shares).

(** ** Market intelligence *)

Module RecordMarketOpportunityArgs.
Record t := mk {
  opportunity_type : string;
  market_size : option Q;
  competition_level : option Level;
  profit_potential : option Q;
  implementation_effort : option Level;
  discovery_source : option string;
  analysis_data : option any }.
End RecordMarketOpportunityArgs.

Definition recordMarketOpportunity (args : RecordMarketOpportunityArgs.t) : M string :=
  id <- uuidv4 ;;
  created <- Date_now ;;
  let opportunity :=
    MarketOpportunity.mk id
      (RecordMarketOpportunityArgs.opportunity_type args)
      (RecordMarketOpportunityArgs.market_size args)
      (RecordMarketOpportunityArgs.competition_level args)
      (RecordMarketOpportunityArgs.profit_potential args)
      (RecordMarketOpportunityArgs.implementation_effort args)
      (RecordMarketOpportunityArgs.discovery_source args)
      (orObj (RecordMarketOpportunityArgs.analysis_data args) (JObj []))
      discovered
      created in
  modify_data (fun d => set_market_opportunities (market_opportunities d ++ [opportunity]) d) ;;;
  saveData ;;;
  ret id.

(** The comparator handed to [sort] in [getMarketOpportunities].  It is
    consistent on opportunities that all have a profit potential and on
    opportunities none of which has one, but not in general on a mix of
    both. *)
Definition compare_opportunities (a b : MarketOpportunity.t) : Q :=
  let by_created_at :=
    inject_Z (MarketOpportunity.created_at b - MarketOpportunity.created_at a) in
  match MarketOpportunity.profit_potential a, MarketOpportunity.profit_potential b with
  | Some pa, Some pb =>
      if truthyQ pa && truthyQ pb then (pb - pa)%Q else by_created_at
  | _, _ => by_created_at
  end.

Module MarketOpportunitiesArgs.
Record t := mk {
  status : option OpportunityStatus;
  limit : option Z }.
End MarketOpportunitiesArgs.

Definition getMarketOpportunities (args : MarketOpportunitiesArgs.t)
  : M (list MarketOpportunity.t) :=
  stored <- gets (fun w => market_opportunities (data w)) ;;
  sorted <-
    match MarketOpportunitiesArgs.status args with
    | Some st =>
        (* [filter] builds a new array, which [sort] then reorders *)
        ret (js_sort compare_opportunities
               (filter (fun o => MarketOpportunity.status o = st) stored))
    | None =>
        (* [sort] reorders the stored array itself *)
        let l := js_sort compare_opportunities stored in
        modify_data (set_market_opportunities l) ;;;
        ret l
    end ;;
  match MarketOpportunitiesArgs.limit args with
  | Some n => if n =? 0 then ret sorted else ret (slice0 n sorted)
  | None => ret sorted
  end.

(** ** Interaction extractor *)

Definition lower_ascii (c : ascii) : ascii :=
  let n := nat_of_ascii c in
  if ((65 <=? n) && (n <=? 90))%nat then ascii_of_nat (n + 32) else c.
(** [s.toLowerCase()] on ASCII text. *)
Fixpoint toLowerCase (s : string) : string :=
  match s with
  | EmptyString => EmptyString
  | String c s' => String (lower_ascii c) (toLowerCase s')
  end.
(** [text.includes(keyword)] *)
Fixpoint includes (text keyword : string) : bool :=
  if String.prefix keyword text then true
  else match text with
       | EmptyString => false
       | String _ rest => includes rest keyword
       end.

(** [`${userInput} ${aiResponse}`.toLowerCase()] *)
Definition combined_text (userInput aiResponse : string) : string :=
  toLowerCase (userInput +:+ " " +:+ aiResponse).

Definition taskKeywords : list string :=
  ["implement"; "build"; "create"; "deploy"; "setup"; "configure"; "test"; "fix"].
Definition techKeywords : list string :=
  ["stripe"; "mcp"; "server"; "api"; "webhook"; "payment"; "revbot"; "nodejs"; "typescript"].
Definition decisionKeywords : list string :=
  ["decided"; "choose"; "selected"; "approved"; "skip"; "use"; "go with"].
Definition blockerKeywords : list string :=
  ["error"; "failed"; "blocked"; "issue"; "problem"; "cannot"; "unable"; "stuck"].

Definition extractKeywords (text : string) (keywords : list string) : list string :=
  List.filter (fun keyword => includes text keyword) keywords.

Definition extractEntitiesFromConversation (userInput aiResponse : string) : Entities.t :=
  let combined := combined_text userInput aiResponse in
  Entities.mk
    (Some (extractKeywords combined taskKeywords))
    (Some (extractKeywords combined techKeywords))
    (Some (extractKeywords combined decisionKeywords))
    (Some (extractKeywords combined blockerKeywords)).

Definition inferContextType (userInput aiResponse : string) : ContextType :=
  let combined := combined_text userInput aiResponse in
  if includes combined "plan" || includes combined "strategy" || includes combined "roadmap"
  then planning
  else if includes combined "build" || includes combined "implement"
          || includes combined "deploy"
  then implementation
  else if includes combined "error" || includes combined "debug" || includes combined "fix"
  then debugging
  else if includes combined "decide" || includes combined "choose"
          || includes combined "approve"
  then decision
  else analysis.

Definition calculateImportanceScore (userInput aiResponse : string) : Q :=
  let combined := combined_text userInput aiResponse in
  let bump (hit : bool) (by_ : Q) (score : Q) : Q :=
    if hit then (score + by_)%Q else score in
  let score := (3 # 10)%Q in
  let score := bump (includes combined "critical" || includes combined "urgent")
                 (3 # 10) score in
  let score := bump (includes combined "revenue" || includes combined "payment"
                     || includes combined "money") (2 # 10) score in
  let score := bump (includes combined "decision" || includes combined "approve")
                 (2 # 10) score in
  let score := bump (includes combined "blocker" || includes combined "error"
                     || includes combined "problem") (2 # 10) score in
  let score := bump (includes combined "complete" || includes combined "finished"
                     || includes combined "done") (1 # 10) score in
  Qmin score 1.

Module LogBlockerArgs.
Record t := mk {
  title : string;
  description : string;
  blocker_type : BlockerType;
  severity : option Severity;
  resolution_steps : option (list string) }.
End LogBlockerArgs.

Definition logBlocker (args : LogBlockerArgs.t) : M string :=
  id <- uuidv4 ;;
  timestamp <- Date_now ;;
  let blocker :=
    Blocker.mk id timestamp
      (LogBlockerArgs.title args)
      (LogBlockerArgs.description args)
      (LogBlockerArgs.blocker_type args)
      (orObj (LogBlockerArgs.severity args) sev_medium)
      identified
      (orObj (LogBlockerArgs.resolution_steps args) [])
      None in
  modify_data (fun d => set_blockers (blockers d ++ [blocker]) d) ;;;
  saveData ;;;
  ret id.

Module ResolveBlockerArgs.
Record t := mk {
  blocker_id : string;
  resolution_summary : string }.
End ResolveBlockerArgs.

Definition resolveBlocker (args : ResolveBlockerArgs.t) : M unit :=
  bs <- gets (fun w => blockers (data w)) ;;
  match list_find (fun b => Blocker.id b = ResolveBlockerArgs.blocker_id args) bs with
  | None => throw ("Blocker not found: " +:+ ResolveBlockerArgs.blocker_id args)
  | Some (i, _) =>
      modify_blocker i (Blocker.resolve (ResolveBlockerArgs.resolution_summary args)) ;;;
      saveData
  end.

Module LogTechnicalDiscoveryArgs.
Record t := mk {
  discovery_type : DiscoveryType;
  title : string;
  description : string;
  file_path : option string;
  impact_level : option Severity;
  actionable_insights : option (list string);
  related_conversation_turn_id : option string }.
End LogTechnicalDiscoveryArgs.

Definition logTechnicalDiscovery (args : LogTechnicalDiscoveryArgs.t) : M string :=
  id <- uuidv4 ;;
  timestamp <- Date_now ;;
  let discovery :=
    TechnicalDiscovery.mk id timestamp
      (LogTechnicalDiscoveryArgs.discovery_type args)
      (LogTechnicalDiscoveryArgs.title args)
      (LogTechnicalDiscoveryArgs.description args)
      (LogTechnicalDiscoveryArgs.file_path args)
      (orObj (LogTechnicalDiscoveryArgs.impact_level args) sev_medium)
      (orObj (LogTechnicalDiscoveryArgs.actionable_insights args) [])
      (LogTechnicalDiscoveryArgs.related_conversation_turn_id args) in
  modify_data (push_technical_discovery discovery) ;;;
  saveData ;;;
  ret id.

Module LogProgressMilestoneArgs.
Record t := mk {
  milestone_type : MilestoneType;
  title : string;
  description : string;
  completion_percentage : option Q;
  next_steps : option (list string) }.
End LogProgressMilestoneArgs.

Definition logProgressMilestone (args : LogProgressMilestoneArgs.t) : M string :=
  id <- uuidv4 ;;
  timestamp <- Date_now ;;
  let milestone :=
    ProgressMilestone.mk id timestamp
      (LogProgressMilestoneArgs.milestone_type args)
      (LogProgressMilestoneArgs.title args)
      (LogProgressMilestoneArgs.description args)
      (orQ (LogProgressMilestoneArgs.completion_percentage args) 0)
      (orObj (LogProgressMilestoneArgs.next_steps args) []) in
  modify_data (push_progress_milestone milestone) ;;;
  saveData ;;;
  ret id.

(** [context_data]: the three lists that the optional chains
    [context_data?.extracted_entities?.<list>] of [autoCaptureContext]
    can reach; [None] where a link of the chain is [undefined].  The
    lists are arrays of strings, as in the entities of a conversation
    turn; the schema of the tool leaves [context_data] free-form, and
    values of another shape are outside the model. *)
Module ContextData.
Record t := mk {
  decisions_made : option (list string);
  blockers_identified : option (list string);
  technologies_discussed : option (list string) }.
Definition of_turn (turn : ConversationTurn.t) : t :=
  let e := ConversationTurn.extracted_entities turn in
  mk (Entities.decisions_made e)
     (Entities.blockers_identified e)
     (Entities.technologies_discussed e).
End ContextData.

(** [list?.length > 0] *)
Definition nonempty_opt {A} (l : option (list A)) : bool :=
  match l with
  | Some (_ :: _) => true
  | _ => false
  end.

Definition autoCaptureContext (trigger_type : TriggerType) (context_data : ContextData.t)
  : M unit :=
  match trigger_type with
  | trig_decision_made =>
      when (nonempty_opt (ContextData.decisions_made context_data))
        (for_of (orObj (ContextData.decisions_made context_data) [])
           (fun decision =>
              _ <- logDecisionInternal
                (DecisionInput.mk "conversation_decision"
                   ("Decision made in conversation: " +:+ decision)
                   "Auto-detected from conversation analysis"
                   auto_approved
                   None
                   None
                   (Some (8 # 10))) ;;
              ret tt))
  | trig_blocker_found =>
      when (nonempty_opt (ContextData.blockers_identified context_data))
        (for_of (orObj (ContextData.blockers_identified context_data) [])
           (fun blocker =>
              _ <- logBlocker
                (LogBlockerArgs.mk blocker
                   "Auto-detected blocker from conversation"
                   technical
                   (Some sev_medium)
                   (Some ["Investigate blocker"; "Find solution"; "Implement fix"])) ;;
              ret tt))
  | trig_technical_discovery =>
      when (nonempty_opt (ContextData.technologies_discussed context_data))
        (for_of (orObj (ContextData.technologies_discussed context_data) [])
           (fun tech =>
              _ <- logTechnicalDiscovery
                (LogTechnicalDiscoveryArgs.mk dependency_ready
                   (tech +:+ " technology discussed")
                   ("Technical discussion about " +:+ tech +:+ " in conversation")
                   None
                   (Some sev_medium)
                   (Some ["Review " +:+ tech +:+ " implementation";
                          "Consider " +:+ tech +:+ " integration"])
                   None) ;;
              ret tt))
  | trig_milestone_reached => ret tt
  end.

Module LogConversationTurnArgs.
Record t := mk {
  user_input : string;
  ai_response : string;
  context_type : option ContextType;
  extracted_entities : option Entities.t;
  importance_score : option Q }.
End LogConversationTurnArgs.

Definition logConversationTurn (args : LogConversationTurnArgs.t) : M ConversationTurn.t :=
  id <- uuidv4 ;;
  timestamp <- Date_now ;;
  (* Auto-extract entities from conversation *)
  let extractedEntities :=
    extractEntitiesFromConversation
      (LogConversationTurnArgs.user_input args)
      (LogConversationTurnArgs.ai_response args) in
  session <- gets (fun w => SessionMetadata.current_session_id (session_metadata (data w))) ;;
  let conversationTurn :=
    ConversationTurn.mk id session timestamp
      (LogConversationTurnArgs.user_input args)
      (LogConversationTurnArgs.ai_response args)
      (orObj (LogConversationTurnArgs.context_type args)
         (inferContextType
            (LogConversationTurnArgs.user_input args)
            (LogConversationTurnArgs.ai_response args)))
      (orObj (LogConversationTurnArgs.extracted_entities args) extractedEntities)
      (orQ (LogConversationTurnArgs.importance_score args)
         (calculateImportanceScore
            (LogConversationTurnArgs.user_input args)
            (LogConversationTurnArgs.ai_response args))) in
  modify_data (push_conversation_turn conversationTurn) ;;;
  saveData ;;;
  (* Auto-trigger context analysis *)
  autoCaptureContext trig_decision_made (ContextData.of_turn conversationTurn) ;;;
  ret conversationTurn.

(** ** Specification vocabulary *)

(** The world a call of [saveData] leaves. *)
Definition saved (w : World) : World := exec saveData w.

(** The data file holds exactly the graph that is in memory. *)
Definition synced (w : World) : Prop := file w = Present (Json (data w)).

(** [ts] falls in the local day that starts at [dayStart]. *)
Definition in_day (dayStart ts : Z) : Prop := dayStart <= ts < dayStart + DAY.

#[global] Instance in_day_dec (dayStart ts : Z) : Decision (in_day dayStart ts).
Proof. unfold in_day. apply _. Defined.




(** ** Sample worlds for the scenarios *)

(** A server that has just started on an empty data directory: clock
    readings 1000, 1001, ... and uuids "id-0", "id-1", ... *)
Definition boot_world : World :=
  mkWorld (empty_data "boot" 0 0) 0 Missing true 0 []
    (fun n => 1000 + Z.of_nat n) 0 0
    (fun n => "id-" +:+ pretty n) 0.

(** The counters of a service once the assignments guarded by
    [!== undefined] in [updateServicePerformance] are done. *)
Definition updated_revenue (args : UpdateServicePerformanceArgs.t) (s : Service.t) : Q :=
  match UpdateServicePerformanceArgs.daily_revenue args with
  | Some v => v
  | None => Service.daily_revenue s
  end.
Definition updated_costs (args : UpdateServicePerformanceArgs.t) (s : Service.t) : Q :=
  match UpdateServicePerformanceArgs.daily_costs args with
  | Some v => v
  | None => Service.daily_costs s
  end.
(** [daily_profit = daily_revenue - daily_costs] after the update. *)
Definition updated_profit (args : UpdateServicePerformanceArgs.t) (s : Service.t) : Q :=
  (updated_revenue args s - updated_costs args s)%Q.

(** The service object after the metric assignments and the
    [updated_at] stamp, before the auto-scaling rules run. *)
Definition performance_update (args : UpdateServicePerformanceArgs.t) (now : Z)
    (s : Service.t) : Service.t :=
  Service.mk (Service.id s) (Service.name s) (Service.type s) (Service.status s)
    (Service.created_at s)
    (updated_revenue args s)
    (updated_costs args s)
    (match UpdateServicePerformanceArgs.customer_count args with
     | Some v => v
     | None => Service.customer_count s
     end)
    (match UpdateServicePerformanceArgs.performance_metrics args with
     | Some metrics => update_metrics metrics (Service.performance_metrics s)
     | None => Service.performance_metrics s
     end)
    (Service.scaling_config s)
    now.

(** A [Decision] as rule 1 (auto-kill) logs it for a daily profit. *)
Definition auto_kill_decision (dailyProfit : Q) (d : Decision.t) : Prop :=
  Decision.decision_type d = "auto_kill_service" /\
  Decision.outcome d = auto_approved /\
  Decision.risk_level d = Some low /\
  ImpactMetrics.risk_level (Decision.impact_metrics d) = low /\
  Decision.confidence_score d = Some (9 # 10)%Q /\
  ImpactMetrics.confidence_score (Decision.impact_metrics d) = (9 # 10)%Q /\
  Decision.revenue_impact d = Some dailyProfit /\
  (ImpactMetrics.revenue_impact (Decision.impact_metrics d) == dailyProfit)%Q.

(** A [Decision] as rule 2 (auto-scale) logs it for a daily profit. *)
Definition auto_scale_decision (dailyProfit : Q) (d : Decision.t) : Prop :=
  Decision.decision_type d = "auto_scale_service" /\
  Decision.outcome d = auto_approved /\
  Decision.risk_level d = Some medium /\
  ImpactMetrics.risk_level (Decision.impact_metrics d) = medium /\
  Decision.confidence_score d = Some (7 # 10)%Q /\
  ImpactMetrics.confidence_score (Decision.impact_metrics d) = (7 # 10)%Q /\
  Decision.revenue_impact d = Some (dailyProfit * 2)%Q /\
  (ImpactMetrics.revenue_impact (Decision.impact_metrics d) == dailyProfit * 2)%Q.

(** The scenario service: registered with the defaults
    ([max_daily_spend = 100], [auto_scale = true], [kill_threshold = -10]). *)
Definition scenario_world : World :=
  exec (registerService (RegisterServiceArgs.mk "qr" "web" (Some 100%Q) (Some true)))
    boot_world.

(** The performance update of the kill scenario: revenue 5, costs 20. *)
Definition losing_update : UpdateServicePerformanceArgs.t :=
  UpdateServicePerformanceArgs.mk "id-0" (Some 5%Q) (Some 20%Q) None None.
(** The performance update of the scale scenario: revenue 80, costs 10. *)
Definition winning_update : UpdateServicePerformanceArgs.t :=
  UpdateServicePerformanceArgs.mk "id-0" (Some 80%Q) (Some 10%Q) None None.




(** ** Rounding *)


(** ** The mutating tools *)

(** The mutating entries of the [switch (name)] in the
    [CallToolRequestSchema] handler, each with its arguments. *)
Inductive MutatingCall :=
| register_service (args : RegisterServiceArgs.t)
| update_service_performance (args : UpdateServicePerformanceArgs.t)
| record_transaction (args : RecordTransactionArgs.t)
| log_decision (args : LogDecisionArgs.t)
| record_market_opportunity (args : RecordMarketOpportunityArgs.t)
| log_conversation_turn (args : LogConversationTurnArgs.t)
| log_blocker (args : LogBlockerArgs.t)
| resolve_blocker (args : ResolveBlockerArgs.t)
| log_progress_milestone (args : LogProgressMilestoneArgs.t)
| save_business_state (args : SaveBusinessStateArgs.t).

(** The handler: [return await this.<method>(args)], the reply dropped. *)
Definition call (c : MutatingCall) : M unit :=
  match c with
  | register_service args => _ <- registerService args ;; ret tt
  | update_service_performance args => updateServicePerformance args
  | record_transaction args => _ <- recordTransaction args ;; ret tt
  | log_decision args => _ <- logDecision args ;; ret tt
  | record_market_opportunity args => _ <- recordMarketOpportunity args ;; ret tt
  | log_conversation_turn args => _ <- logConversationTurn args ;; ret tt
  | log_blocker args => _ <- logBlocker args ;; ret tt
  | resolve_blocker args => resolveBlocker args
  | log_progress_milestone args => _ <- logProgressMilestone args ;; ret tt
  | save_business_state args => _ <- saveBusinessState args ;; ret tt
  end.

(** The two tools that look an entity up by id and throw when it is
    missing. *)
Definition looks_up (c : MutatingCall) : bool :=
  match c with
  | update_service_performance _ | resolve_blocker _ => true
  | _ => false
  end.

(** A computation leaves the file system as writable as it was and never
    undoes a write. *)
Definition preserves_fs {A} (m : M A) : Prop :=
  forall w, fs_writable (exec m w) = fs_writable w /\
            (fs_writes w <= fs_writes (exec m w))%nat.

(** A computation that returns has written the graph to the file, and
    the file holds what is in memory when it returns. *)
Definition writes_through {A} (m : M A) : Prop :=
  forall w r, fs_writable w = true -> outcome m w = Ok r ->
              synced (exec m w) /\ (fs_writes w < fs_writes (exec m w))%nat.

(** A computation does not bring memory and file apart. *)
Definition keeps_synced {A} (m : M A) : Prop :=
  preserves_fs m /\
  forall w, fs_writable w = true -> synced w -> synced (exec m w).

(** A computation never throws. *)
Definition returns {A} (m : M A) : Prop :=
  forall w, exists r, outcome m w = Ok r.

(** ** Vocabulary for the interaction extractor *)

(** The keyword families of the classifier, in priority order. *)
Definition context_families : list (ContextType * list string) :=
  [ (planning, ["plan"; "strategy"; "roadmap"]);
    (implementation, ["build"; "implement"; "deploy"]);
    (debugging, ["error"; "debug"; "fix"]);
    (decision, ["decide"; "choose"; "approve"]) ].

(** First-match classification: the category of the first family one of
    whose terms occurs in the text, [analysis] when none does. *)
Definition classify_by_priority (combined : string) : ContextType :=
  match List.find (fun family => existsb (includes combined) (snd family))
          context_families with
  | Some family => fst family
  | None => analysis
  end.

(** The auxiliary [Decision] the extractor logs for a matched term. *)
Definition conversation_decision (term : string) (d : Decision.t) : Prop :=
  Decision.decision_type d = "conversation_decision" /\
  Decision.context d = "Decision made in conversation: " +:+ term /\
  Decision.reasoning d = "Auto-detected from conversation analysis" /\
  Decision.outcome d = auto_approved /\
  Decision.confidence_score d = Some (8 # 10)%Q.

(** The interaction of the concrete scenario. *)
Definition scenario_turn : LogConversationTurnArgs.t :=
  LogConversationTurnArgs.mk "We decided to ship" "There was an ERROR in the log"
    None None None.

(** ** Vocabulary for the opportunity ranking *)

(** [o.profit_potential] is truthy: present and not zero. *)
Definition has_profit (o : MarketOpportunity.t) : bool :=
  match MarketOpportunity.profit_potential o with
  | Some p => truthyQ p
  | None => false
  end.

Definition profit_of (o : MarketOpportunity.t) : Q :=
  match MarketOpportunity.profit_potential o with
  | Some p => p
  | None => 0
  end.

(** The opportunities a query selects before they are ordered. *)
Definition selected_opportunities (args : MarketOpportunitiesArgs.t) (w : World)
  : list MarketOpportunity.t :=
  match MarketOpportunitiesArgs.status args with
  | Some st => filter (fun o => MarketOpportunity.status o = st) (market_opportunities (data w))
  | None => market_opportunities (data w)
  end.

(** A store with two opportunities: one with a profit potential of 100,
    then a later one without any. *)
Definition market_world : World :=
  exec (recordMarketOpportunity
          (RecordMarketOpportunityArgs.mk "newsletter" None None None None None None))
    (exec (recordMarketOpportunity
             (RecordMarketOpportunityArgs.mk "qr codes" None None (Some 100%Q) None None None))
       boot_world).

(** A store with two opportunities of the same profit potential, 100:
    "older", discovered at 1000, then "newer", discovered at 1003. *)
Definition tied_world : World :=
  exec (recordMarketOpportunity
          (RecordMarketOpportunityArgs.mk "newer" None None (Some 100%Q) None None None))
    (exec (recordMarketOpportunity
             (RecordMarketOpportunityArgs.mk "older" None None (Some 100%Q) None None None))
       boot_world).

(** A store with two opportunities that both carry a profit potential:
    100, then 250. *)
Definition ranked_world : World :=
  exec (recordMarketOpportunity
          (RecordMarketOpportunityArgs.mk "bigger" None None (Some 250%Q) None None None))
    (exec (recordMarketOpportunity
             (RecordMarketOpportunityArgs.mk "smaller" None None (Some 100%Q) None None None))
       boot_world).

(** The auxiliary [Blocker] that [autoCaptureContext] logs for a term
    under the trigger [blocker_found]. *)
Definition conversation_blocker (term : string) (b : Blocker.t) : Prop :=
  Blocker.title b = term /\
  Blocker.description b = "Auto-detected blocker from conversation" /\
  Blocker.blocker_type b = technical /\
  Blocker.severity b = sev_medium /\
  Blocker.status b = identified.

(** A store that holds one blocker, already escalated. *)
Definition escalated_world : World :=
  mkWorld
    (set_blockers
       [Blocker.mk "b-1" 500 "payments down" "webhook returns 500"
          dependency critical escalated [] None]
       (data boot_world))
    0 Missing true 0 [] (clock boot_world) 0 0 (uuid_source boot_world) 0.

(** ** Queries *)

(** The in-place [sort] of a stored collection writes the reordered array
    back into the store. *)
Definition set_business_states (x : list BusinessState.t) (d : RevBotData) : RevBotData :=
  mkData x (services d) (transactions d) (decisions d)
    (market_opportunities d) (customers d) (conversation_turns d)
    (technical_discoveries d) (blockers d) (progress_milestones d)
    (session_metadata d).
Definition set_technical_discoveries (x : list TechnicalDiscovery.t) (d : RevBotData)
  : RevBotData :=
  mkData (business_states d) (services d) (transactions d) (decisions d)
    (market_opportunities d) (customers d) (conversation_turns d)
    x (blockers d) (progress_milestones d)
    (session_metadata d).
Definition set_progress_milestones (x : list ProgressMilestone.t) (d : RevBotData)
  : RevBotData :=
  mkData (business_states d) (services d) (transactions d) (decisions d)
    (market_opportunities d) (customers d) (conversation_turns d)
    (technical_discoveries d) (blockers d) x
    (session_metadata d).

(** [l.sort((a, b) => b.timestamp - a.timestamp)] *)
Definition latest_first {A} (timestamp : A -> Z) (l : list A) : list A :=
  js_sort (fun a b => inject_Z (timestamp b - timestamp a)) l.

(** [Math.abs(x)] *)
Definition Math_abs (x : Q) : Q := if Qltb x 0 then (- x)%Q else x.

(** A [length] used as a number. *)
Definition Qnat (n : nat) : Q := inject_Z (Z.of_nat n).

Module BusinessStateReport.
Record t := mk {
  latestState : BusinessState.t;
  recentServices : list Service.t;
  recentDecisions : list Decision.t;
  recentTransactions : list Transaction.t }.
End BusinessStateReport.

(** [None] is the reply "No previous business state found". *)
Definition getCurrentBusinessState : M (option BusinessStateReport.t) :=
  states <- gets (fun w => business_states (data w)) ;;
  let sortedStates := latest_first BusinessState.timestamp states in
  modify_data (set_business_states sortedStates) ;;;
  match sortedStates with
  | [] => ret None
  | latestState :: _ =>
      (* Get recent activity *)
      svcs <- gets (fun w => services (data w)) ;;
      let sortedServices := latest_first Service.updated_at svcs in
      modify_data (set_services sortedServices) ;;;
      let recentServices := slice0 5 sortedServices in
      now <- Date_now ;;
      let last24Hours := now - 24 * 60 * 60 * 1000 in
      ds <- gets (fun w => decisions (data w)) ;;
      let recentDecisions :=
        slice0 3 (filter (fun d => last24Hours <= Decision.timestamp d) ds) in
      txs <- gets (fun w => transactions (data w)) ;;
      let recentTransactions :=
        filter (fun t => last24Hours <= Transaction.timestamp t) txs in
      ret (Some (BusinessStateReport.mk latestState recentServices
                   recentDecisions recentTransactions))
  end.

Module AllServicesArgs.
Record t := mk {
  status_filter : option ServiceStatus }.
End AllServicesArgs.

Module Portfolio.
Record t := mk {
  listed : list Service.t;
  totalRevenue : Q;
  totalCosts : Q;
  totalProfit : Q }.
End Portfolio.

Definition getAllServices (args : AllServicesArgs.t) : M Portfolio.t :=
  stored <- gets (fun w => services (data w)) ;;
  (* Sort by daily revenue descending *)
  let by_revenue :=
    fun a b : Service.t => (Service.daily_revenue b - Service.daily_revenue a)%Q in
  sorted <-
    match AllServicesArgs.status_filter args with
    | Some st =>
        ret (js_sort by_revenue (filter (fun s => Service.status s = st) stored))
    | None =>
        let l := js_sort by_revenue stored in
        modify_data (set_services l) ;;;
        ret l
    end ;;
  let totalRevenue := sum_by Service.daily_revenue sorted in
  let totalCosts := sum_by Service.daily_costs sorted in
  let totalProfit := (totalRevenue - totalCosts)%Q in
  ret (Portfolio.mk sorted totalRevenue totalCosts totalProfit).

(** The reply lists these decisions; the empty list is rendered as
    "NO PENDING DECISIONS". *)
Definition getPendingDecisions : M (list Decision.t) :=
  ds <- gets (fun w => decisions (data w)) ;;
  ret (latest_first Decision.timestamp
         (filter (fun d => Decision.outcome d = pending) ds)).

Inductive FocusArea :=
  focus_revenue | focus_services | focus_customers | focus_opportunities | focus_risks.

#[global] Instance FocusArea_eq_dec : EqDecision FocusArea.
Proof. solve_decision. Defined.

(** The lines that [getBusinessInsights] can add under
    "AI RECOMMENDATIONS", each with the number it prints. *)
Inductive Recommendation :=
| urgent_losses (losses : Q)
| focus_on_customer_acquisition
| strong_performance
| deploy_more_services (current : nat)
| ready_for_scaling (count : nat)
| high_risk_pending (count : nat)
| new_opportunities (count : nat)
| satisfaction_low (avgSatisfaction : Q)
| satisfaction_excellent (avgSatisfaction : Q).

Module Insights.
Record revenue_analysis := mk_revenue {
  monthly_revenue : Q;
  daily_revenue : Q;
  daily_costs : Q;
  daily_profit : Q }.
Record service_portfolio := mk_portfolio {
  active_count : nat;
  scaling_count : nat;
  killed_count : nat;
  success_rate : Q }.
Record t := mk {
  revenue : option revenue_analysis;
  portfolio : option service_portfolio;
  recommendations : list Recommendation }.
End Insights.

Module BusinessInsightsArgs.
Record t := mk {
  focus_area : option FocusArea }.
End BusinessInsightsArgs.

Definition getBusinessInsights (args : BusinessInsightsArgs.t) : M Insights.t :=
  let focusArea := orObj (BusinessInsightsArgs.focus_area args) focus_revenue in
  (* Calculate key metrics *)
  now <- Date_now ;;
  let last30Days := now - 30 * 24 * 60 * 60 * 1000 in
  txs <- gets (fun w => transactions (data w)) ;;
  let recentTransactions := filter (fun t => last30Days <= Transaction.timestamp t) txs in
  let totalRevenue := sum_by Transaction.amount recentTransactions in
  svcs <- gets (fun w => services (data w)) ;;
  let activeServices := filter (fun s => Service.status s = active) svcs in
  let killedServices := filter (fun s => Service.status s = killed) svcs in
  let scalingServices := filter (fun s => Service.status s = scaling) svcs in
  let totalDailyCosts := sum_by Service.daily_costs activeServices in
  let totalDailyRevenue := sum_by Service.daily_revenue activeServices in
  let dailyProfit := (totalDailyRevenue - totalDailyCosts)%Q in
  ds <- gets (fun w => decisions (data w)) ;;
  let pendingDecisions := filter (fun d => Decision.outcome d = pending) ds in
  let highRiskDecisions :=
    filter (fun d => ImpactMetrics.risk_level (Decision.impact_metrics d) = high)
      pendingDecisions in
  (* Revenue insights *)
  let revenue :=
    if bool_decide (focusArea = focus_revenue)
    then Some (Insights.mk_revenue totalRevenue totalDailyRevenue totalDailyCosts dailyProfit)
    else None in
  (* Service insights *)
  portfolio <-
    (if bool_decide (focusArea = focus_services) then
       rate <- (if (0 <? length activeServices)%nat
                then share <- js_div (Qnat (length activeServices)) (Qnat (length svcs)) ;;
                     ret (share * 100)%Q
                else ret 0%Q) ;;
       ret (Some (Insights.mk_portfolio (length activeServices) (length scalingServices)
                    (length killedServices) rate))
     else ret None) ;;
  (* Generate recommendations *)
  let on_profit :=
    if Qltb dailyProfit 0 then [urgent_losses (Math_abs dailyProfit)]
    else if Qltb dailyProfit 10 then [focus_on_customer_acquisition]
    else if Qltb 100 dailyProfit then [strong_performance]
    else [] in
  let on_services :=
    if (length activeServices <? 3)%nat then [deploy_more_services (length activeServices)]
    else [] in
  let on_scaling :=
    if (0 <? length scalingServices)%nat then [ready_for_scaling (length scalingServices)]
    else [] in
  let on_risk :=
    if (0 <? length highRiskDecisions)%nat then [high_risk_pending (length highRiskDecisions)]
    else [] in
  opps <- gets (fun w => market_opportunities (data w)) ;;
  let recentOpportunities :=
    filter (fun o => last30Days <= MarketOpportunity.created_at o
                     /\ MarketOpportunity.status o = discovered) opps in
  let on_opportunities :=
    if (0 <? length recentOpportunities)%nat
    then [new_opportunities (length recentOpportunities)]
    else [] in
  (* Performance insights *)
  avgSatisfaction <-
    (if (0 <? length activeServices)%nat
     then js_div
            (sum_by (fun s => Metrics.customer_satisfaction (Service.performance_metrics s))
               activeServices)
            (Qnat (length activeServices))
     else ret 0%Q) ;;
  let on_satisfaction :=
    if Qltb avgSatisfaction (35 # 10) then [satisfaction_low avgSatisfaction]
    else if Qltb (45 # 10) avgSatisfaction then [satisfaction_excellent avgSatisfaction]
    else [] in
  ret (Insights.mk revenue portfolio
         (on_profit ++ on_services ++ on_scaling ++ on_risk
            ++ on_opportunities ++ on_satisfaction)).

Module FullSessionContextArgs.
Record t := mk {
  include_conversation_history : option bool;
  include_technical_discoveries : option bool;
  include_active_blockers : option bool;
  max_conversation_turns : option Z }.
End FullSessionContextArgs.

Module SessionContext.
Record t := mk {
  session : SessionMetadata.t;
  recentTurns : option (list ConversationTurn.t);
  recentDiscoveries : option (list TechnicalDiscovery.t);
  activeBlockers : option (list Blocker.t);
  recentMilestones : list ProgressMilestone.t }.
End SessionContext.

(** [x !== false] on an optional flag. *)
Definition not_false (x : option bool) : bool :=
  match x with
  | Some false => false
  | _ => true
  end.

(** [x || d] on an optional integer: [undefined] and [0] give [d]. *)
Definition orZ (x : option Z) (d : Z) : Z :=
  match x with
  | Some v => if v =? 0 then d else v
  | None => d
  end.

(** The lines of a turn in the reply.  Only what can fail is kept of
    the text: [turn.extracted_entities.decisions_made.length] reads a
    property of [undefined] when the stored entities lack that list. *)
Definition render_turn (turn : ConversationTurn.t) : M unit :=
  match Entities.decisions_made (ConversationTurn.extracted_entities turn) with
  | Some _ => ret tt
  | None => throw "TypeError: Cannot read properties of undefined (reading 'length')"
  end.

Definition getFullSessionContext (args : FullSessionContextArgs.t) : M SessionContext.t :=
  let includeConversation :=
    not_false (FullSessionContextArgs.include_conversation_history args) in
  let includeTechnical :=
    not_false (FullSessionContextArgs.include_technical_discoveries args) in
  let includeBlockers :=
    not_false (FullSessionContextArgs.include_active_blockers args) in
  let maxTurns := orZ (FullSessionContextArgs.max_conversation_turns args) 50 in
  (* Current session metadata *)
  session <- gets (fun w => session_metadata (data w)) ;;
  (* Recent conversation history *)
  turns <- gets (fun w => conversation_turns (data w)) ;;
  recentTurns <-
    (if includeConversation then
       let recentTurns :=
         slice0 maxTurns
           (latest_first ConversationTurn.timestamp
              (filter (fun turn => ConversationTurn.session_id turn
                                   = SessionMetadata.current_session_id session)
                 turns)) in
       (* [recentTurns.reverse().forEach(...)] *)
       for_of (rev recentTurns) render_turn ;;;
       ret (Some (rev recentTurns))
     else ret None) ;;
  (* Technical discoveries *)
  recentDiscoveries <-
    (if includeTechnical then
       found <- gets (fun w => technical_discoveries (data w)) ;;
       let sorted := latest_first TechnicalDiscovery.timestamp found in
       modify_data (set_technical_discoveries sorted) ;;;
       ret (Some (slice0 10 sorted))
     else ret None) ;;
  (* Active blockers *)
  bs <- gets (fun w => blockers (data w)) ;;
  let activeBlockers :=
    if includeBlockers
    then Some (latest_first Blocker.timestamp
                 (filter (fun b => Blocker.status b <> resolved) bs))
    else None in
  (* Recent milestones *)
  reached <- gets (fun w => progress_milestones (data w)) ;;
  let sortedMilestones := latest_first ProgressMilestone.timestamp reached in
  modify_data (set_progress_milestones sortedMilestones) ;;;
  ret (SessionContext.mk session recentTurns recentDiscoveries activeBlockers
         (slice0 5 sortedMilestones)).

(** The tools that only answer a question, as the [switch (name)] of the
    request handler dispatches them. *)
Inductive QueryCall :=
| get_current_business_state
| get_all_services (args : AllServicesArgs.t)
| get_revenue_analytics (args : RevenueAnalyticsArgs.t)
| get_pending_decisions
| get_market_opportunities (args : MarketOpportunitiesArgs.t)
| get_business_insights (args : BusinessInsightsArgs.t)
| get_full_session_context (args : FullSessionContextArgs.t).

Definition query (c : QueryCall) : M unit :=
  match c with
  | get_current_business_state => _ <- getCurrentBusinessState ;; ret tt
  | get_all_services args => _ <- getAllServices args ;; ret tt
  | get_revenue_analytics args => _ <- getRevenueAnalytics args ;; ret tt
  | get_pending_decisions => _ <- getPendingDecisions ;; ret tt
  | get_market_opportunities args => _ <- getMarketOpportunities args ;; ret tt
  | get_business_insights args => _ <- getBusinessInsights args ;; ret tt
  | get_full_session_context args => _ <- getFullSessionContext args ;; ret tt
  end.

(** Two graphs hold the same entities: every collection of the one is a
    rearrangement of the same collection of the other, and the session
    metadata are equal. *)
Definition same_entities (d d' : RevBotData) : Prop :=
  Permutation (business_states d) (business_states d') /\
  Permutation (services d) (services d') /\
  transactions d = transactions d' /\
  decisions d = decisions d' /\
  Permutation (market_opportunities d) (market_opportunities d') /\
  customers d = customers d' /\
  conversation_turns d = conversation_turns d' /\
  Permutation (technical_discoveries d) (technical_discoveries d') /\
  blockers d = blockers d' /\
  Permutation (progress_milestones d) (progress_milestones d') /\
  session_metadata d = session_metadata d'.

(** A computation that persists nothing, whether it returns or throws:
    it leaves the file, the write count, the save stamp and the uuid
    source alone, and at most rearranges collections in memory. *)
Definition answers_only {A} (m : M A) : Prop :=
  forall w,
    file (exec m w) = file w /\
    fs_writes (exec m w) = fs_writes w /\
    fs_writable (exec m w) = fs_writable w /\
    lastAutoSave (exec m w) = lastAutoSave w /\
    drawn (exec m w) = drawn w /\
    uuid_source (exec m w) = uuid_source w /\
    same_entities (data w) (data (exec m w)).

(** A computation that does not touch the store at all (it may read the
    clock and divide). *)
Definition leaves_store {A} (m : M A) : Prop :=
  forall w,
    (exists r, outcome m w = Ok r) /\
    data (exec m w) = data w /\
    file (exec m w) = file w /\
    fs_writes (exec m w) = fs_writes w /\
    fs_writable (exec m w) = fs_writable w /\
    lastAutoSave (exec m w) = lastAutoSave w /\
    drawn (exec m w) = drawn w /\
    uuid_source (exec m w) = uuid_source w.

(** The services a portfolio query lists, before they are ordered. *)
Definition selected_services (args : AllServicesArgs.t) (w : World) : list Service.t :=
  match AllServicesArgs.status_filter args with
  | Some st => filter (fun s => Service.status s = st) (services (data w))
  | None => services (data w)
  end.

(** A list is ordered latest first. *)
Definition newest_first {A} (timestamp : A -> Z) (l : list A) : Prop :=
  StronglySorted (fun a b => timestamp b <= timestamp a) l.

(** The scenario interaction, logged on a freshly started server. *)
Definition conversation_world : World :=
  exec (logConversationTurn scenario_turn) boot_world.

(** The turns a session query lists: those of the current session, the
    [max_conversation_turns] latest of them, oldest first. *)
Definition listed_turns (args : FullSessionContextArgs.t) (w : World)
  : list ConversationTurn.t :=
  let current := SessionMetadata.current_session_id (session_metadata (data w)) in
  rev (slice0 (orZ (FullSessionContextArgs.max_conversation_turns args) 50)
         (latest_first ConversationTurn.timestamp
            (filter (fun turn => ConversationTurn.session_id turn = current)
               (conversation_turns (data w))))).

(** The stored entities of a turn carry the list of decisions. *)
Definition lists_decisions (turn : ConversationTurn.t) : Prop :=
  is_Some (Entities.decisions_made (ConversationTurn.extracted_entities turn)).

(** The reply of a session query can be rendered: the history is left
    out, or every turn it lists carries its list of decisions. *)
Definition renders (args : FullSessionContextArgs.t) (w : World) : Prop :=
  FullSessionContextArgs.include_conversation_history args = Some false \/
  Forall lists_decisions (listed_turns args w).

(** The queries that answer on a store: all of them, except a session
    query whose reply cannot be rendered. *)
Definition answerable (c : QueryCall) (w : World) : Prop :=
  match c with
  | get_full_session_context args => renders args w
  | _ => True
  end.

(** An interaction whose caller sent entities without [decisions_made],
    and the store of a freshly started server that has logged it. *)
Definition partial_turn : LogConversationTurnArgs.t :=
  LogConversationTurnArgs.mk "hello" "hi there" None
    (Some (Entities.mk None (Some ["stripe"]) None None)) None.
Definition partial_world : World :=
  exec (logConversationTurn partial_turn) boot_world.

(** ** Relations kept along a run *)

(** [m] takes every world to one that is [R]-related to it. *)
Definition respects (R : World -> World -> Prop) {A} (m : M A) : Prop :=
  forall w, R w (exec m w).

(** What a relation between worlds needs for [respects] to follow the
    structure of a method body: a preorder that a reading of the clock,
    a drawn uuid and [saveData] respect. *)
Record tracked (R : World -> World -> Prop) : Prop := mk_tracked {
  tracked_refl : forall w, R w w;
  tracked_trans : forall w1 w2 w3, R w1 w2 -> R w2 w3 -> R w1 w3;
  tracked_read : forall w, R w (with_read w);
  tracked_drawn : forall w, R w (with_drawn w);
  tracked_saved : forall w, R w (saved w) }.

(** On a file system that rejects writes nothing reaches the disk: the
    file, the count of completed writes and the save stamp stay. *)
Definition disk_untouched (w w' : World) : Prop :=
  fs_writable w = false ->
  fs_writable w' = false /\
  file w' = file w /\
  fs_writes w' = fs_writes w /\
  lastAutoSave w' = lastAutoSave w.

(** The append-only collections only grow at the end. *)
Definition log_grows (w w' : World) : Prop :=
  decisions (data w) `prefix_of` decisions (data w') /\
  transactions (data w) `prefix_of` transactions (data w') /\
  business_states (data w) `prefix_of` business_states (data w') /\
  conversation_turns (data w) `prefix_of` conversation_turns (data w') /\
  technical_discoveries (data w) `prefix_of` technical_discoveries (data w') /\
  progress_milestones (data w) `prefix_of` progress_milestones (data w') /\
  market_opportunities (data w) `prefix_of` market_opportunities (data w').

(** ** Every tool of the request handler *)

Module AutoCaptureContextArgs.
Record t := mk {
  trigger_type : TriggerType;
  context_data : ContextData.t }.
End AutoCaptureContextArgs.

(** A [tools/call] request for one of the nineteen tools: the ten
    mutating operations, the seven queries, [log_technical_discovery] and
    [auto_capture_context]. *)
Inductive ToolCall :=
| mutation (c : MutatingCall)
| question (q : QueryCall)
| log_technical_discovery (args : LogTechnicalDiscoveryArgs.t)
| auto_capture_context (args : AutoCaptureContextArgs.t).

(** The [switch (name)] of the handler, the reply dropped. *)
Definition handle (t : ToolCall) : M unit :=
  match t with
  | mutation c => call c
  | question q => query q
  | log_technical_discovery args => _ <- logTechnicalDiscovery args ;; ret tt
  | auto_capture_context args =>
      autoCaptureContext (AutoCaptureContextArgs.trigger_type args)
        (AutoCaptureContextArgs.context_data args)
  end.

(** A session: one request after the other. *)
Definition handle_all (requests : list ToolCall) (w : World) : World :=
  fold_left (fun w t => exec (handle t) w) requests w.

(** The ids of the stored services, in stored order. *)
Definition service_ids (w : World) : list string :=
  map Service.id (services (data w)).

(** Every stored service carries an id that the uuid generator has
    handed out, and no two services share one. *)
Definition ids_unique (w : World) : Prop :=
  NoDup (service_ids w) /\
  Forall (fun id => exists k, (k < drawn w)%nat /\ id = uuid_source w k) (service_ids w).

(** The generator never repeats itself. *)
Definition never_repeats (source : nat -> string) : Prop :=
  forall i j, source i = source j -> i = j.

(** The same services are stored (possibly in another order) and the
    generator has only moved forward. *)
Definition ids_kept (w w' : World) : Prop :=
  uuid_source w' = uuid_source w /\
  (drawn w <= drawn w')%nat /\
  Permutation (service_ids w') (service_ids w).

(** The statuses that the tools can produce: a service is never
    [paused], an opportunity is always [discovered], a blocker is
    [identified] or [resolved]. *)
Definition produced_statuses (d : RevBotData) : Prop :=
  Forall (fun s => Service.status s <> paused) (services d) /\
  Forall (fun o => MarketOpportunity.status o = discovered) (market_opportunities d) /\
  Forall (fun b => Blocker.status b = identified \/ Blocker.status b = resolved)
    (blockers d).

Definition keeps_produced_statuses (w w' : World) : Prop :=
  produced_statuses (data w) -> produced_statuses (data w').

(** A turn whose entities, category and score come from the caller; the
    text itself holds no keyword. *)
Definition annotated_turn : LogConversationTurnArgs.t :=
  LogConversationTurnArgs.mk "hello" "hi there"
    (Some planning)
    (Some (Entities.mk (Some []) (Some []) (Some ["ship it"; "hire nobody"]) (Some [])))
    (Some 0%Q).

(** The auxiliary [TechnicalDiscovery] that [autoCaptureContext] logs for
    a technology under the trigger [technical_discovery]. *)
Definition conversation_discovery (tech : string) (found : TechnicalDiscovery.t) : Prop :=
  TechnicalDiscovery.discovery_type found = dependency_ready /\
  TechnicalDiscovery.title found = tech +:+ " technology discussed" /\
  TechnicalDiscovery.description found
    = "Technical discussion about " +:+ tech +:+ " in conversation" /\
  TechnicalDiscovery.impact_level found = sev_medium /\
  TechnicalDiscovery.actionable_insights found
    = ["Review " +:+ tech +:+ " implementation"; "Consider " +:+ tech +:+ " integration"].

(** The list of [context_data] that a trigger looks at. *)
Definition triggered_terms (trigger_type : TriggerType) (context_data : ContextData.t)
  : option (list string) :=
  match trigger_type with
  | trig_decision_made => ContextData.decisions_made context_data
  | trig_blocker_found => ContextData.blockers_identified context_data
  | trig_technical_discovery => ContextData.technologies_discussed context_data
  | trig_milestone_reached => None
  end.

(** A store with one service whose auto-scaling was switched off at
    registration. *)
Definition manual_world : World :=
  exec (registerService (RegisterServiceArgs.mk "qr" "web" None (Some false))) boot_world.

(** ** Vocabulary for the revenue analytics *)

(** The world after divisions by [qs], in that order. *)
Definition with_divisors (qs : list Q) (w : World) : World :=
  mkWorld (data w) (lastAutoSave w) (file w) (fs_writable w) (fs_writes w)
    (divisors w ++ qs) (clock w) (reads w) (tz_offset w) (uuid_source w) (drawn w).

(** The transactions a revenue query looks at. *)
Definition revenue_window (args : RevenueAnalyticsArgs.t) (w : World) : list Transaction.t :=
  analytics_window
    (inject_Z (clock w (reads w))
     - orQ (RevenueAnalyticsArgs.timeframe_days args) 30 * 24 * 60 * 60 * 1000)%Q
    (RevenueAnalyticsArgs.service_id args)
    (transactions (data w)).

(** The row of a service groups exactly the transactions of that service
    out of [txs]: it holds them in their order, counts them, and its
    total is their amounts added up from 0 in that order. *)
Definition groups (txs : list Transaction.t) (row : ServiceStats.t) : Prop :=
  ServiceStats.transactions row
    = filter (fun t => Transaction.service_id t = ServiceStats.service_id row) txs /\
  ServiceStats.transaction_count row = length (ServiceStats.transactions row) /\
  ServiceStats.total_revenue row
    = sum_by Transaction.amount (ServiceStats.transactions row) /\
  ServiceStats.transactions row <> [].

(** The rows of a report. *)
Definition report_rows (r : RevenueReport.t) : list ServiceStats.t :=
  map (fun x => EnrichedStats.stats (fst x)) (RevenueReport.by_service r).

(** What the [Map] of [getRevenueAnalytics] holds once the transactions
    [txs] went through the [forEach]: one row per service that occurs,
    each grouping the transactions of its service, and no transaction is
    lost or counted twice. *)
Definition grouped (txs : list Transaction.t) (m : list ServiceStats.t) : Prop :=
  NoDup (map ServiceStats.service_id m) /\
  Forall (groups txs) m /\
  (forall t, t ∈ txs -> Transaction.service_id t ∈ map ServiceStats.service_id m) /\
  sum_list_with ServiceStats.transaction_count m = length txs.

(** A store with a charge of 5 and its refund, both for the same
    (unregistered) service. *)
Definition refund_world : World :=
  exec (recordTransaction (RecordTransactionArgs.mk "svc" (-5 # 1) None None None None))
    (exec (recordTransaction (RecordTransactionArgs.mk "svc" (5 # 1) None None None None))
       boot_world).

(** The lifecycle of the services is left alone: same statuses, same
    costs, same scaling rules, and no decision is logged. *)
Definition lifecycle_untouched (w w' : World) : Prop :=
  decisions (data w') = decisions (data w) /\
  map Service.status (services (data w')) = map Service.status (services (data w)) /\
  map Service.daily_costs (services (data w'))
    = map Service.daily_costs (services (data w)) /\
  map Service.scaling_config (services (data w'))
    = map Service.scaling_config (services (data w)).

(** The scenario service after a performance update that reports a
    revenue of 80 at costs of 10 with auto-scaling switched off. *)
Definition reported_world : World :=
  exec (updateServicePerformance winning_update) manual_world.

(** ** Payment analytics of the Stripe server *)

Module PaymentIntent.
Record t := mk {
  id : string;
  service_id : string;
  amount : Q;
  currency : string;
  customer_id : option string;
  status : string;
  stripe_payment_intent_id : string;
  metadata : any;
  created_at : Z }.
End PaymentIntent.

(** A [Map] with string keys: its entries in insertion order. *)
Fixpoint Map_get {V} (key : string) (m : list (string * V)) : option V :=
  match m with
  | [] => None
  | (k, v) :: m' => if String.eqb k key then Some v else Map_get key m'
  end.
Fixpoint Map_set {V} (key : string) (value : V) (m : list (string * V))
  : list (string * V) :=
  match m with
  | [] => [(key, value)]
  | (k, v) :: m' =>
      if String.eqb k key then (k, value) :: m' else (k, v) :: Map_set key value m'
  end.

(** [p.customer_id!] where the filter has let the payment through. *)
Definition customer_of (p : PaymentIntent.t) : string :=
  orS (PaymentIntent.customer_id p) "".

(** [p.status === 'succeeded' && p.customer_id] *)
Definition paid_by_customer (p : PaymentIntent.t) : bool :=
  String.eqb (PaymentIntent.status p) "succeeded"
  && negb (String.eqb (customer_of p) "").

(** The counting [Map] of [calculateRepeatCustomerRate]. *)
Definition customerPaymentCounts (paymentIntents : list PaymentIntent.t)
  : list (string * nat) :=
  fold_left
    (fun m p =>
       let count := match Map_get (customer_of p) m with
                    | Some c => c
                    | None => 0%nat
                    end in
       Map_set (customer_of p) (count + 1)%nat m)
    (List.filter paid_by_customer paymentIntents) [].

Definition calculateRepeatCustomerRate (paymentIntents : list PaymentIntent.t) : Q :=
  let counts := customerPaymentCounts paymentIntents in
  let totalCustomers := length counts in
  let repeatCustomers :=
    length (List.filter (fun count => (1 <? count)%nat) (map snd counts)) in
  if (0 <? totalCustomers)%nat
  then (Qnat repeatCustomers / Qnat totalCustomers * 100)%Q
  else 0%Q.

(** The totalling [Map] of [calculateAverageCustomerValue]. *)
Definition customerTotals (paymentIntents : list PaymentIntent.t) : list (string * Q) :=
  fold_left
    (fun m p =>
       let total := orQ (Map_get (customer_of p) m) 0 in
       Map_set (customer_of p) (total + PaymentIntent.amount p)%Q m)
    (List.filter paid_by_customer paymentIntents) [].

Definition calculateAverageCustomerValue (paymentIntents : list PaymentIntent.t) : Q :=
  let values := map snd (customerTotals paymentIntents) in
  let totalValue := sum_by (fun value => value) values in
  if (0 <? length values)%nat
  then (totalValue / Qnat (length values) / 100)%Q
  else 0%Q.

(** Three succeeded payments, two of them by the same customer, one
    failed payment and one succeeded payment without a customer. *)
Definition sample_payments : list PaymentIntent.t :=
  [ PaymentIntent.mk "p1" "svc" 500 "usd" (Some "c1") "succeeded" "pi_1" (JObj []) 10;
    PaymentIntent.mk "p2" "svc" 300 "usd" (Some "c2") "succeeded" "pi_2" (JObj []) 20;
    PaymentIntent.mk "p3" "svc" 700 "usd" (Some "c1") "succeeded" "pi_3" (JObj []) 30;
    PaymentIntent.mk "p4" "svc" 900 "usd" (Some "c3") "failed" "pi_4" (JObj []) 40;
    PaymentIntent.mk "p5" "svc" 100 "usd" None "succeeded" "pi_5" (JObj []) 50 ].

(** * Properties *)

(** ** Stepping through [saveData] *)

Lemma saveData_eq w : saveData w = (Ok tt, saved w).
Proof.
  unfold saved, exec, saveData, catch, bind, writeFileSync; cbn.
  destruct (fs_writable w); reflexivity.
Qed.

Lemma bind_saveData {B} (k : unit -> M B) w : bind saveData k w = k tt (saved w).
Proof. unfold bind. rewrite saveData_eq. reflexivity. Qed.

Lemma saved_data w :
  data (saved w) = set_last_activity (clock w (reads w)) (data w).
Proof.
  unfold saved, exec, saveData, catch, bind, writeFileSync; cbn.
  destruct (fs_writable w); reflexivity.
Qed.

Lemma saved_fs_writable w : fs_writable (saved w) = fs_writable w.
Proof.
  unfold saved, exec, saveData, catch, bind, writeFileSync; cbn.
  destruct (fs_writable w) eqn:E; cbn; rewrite ?E; reflexivity.
Qed.

Lemma saved_clock w : clock (saved w) = clock w.
Proof.
  unfold saved, exec, saveData, catch, bind, writeFileSync; cbn.
  destruct (fs_writable w); reflexivity.
Qed.

Lemma saved_tz_offset w : tz_offset (saved w) = tz_offset w.
Proof.
  unfold saved, exec, saveData, catch, bind, writeFileSync; cbn.
  destruct (fs_writable w); reflexivity.
Qed.

Lemma saved_uuid_source w : uuid_source (saved w) = uuid_source w.
Proof.
  unfold saved, exec, saveData, catch, bind, writeFileSync; cbn.
  destruct (fs_writable w); reflexivity.
Qed.

Lemma saved_drawn w : drawn (saved w) = drawn w.
Proof.
  unfold saved, exec, saveData, catch, bind, writeFileSync; cbn.
  destruct (fs_writable w); reflexivity.
Qed.

Lemma saved_divisors w : divisors (saved w) = divisors w.
Proof.
  unfold saved, exec, saveData, catch, bind, writeFileSync; cbn.
  destruct (fs_writable w); reflexivity.
Qed.

Lemma saved_reads w :
  reads (saved w) = (reads w + if fs_writable w then 2 else 1)%nat.
Proof.
  unfold saved, exec, saveData, catch, bind, writeFileSync; cbn.
  destruct (fs_writable w); cbn; lia.
Qed.

Lemma saved_fs_writes w :
  fs_writes (saved w) = if fs_writable w then S (fs_writes w) else fs_writes w.
Proof.
  unfold saved, exec, saveData, catch, bind, writeFileSync; cbn.
  destruct (fs_writable w); reflexivity.
Qed.

Lemma saved_synced w : fs_writable w = true -> synced (saved w).
Proof.
  unfold synced, saved, exec, saveData, catch, bind, writeFileSync; cbn.
  intros ->. reflexivity.
Qed.

Lemma saved_file_unwritable w : fs_writable w = false -> file (saved w) = file w.
Proof.
  unfold saved, exec, saveData, catch, bind, writeFileSync; cbn.
  intros ->. reflexivity.
Qed.

#[local] Arguments saveData : simpl never.
#[local] Arguments saved : simpl never.

Create Rewrite HintDb world.
#[local] Hint Rewrite saved_data saved_fs_writable saved_clock saved_tz_offset
  saved_uuid_source saved_drawn saved_divisors saved_reads saved_fs_writes : world.

(** Projections of a world on which [saveData] ran, pushed inwards. *)
Ltac through_saves := repeat (autorewrite with world; cbn).

Ltac save_step := first [rewrite bind_saveData | rewrite saveData_eq]; cbn.

Lemma bind_assoc {A B C} (m : M A) (f : A -> M B) (g : B -> M C) w :
  bind (bind m f) g w = bind m (fun x => bind (f x) g) w.
Proof. unfold bind. destruct (m w) as [[a|e] w']; reflexivity. Qed.

Lemma bind_logDecisionInternal {B} (input : DecisionInput.t) (k : Decision.t -> M B) w :
  bind (logDecisionInternal input) k w =
  let d := decisionRecord_of (uuid_source w (drawn w)) (clock w (reads w)) input in
  k d (saved (with_data (push_decision d (data w)) (with_read (with_drawn w)))).
Proof.
  unfold logDecisionInternal. unfold bind at 1. cbn. rewrite bind_saveData. reflexivity.
Qed.

#[local] Arguments logDecisionInternal : simpl never.

Ltac run :=
  repeat first
    [ rewrite bind_assoc
    | rewrite bind_saveData
    | rewrite bind_logDecisionInternal
    | rewrite saveData_eq
    | progress cbn ].

(** ** Recording transactions *)

Lemma alter_as_insert {A} (f : A -> A) (l : list A) (i : nat) (x : A) :
  l !! i = Some x -> alter f i l = <[i := f x]> l.
Proof.
  revert i. induction l as [|y l IH]; intros [|i] H; cbn in *; try discriminate.
  - injection H as ->. reflexivity.
  - f_equal. apply IH, H.
Qed.

Lemma alter_insert_eq {A} (f : A -> A) (l : list A) (i : nat) (y : A) :
  alter f i (<[i := y]> l) = <[i := f y]> l.
Proof.
  revert i. induction l as [|x l IH]; intros [|i]; cbn; try reflexivity.
  f_equal. apply IH.
Qed.

(** The block that recomputes the revenue counter, run on any world. *)
Lemma updateServiceRevenue_run (w : World) (args : RecordTransactionArgs.t) :
  exists w',
    updateServiceRevenue args w = (Ok tt, w') /\
    transactions (data w') = transactions (data w) /\
    clock w' = clock w /\ tz_offset w' = tz_offset w /\
    (reads w <= reads w')%nat /\
    match list_find (fun s => Service.id s = RecordTransactionArgs.service_id args)
            (services (data w)) with
    | Some (i, s) =>
        services (data w')
        = <[i := Service.set_updated_at (clock w (S (reads w)))
                   (Service.set_daily_revenue
                      (sum_by Transaction.amount
                         (filter (fun t => Transaction.service_id t
                                           = RecordTransactionArgs.service_id args
                                           /\ startOfDay (tz_offset w) (clock w (reads w))
                                              <= Transaction.timestamp t)
                            (transactions (data w)))) s)]>
            (services (data w))
    | None => w' = w
    end.
Proof.
  unfold updateServiceRevenue. cbn.
  destruct (list_find _ (services (data w))) as [[i s]|] eqn:Hfind; run.
  - pose proof Hfind as (Hlk & _ & _)%list_find_Some.
    eexists. split; [reflexivity|]. through_saves.
    rewrite (alter_as_insert _ _ _ _ Hlk), alter_insert_eq.
    repeat (split; [first [reflexivity | destruct (fs_writable w); lia]|]).
    reflexivity.
  - eexists. repeat (split; [first [reflexivity | lia]|]). reflexivity.
Qed.

(** What one [recordTransaction] does to the store. *)
Lemma recordTransaction_run (w : World) (args : RecordTransactionArgs.t) :
  let tx := transaction_of (uuid_source w (drawn w)) (clock w (reads w)) args in
  let k := (reads w + if fs_writable w then 3 else 2)%nat in
  let w' := exec (recordTransaction args) w in
  outcome (recordTransaction args) w = Ok (Transaction.id tx) /\
  transactions (data w') = transactions (data w) ++ [tx] /\
  clock w' = clock w /\ tz_offset w' = tz_offset w /\
  (reads w < reads w')%nat /\ (reads w < k)%nat /\
  match list_find (fun s => Service.id s = RecordTransactionArgs.service_id args)
          (services (data w)) with
  | Some (i, s) =>
      services (data w')
      = <[i := Service.set_updated_at (clock w (S k))
                 (Service.set_daily_revenue
                    (sum_by Transaction.amount
                       (filter (fun t => Transaction.service_id t
                                         = RecordTransactionArgs.service_id args
                                         /\ startOfDay (tz_offset w) (clock w k)
                                            <= Transaction.timestamp t)
                          (transactions (data w) ++ [tx]))) s)]>
          (services (data w))
  | None =>
      data w' = set_last_activity (clock w (S (reads w)))
                  (push_transaction tx (data w))
  end.
Proof.
  intros tx k w'. subst w'.
  unfold outcome, exec, recordTransaction. run. fold tx.
  set (w1 := saved _).
  assert (Hd1 : data w1 = set_last_activity (clock w (S (reads w)))
                            (push_transaction tx (data w)))
    by (subst w1; through_saves; reflexivity).
  assert (Hc1 : clock w1 = clock w) by (subst w1; through_saves; reflexivity).
  assert (Htz1 : tz_offset w1 = tz_offset w) by (subst w1; through_saves; reflexivity).
  assert (Hr1 : reads w1 = k)
    by (subst w1 k; through_saves; destruct (fs_writable w); lia).
  clearbody w1.
  destruct (updateServiceRevenue_run w1 args) as (w2 & Hrun & Htx & Hc & Htz & Hr & Hsv).
  unfold bind. rewrite Hrun. cbn.
  rewrite Htx, Hc, Htz, Hd1, Hc1, Htz1. cbn.
  repeat (split; [first [reflexivity | subst k; destruct (fs_writable w); lia]|]).
  rewrite Hd1, Hc1, Htz1, Hr1 in Hsv. cbn in Hsv.
  destruct (list_find _ (services (data w))) as [[i s]|].
  - exact Hsv.
  - subst w2. exact Hd1.
Qed.



(** ** Transactions for an unknown service *)

Lemma no_service_find (l : list Service.t) (sid : string) :
  (forall s, s ∈ l -> Service.id s <> sid) ->
  list_find (fun s => Service.id s = sid) l = None.
Proof.
  intros H. apply list_find_None, Forall_forall. exact H.
Qed.

(** C9. A [record_transaction] whose [service_id] matches no registered
    service still appends the transaction and returns normally (it does
    not throw); apart from the appended transaction and the activity
    stamp the store is unchanged, in particular no service counter
    changes. *)
Theorem recordTransaction_unknown_service
    (w : World) (args : RecordTransactionArgs.t) :
  (forall s, s ∈ services (data w) ->
             Service.id s <> RecordTransactionArgs.service_id args) ->
  exists tx t,
    outcome (recordTransaction args) w = Ok (Transaction.id tx) /\
    Transaction.service_id tx = RecordTransactionArgs.service_id args /\
    Transaction.amount tx = RecordTransactionArgs.amount args /\
    data (exec (recordTransaction args) w)
      = set_last_activity t (push_transaction tx (data w)) /\
    transactions (data (exec (recordTransaction args) w))
      = transactions (data w) ++ [tx] /\
    services (data (exec (recordTransaction args) w)) = services (data w).
Proof.
  intros Hnone. apply no_service_find in Hnone.
  destruct (recordTransaction_run w args) as (Hok & Htx & _ & _ & _ & _ & Hsv).
  rewrite Hnone in Hsv.
  eexists _, _. split; [exact Hok|]. split; [reflexivity|]. split; [reflexivity|].
  split; [exact Hsv|]. split; [exact Htx|]. rewrite Hsv. reflexivity.
Qed.

Lemma recordTransaction_unknown_service_witness :
  let args := RecordTransactionArgs.mk "ghost" (5 # 1) None None None None in
  (forall s, s ∈ services (data boot_world) ->
             Service.id s <> RecordTransactionArgs.service_id args) /\
  exists tx t,
    outcome (recordTransaction args) boot_world = Ok (Transaction.id tx) /\
    Transaction.service_id tx = RecordTransactionArgs.service_id args /\
    Transaction.amount tx = RecordTransactionArgs.amount args /\
    data (exec (recordTransaction args) boot_world)
      = set_last_activity t (push_transaction tx (data boot_world)) /\
    transactions (data (exec (recordTransaction args) boot_world))
      = transactions (data boot_world) ++ [tx] /\
    services (data (exec (recordTransaction args) boot_world))
      = services (data boot_world).
Proof.
  intros args.
  assert (H : forall s, s ∈ services (data boot_world) ->
                        Service.id s <> RecordTransactionArgs.service_id args).
  { intros s Hs. cbn in Hs. inversion Hs. }
  split; [exact H | exact (recordTransaction_unknown_service boot_world args H)].
Defined.

(** ** Resolving blockers *)

Lemma resolveBlocker_found (w : World) (args : ResolveBlockerArgs.t)
    (i : nat) (b : Blocker.t) :
  list_find (fun b => Blocker.id b = ResolveBlockerArgs.blocker_id args)
    (blockers (data w)) = Some (i, b) ->
  outcome (resolveBlocker args) w = Ok tt /\
  blockers (data (exec (resolveBlocker args) w))
    = <[i := Blocker.resolve (ResolveBlockerArgs.resolution_summary args) b]>
        (blockers (data w)).
Proof.
  intros Hfind.
  unfold outcome, exec, resolveBlocker. cbn. rewrite Hfind. cbn.
  save_step. rewrite saved_data. cbn.
  apply list_find_Some in Hfind as (Hlk & _ & _).
  split; [reflexivity|]. apply alter_as_insert, Hlk.
Qed.

Lemma resolveBlocker_missing (w : World) (args : ResolveBlockerArgs.t) :
  list_find (fun b => Blocker.id b = ResolveBlockerArgs.blocker_id args)
    (blockers (data w)) = None ->
  (exists msg, outcome (resolveBlocker args) w = Throw msg) /\
  exec (resolveBlocker args) w = w.
Proof.
  intros Hfind.
  unfold outcome, exec, resolveBlocker. cbn. rewrite Hfind. cbn.
  split; [eexists; reflexivity | reflexivity].
Qed.

(** C10. For an existing blocker id, [resolve_blocker] sets the status of
    the blocker (the first one with that id) to [resolved] and stores the
    summary whatever the current status is, [escalated] and [resolved]
    included; an unknown id makes the call throw and leaves the world as
    it was. *)
Theorem resolveBlocker_unconditional (w : World) (args : ResolveBlockerArgs.t) :
  (forall i b,
      list_find (fun b => Blocker.id b = ResolveBlockerArgs.blocker_id args)
        (blockers (data w)) = Some (i, b) ->
      outcome (resolveBlocker args) w = Ok tt /\
      blockers (data (exec (resolveBlocker args) w))
        = <[i := Blocker.resolve (ResolveBlockerArgs.resolution_summary args) b]>
            (blockers (data w)) /\
      exists b',
        blockers (data (exec (resolveBlocker args) w)) !! i = Some b' /\
        Blocker.id b' = ResolveBlockerArgs.blocker_id args /\
        Blocker.status b' = resolved /\
        Blocker.resolution_summary b'
          = Some (ResolveBlockerArgs.resolution_summary args)) /\
  (list_find (fun b => Blocker.id b = ResolveBlockerArgs.blocker_id args)
     (blockers (data w)) = None ->
   (exists msg, outcome (resolveBlocker args) w = Throw msg) /\
   exec (resolveBlocker args) w = w).
Proof.
  split; [|apply resolveBlocker_missing].
  intros i b Hfind.
  destruct (resolveBlocker_found w args i b Hfind) as [Hok Hbs].
  apply list_find_Some in Hfind as (Hlk & Hid & _).
  split; [exact Hok|]. split; [exact Hbs|].
  exists (Blocker.resolve (ResolveBlockerArgs.resolution_summary args) b).
  rewrite Hbs. split; [|cbn; auto].
  apply list_lookup_insert_eq. eapply lookup_lt_Some, Hlk.
Qed.

Lemma resolveBlocker_unconditional_witness :
  let args := ResolveBlockerArgs.mk "b-1" "provider fixed the webhook" in
  let again := ResolveBlockerArgs.mk "b-1" "confirmed stable" in
  let w1 := exec (resolveBlocker args) escalated_world in
  let w2 := exec (resolveBlocker again) w1 in
  map Blocker.status (blockers (data escalated_world)) = [escalated] /\
  outcome (resolveBlocker args) escalated_world = Ok tt /\
  map Blocker.status (blockers (data w1)) = [resolved] /\
  map Blocker.resolution_summary (blockers (data w1))
    = [Some "provider fixed the webhook"] /\
  map Blocker.resolution_summary (blockers (data w2)) = [Some "confirmed stable"] /\
  exec (resolveBlocker (ResolveBlockerArgs.mk "b-2" "nothing to do")) escalated_world
    = escalated_world.
Proof.
  intros args again w1 w2.
  destruct (resolveBlocker_unconditional escalated_world args) as [Hfound _].
  destruct (Hfound 0%nat _ eq_refl) as (Hok & Hbs & _).
  destruct (resolveBlocker_unconditional escalated_world
              (ResolveBlockerArgs.mk "b-2" "nothing to do")) as [_ Hmissing].
  destruct (Hmissing eq_refl) as [_ Hsame].
  split; [reflexivity|]. split; [exact Hok|].
  split; [subst w1; rewrite Hbs; reflexivity|].
  split; [subst w1; rewrite Hbs; reflexivity|].
  split; [vm_compute; reflexivity|exact Hsame].
Defined.

(** ** Loading the persisted image *)

Lemma loadData_eq (w : World) :
  loadData w =
  let fresh :=
    with_data
      (empty_data (uuid_source w (drawn w)) (clock w (reads w)) (clock w (S (reads w))))
      (with_read (with_read (with_drawn w))) in
  match file w with
  | Missing => (Ok tt, saved fresh)
  | Unreadable | Present (Malformed _) => (Ok tt, fresh)
  | Present (Json d) => (Ok tt, with_data d w)
  end.
Proof.
  unfold loadData, catch, bind, existsSync, readFileSync, gets.
  destruct (file w) as [| |[raw|d]] eqn:E; cbn; rewrite ?E; cbn;
    rewrite ?saveData_eq; reflexivity.
Qed.



(** ** Revenue analytics over an empty window *)

#[local] Arguments analytics_window : simpl never.

Lemma orQ_nonzero (x : option Q) (d : Q) : ~ (d == 0)%Q -> ~ (orQ x d == 0)%Q.
Proof.
  intros Hd. unfold orQ, truthyQ. destruct x as [v|]; [|exact Hd].
  destruct (Qeq_bool v 0) eqn:E; cbn; [exact Hd|].
  apply Qeq_bool_neq, E.
Qed.

(** C8. A revenue query whose window holds no transaction (none is recent
    enough, or none belongs to the requested service) returns normally
    with total revenue 0, transaction count 0, average transaction 0 and
    no per-service row; the only division performed is the one by the
    window length, which is not zero, and the store is not touched. *)
Theorem getRevenueAnalytics_empty_window
    (w : World) (args : RevenueAnalyticsArgs.t) :
  let timeframeDays := orQ (RevenueAnalyticsArgs.timeframe_days args) 30 in
  let cutoffTime :=
    (inject_Z (clock w (reads w)) - timeframeDays * 24 * 60 * 60 * 1000)%Q in
  analytics_window cutoffTime (RevenueAnalyticsArgs.service_id args)
    (transactions (data w)) = [] ->
  exists r,
    outcome (getRevenueAnalytics args) w = Ok r /\
    RevenueReport.total_revenue r = 0%Q /\
    RevenueReport.total_transactions r = 0%nat /\
    RevenueReport.average_transaction r = 0%Q /\
    RevenueReport.by_service r = [] /\
    divisors (exec (getRevenueAnalytics args) w) = divisors w ++ [timeframeDays] /\
    Forall (fun q => ~ (q == 0)%Q)
      (drop (length (divisors w)) (divisors (exec (getRevenueAnalytics args) w))) /\
    data (exec (getRevenueAnalytics args) w) = data w.
Proof.
  intros timeframeDays cutoffTime Hempty.
  unfold outcome, exec, getRevenueAnalytics. cbn.
  fold timeframeDays. fold cutoffTime. rewrite Hempty. cbn.
  eexists. split; [reflexivity|]. cbn.
  repeat (split; [reflexivity|]).
  split; [|reflexivity].
  rewrite drop_app_length. constructor; [|constructor].
  apply orQ_nonzero. discriminate.
Qed.

Lemma getRevenueAnalytics_empty_window_witness :
  let args := RevenueAnalyticsArgs.mk (Some (7 # 1)) None in
  analytics_window (inject_Z 1000 - (7 # 1) * 24 * 60 * 60 * 1000)%Q None
    (transactions (data boot_world)) = [] /\
  exists r,
    outcome (getRevenueAnalytics args) boot_world = Ok r /\
    RevenueReport.total_revenue r = 0%Q /\
    RevenueReport.total_transactions r = 0%nat /\
    RevenueReport.average_transaction r = 0%Q /\
    RevenueReport.by_service r = [] /\
    divisors (exec (getRevenueAnalytics args) boot_world) = [(7 # 1)%Q] /\
    Forall (fun q => ~ (q == 0)%Q)
      (drop 0 (divisors (exec (getRevenueAnalytics args) boot_world))) /\
    data (exec (getRevenueAnalytics args) boot_world) = data boot_world.
Proof.
  intros args. split; [reflexivity|].
  apply (getRevenueAnalytics_empty_window boot_world args). reflexivity.
Defined.

(** ** The lifecycle decision engine *)

Lemma Qltb_true (x y : Q) : (x < y)%Q -> Qltb x y = true.
Proof.
  intros H. unfold Qltb. destruct (Qle_bool y x) eqn:E; [|reflexivity].
  apply Qle_bool_iff in E. exfalso. apply (Qlt_not_le _ _ H E).
Qed.

Lemma Qltb_false (x y : Q) : ~ (x < y)%Q -> Qltb x y = false.
Proof.
  intros H. unfold Qltb. destruct (Qle_bool y x) eqn:E; [reflexivity|].
  exfalso. apply H. apply Qnot_le_lt. intros Hle.
  apply Qle_bool_iff in Hle. congruence.
Qed.

Lemma orQ_eq (x : Q) : (orQ (Some x) 0 == x)%Q.
Proof.
  unfold orQ, truthyQ. destruct (Qeq_bool x 0) eqn:E; cbn; [|reflexivity].
  apply Qeq_bool_iff in E. symmetry. exact E.
Qed.

Lemma bind_service_at {B} (i : nat) (s : Service.t) (k : Service.t -> M B) w :
  services (data w) !! i = Some s -> bind (service_at i) k w = k s w.
Proof.
  intros H. unfold service_at, bind, gets. rewrite H. reflexivity.
Qed.

(** The run of [updateServicePerformance] up to the auto-scaling rules. *)
Lemma update_kill_run (w : World) (args : UpdateServicePerformanceArgs.t)
    (i : nat) (s0 : Service.t) :
  list_find (fun s => Service.id s = UpdateServicePerformanceArgs.service_id args)
    (services (data w)) = Some (i, s0) ->
  ScalingConfig.auto_scale (Service.scaling_config s0) = true ->
  (updated_profit args s0 < ScalingConfig.kill_threshold (Service.scaling_config s0))%Q ->
  exists d,
    outcome (updateServicePerformance args) w = Ok tt /\
    services (data (exec (updateServicePerformance args) w))
      = <[i := Service.set_status killed
                 (performance_update args (clock w (reads w)) s0)]>
          (services (data w)) /\
    decisions (data (exec (updateServicePerformance args) w))
      = decisions (data w) ++ [d] /\
    auto_kill_decision (updated_profit args s0) d.
Proof.
  intros Hfind Hauto Hlt. apply Qltb_true in Hlt.
  pose proof Hfind as (Hlk & _ & _)%list_find_Some.
  unfold outcome, exec, updateServicePerformance. cbn. rewrite Hfind. cbn.
  unfold updated_profit, updated_revenue, updated_costs, performance_update in *.
  destruct args as [sid [rev|] [costs|] [count|] [metrics|]]; cbn in *;
    (erewrite bind_service_at
       by (cbn; rewrite ?list_lookup_alter_eq, Hlk; reflexivity));
    cbn; rewrite Hauto, Hlt; run; rewrite ?saved_data; cbn;
    (eexists; split; [reflexivity|]; split;
     [rewrite (alter_as_insert _ _ _ _ Hlk), ?alter_insert_eq; reflexivity|];
     split; [reflexivity|];
     unfold auto_kill_decision; cbn; repeat split; apply orQ_eq).
Qed.

Lemma update_scale_run (w : World) (args : UpdateServicePerformanceArgs.t)
    (i : nat) (s0 : Service.t) :
  list_find (fun s => Service.id s = UpdateServicePerformanceArgs.service_id args)
    (services (data w)) = Some (i, s0) ->
  ScalingConfig.auto_scale (Service.scaling_config s0) = true ->
  ~ (updated_profit args s0 < ScalingConfig.kill_threshold (Service.scaling_config s0))%Q ->
  (50 < updated_profit args s0)%Q ->
  Service.status s0 = active ->
  exists d,
    outcome (updateServicePerformance args) w = Ok tt /\
    services (data (exec (updateServicePerformance args) w))
      = <[i := Service.set_status scaling
                 (performance_update args (clock w (reads w)) s0)]>
          (services (data w)) /\
    decisions (data (exec (updateServicePerformance args) w))
      = decisions (data w) ++ [d] /\
    auto_scale_decision (updated_profit args s0) d.
Proof.
  intros Hfind Hauto Hge Hgt Hactive.
  apply Qltb_false in Hge. apply Qltb_true in Hgt.
  pose proof Hfind as (Hlk & _ & _)%list_find_Some.
  unfold outcome, exec, updateServicePerformance. cbn. rewrite Hfind. cbn.
  unfold updated_profit, updated_revenue, updated_costs, performance_update in *.
  destruct args as [sid [rev|] [costs|] [count|] [metrics|]]; cbn in *;
    (erewrite bind_service_at
       by (cbn; rewrite ?list_lookup_alter_eq, Hlk; reflexivity));
    cbn; rewrite Hauto, Hge, Hgt, (bool_decide_eq_true_2 _ Hactive);
    run; rewrite ?saved_data; cbn;
    (eexists; split; [reflexivity|]; split;
     [rewrite (alter_as_insert _ _ _ _ Hlk), ?alter_insert_eq; reflexivity|];
     split; [reflexivity|];
     unfold auto_scale_decision; cbn; repeat split; apply orQ_eq).
Qed.

(** No rule fires: auto-scaling is off, or the profit is not below the
    kill threshold and rule 2 does not match. *)
Lemma update_idle_run (w : World) (args : UpdateServicePerformanceArgs.t)
    (i : nat) (s0 : Service.t) :
  list_find (fun s => Service.id s = UpdateServicePerformanceArgs.service_id args)
    (services (data w)) = Some (i, s0) ->
  ScalingConfig.auto_scale (Service.scaling_config s0) = false \/
  (~ (updated_profit args s0 < ScalingConfig.kill_threshold (Service.scaling_config s0))%Q /\
   (~ (50 < updated_profit args s0)%Q \/ Service.status s0 <> active)) ->
  outcome (updateServicePerformance args) w = Ok tt /\
  services (data (exec (updateServicePerformance args) w))
    = <[i := performance_update args (clock w (reads w)) s0]> (services (data w)) /\
  decisions (data (exec (updateServicePerformance args) w)) = decisions (data w).
Proof.
  intros Hfind Hcase.
  assert (Hrule :
    ScalingConfig.auto_scale (Service.scaling_config s0) = false \/
    (ScalingConfig.auto_scale (Service.scaling_config s0) = true /\
     Qltb (updated_profit args s0)
       (ScalingConfig.kill_threshold (Service.scaling_config s0)) = false /\
     Qltb 50 (updated_profit args s0) && bool_decide (Service.status s0 = active)
       = false)).
  { destruct Hcase as [-> | [Hge Hno]]; [left; reflexivity|].
    destruct (ScalingConfig.auto_scale _); [right|left; reflexivity].
    split; [reflexivity|]. split; [apply Qltb_false, Hge|].
    destruct Hno as [Hle | Hst].
    - apply Qltb_false in Hle. rewrite Hle. reflexivity.
    - rewrite (bool_decide_eq_false_2 _ Hst). apply andb_false_r. }
  clear Hcase.
  pose proof Hfind as (Hlk & _ & _)%list_find_Some.
  unfold outcome, exec, updateServicePerformance. cbn. rewrite Hfind. cbn.
  unfold updated_profit, updated_revenue, updated_costs, performance_update in *.
  destruct Hrule as [Hauto | (Hauto & Hk & Hs)];
    destruct args as [sid [rev|] [costs|] [count|] [metrics|]]; cbn in *;
    (erewrite bind_service_at
       by (cbn; rewrite ?list_lookup_alter_eq, Hlk; reflexivity));
    cbn; rewrite Hauto, ?Hk, ?Hs;
    run; rewrite ?saved_data; cbn;
    (split; [reflexivity|]; split; [|reflexivity];
     rewrite (alter_as_insert _ _ _ _ Hlk), ?alter_insert_eq; reflexivity).
Qed.


Lemma list_find_insert_same {A} (P : A -> Prop) `{forall x, Decision (P x)}
    (l : list A) (i : nat) (x y : A) :
  list_find P l = Some (i, x) -> P y -> list_find P (<[i := y]> l) = Some (i, y).
Proof.
  intros (Hlk & _ & Hbefore)%list_find_Some Hy.
  apply list_find_Some. split; [|split].
  - apply list_lookup_insert_eq. eapply lookup_lt_Some, Hlk.
  - exact Hy.
  - intros j z Hj Hlt. rewrite list_lookup_insert_ne in Hj by lia.
    eapply Hbefore; eassumption.
Qed.

Lemma updated_profit_again (args : UpdateServicePerformanceArgs.t) (now : Z)
    (st : ServiceStatus) (s : Service.t) :
  updated_profit args (Service.set_status st (performance_update args now s))
  = updated_profit args s.
Proof.
  unfold updated_profit, updated_revenue, updated_costs, performance_update.
  destruct args as [sid [rev|] [costs|] count metrics]; reflexivity.
Qed.

(** A killed service stays killed under every later performance update. *)
Lemma update_keeps_killed (w : World) (args : UpdateServicePerformanceArgs.t)
    (i : nat) (s0 : Service.t) :
  list_find (fun s => Service.id s = UpdateServicePerformanceArgs.service_id args)
    (services (data w)) = Some (i, s0) ->
  Service.status s0 = killed ->
  exists s',
    services (data (exec (updateServicePerformance args) w)) !! i = Some s' /\
    Service.status s' = killed.
Proof.
  intros Hfind Hkilled.
  pose proof Hfind as (Hlk & _ & _)%list_find_Some.
  assert (Hlen : (i < length (services (data w)))%nat)
    by (eapply lookup_lt_Some, Hlk).
  destruct (ScalingConfig.auto_scale (Service.scaling_config s0)) eqn:Hauto.
  - destruct (Qlt_le_dec (updated_profit args s0)
                (ScalingConfig.kill_threshold (Service.scaling_config s0)))
      as [Hlt | Hle].
    + destruct (update_kill_run w args i s0 Hfind Hauto Hlt) as (d & _ & Hsv & _).
      rewrite Hsv. eexists. split; [apply list_lookup_insert_eq, Hlen|reflexivity].
    + destruct (update_idle_run w args i s0 Hfind) as (_ & Hsv & _).
      { right. split; [apply Qle_not_lt, Hle|]. right. congruence. }
      rewrite Hsv. eexists. split; [apply list_lookup_insert_eq, Hlen|exact Hkilled].
  - destruct (update_idle_run w args i s0 Hfind) as (_ & Hsv & _); [left; exact Hauto|].
    rewrite Hsv. eexists. split; [apply list_lookup_insert_eq, Hlen|exact Hkilled].
Qed.

(** C1 (as amended). With [auto_scale] on, a performance update that
    leaves the daily profit below the service's kill threshold sets the
    status to [killed] and appends exactly one [Decision]
    ([auto_kill_service], [auto_approved], risk [low], confidence 0.9,
    [revenue_impact] the daily profit).  Rule 1 does not look at the
    current status: the identical update submitted again on the killed
    service leaves it [killed] and appends one more such [Decision].  No
    later update takes the service out of [killed]. *)
Theorem update_kill_rule (w : World) (args : UpdateServicePerformanceArgs.t)
    (i : nat) (s0 : Service.t) :
  list_find (fun s => Service.id s = UpdateServicePerformanceArgs.service_id args)
    (services (data w)) = Some (i, s0) ->
  ScalingConfig.auto_scale (Service.scaling_config s0) = true ->
  (updated_profit args s0 < ScalingConfig.kill_threshold (Service.scaling_config s0))%Q ->
  let w1 := exec (updateServicePerformance args) w in
  let w2 := exec (updateServicePerformance args) w1 in
  (outcome (updateServicePerformance args) w = Ok tt /\
   exists s1 d1,
     services (data w1) = <[i := s1]> (services (data w)) /\
     services (data w1) !! i = Some s1 /\
     Service.status s1 = killed /\
     decisions (data w1) = decisions (data w) ++ [d1] /\
     auto_kill_decision (updated_profit args s0) d1) /\
  (outcome (updateServicePerformance args) w1 = Ok tt /\
   exists s2 d2,
     services (data w2) !! i = Some s2 /\
     Service.status s2 = killed /\
     decisions (data w2) = decisions (data w1) ++ [d2] /\
     auto_kill_decision (updated_profit args s0) d2) /\
  (forall later : UpdateServicePerformanceArgs.t,
     UpdateServicePerformanceArgs.service_id later
       = UpdateServicePerformanceArgs.service_id args ->
     exists s',
       services (data (exec (updateServicePerformance later) w1)) !! i = Some s' /\
       Service.status s' = killed).
Proof.
  intros Hfind Hauto Hlt w1 w2.
  pose proof Hfind as (Hlk & Hid & _)%list_find_Some.
  assert (Hlen : (i < length (services (data w)))%nat)
    by (eapply lookup_lt_Some, Hlk).
  destruct (update_kill_run w args i s0 Hfind Hauto Hlt) as (d1 & Hok1 & Hsv1 & Hd1 & Hk1).
  set (s1 := Service.set_status killed
               (performance_update args (clock w (reads w)) s0)) in *.
  assert (Hfind1 :
    list_find (fun s => Service.id s = UpdateServicePerformanceArgs.service_id args)
      (services (data w1)) = Some (i, s1)).
  { subst w1. rewrite Hsv1. eapply list_find_insert_same; [exact Hfind|exact Hid]. }
  split; [|split].
  - split; [exact Hok1|]. exists s1, d1.
    split; [exact Hsv1|]. split; [|split; [reflexivity|split; assumption]].
    subst w1. rewrite Hsv1. apply list_lookup_insert_eq, Hlen.
  - assert (Hlt1 : (updated_profit args s1
                    < ScalingConfig.kill_threshold (Service.scaling_config s1))%Q).
    { subst s1. rewrite updated_profit_again. exact Hlt. }
    destruct (update_kill_run w1 args i s1 Hfind1 Hauto Hlt1)
      as (d2 & Hok2 & Hsv2 & Hd2 & Hk2).
    split; [exact Hok2|]. eexists _, d2.
    split; [|split; [|split; [exact Hd2|]]].
    + subst w2. rewrite Hsv2. apply list_lookup_insert_eq.
      subst w1. rewrite Hsv1, length_insert. exact Hlen.
    + reflexivity.
    + subst s1. rewrite updated_profit_again in Hk2. exact Hk2.
  - intros later Hsame. apply (update_keeps_killed w1 later i s1); [|reflexivity].
    rewrite Hsame. exact Hfind1.
Qed.

Lemma update_kill_rule_witness :
  exists s0,
    list_find (fun s => Service.id s = "id-0") (services (data scenario_world))
      = Some (0%nat, s0) /\
    ScalingConfig.auto_scale (Service.scaling_config s0) = true /\
    (updated_profit losing_update s0
     < ScalingConfig.kill_threshold (Service.scaling_config s0))%Q /\
    let w1 := exec (updateServicePerformance losing_update) scenario_world in
    let w2 := exec (updateServicePerformance losing_update) w1 in
    exists s1 d1 s2 d2,
      services (data w1) !! 0%nat = Some s1 /\ Service.status s1 = killed /\
      decisions (data w1) = decisions (data scenario_world) ++ [d1] /\
      auto_kill_decision (updated_profit losing_update s0) d1 /\
      services (data w2) !! 0%nat = Some s2 /\ Service.status s2 = killed /\
      decisions (data w2) = decisions (data w1) ++ [d2] /\
      auto_kill_decision (updated_profit losing_update s0) d2.
Proof.
  eexists. split; [reflexivity|]. split; [reflexivity|]. split; [reflexivity|].
  intros w1 w2.
  destruct (update_kill_rule scenario_world losing_update 0%nat _
              eq_refl eq_refl eq_refl)
    as ((_ & s1 & d1 & _ & H1 & H2 & H3 & H4) & (_ & s2 & d2 & H5 & H6 & H7 & H8) & _).
  exists s1, d1, s2, d2.
  exact (conj H1 (conj H2 (conj H3 (conj H4 (conj H5 (conj H6 (conj H7 H8))))))).
Defined.

(** C1, the claim as stated fails: on the scenario service (revenue 5,
    costs 20, threshold -10) the first update kills the service and logs
    one [auto_kill_service] decision; the identical update on the killed
    service logs a second one. *)
Lemma kill_resubmission_appends_second_decision :
  let w1 := exec (updateServicePerformance losing_update) scenario_world in
  let w2 := exec (updateServicePerformance losing_update) w1 in
  map Service.status (services (data w1)) = [killed] /\
  map Decision.decision_type (decisions (data w1)) = ["auto_kill_service"] /\
  map Decision.revenue_impact (decisions (data w1)) = [Some (-15 # 1)%Q] /\
  map Service.status (services (data w2)) = [killed] /\
  map Decision.decision_type (decisions (data w2))
    = ["auto_kill_service"; "auto_kill_service"] /\
  length (decisions (data w2)) <> length (decisions (data w1)).
Proof.
  vm_compute. repeat split; discriminate.
Qed.

(** A performance update for a registered service never throws. *)
Lemma updateServicePerformance_found_returns (w : World)
    (args : UpdateServicePerformanceArgs.t) (i : nat) (s0 : Service.t) :
  list_find (fun s => Service.id s = UpdateServicePerformanceArgs.service_id args)
    (services (data w)) = Some (i, s0) ->
  outcome (updateServicePerformance args) w = Ok tt.
Proof.
  intros Hfind.
  destruct (ScalingConfig.auto_scale (Service.scaling_config s0)) eqn:Hauto;
    [|apply (update_idle_run w args i s0 Hfind); left; exact Hauto].
  destruct (Qlt_le_dec (updated_profit args s0)
              (ScalingConfig.kill_threshold (Service.scaling_config s0))) as [Hlt|Hle].
  { destruct (update_kill_run w args i s0 Hfind Hauto Hlt) as (d & Hok & _). exact Hok. }
  apply Qle_not_lt in Hle.
  destruct (Qlt_le_dec 50 (updated_profit args s0)) as [Hgt|Hngt];
    [|apply (update_idle_run w args i s0 Hfind); right; split; [exact Hle|];
      left; apply Qle_not_lt, Hngt].
  destruct (decide (Service.status s0 = active)) as [Hst|Hst].
  - destruct (update_scale_run w args i s0 Hfind Hauto Hle Hgt Hst) as (d & Hok & _).
    exact Hok.
  - apply (update_idle_run w args i s0 Hfind). right. split; [exact Hle|].
    right. exact Hst.
Qed.

(** C4. With [auto_scale] on, a daily profit above 50 that is not below
    the kill threshold turns an [active] service into a [scaling] one and
    appends one [Decision] ([auto_scale_service], [auto_approved], risk
    [medium], confidence 0.7, [revenue_impact] twice the daily profit);
    for revenue 80 and costs 10 that impact is 140.  The rules are tried
    in order and the first match wins: a profit below the kill threshold
    kills the service even when it is above 50, and a service that is
    already [scaling] is not matched again (nothing is logged, the status
    stays). *)
Theorem update_scale_rule (w : World) (args : UpdateServicePerformanceArgs.t)
    (i : nat) (s0 : Service.t) :
  list_find (fun s => Service.id s = UpdateServicePerformanceArgs.service_id args)
    (services (data w)) = Some (i, s0) ->
  ScalingConfig.auto_scale (Service.scaling_config s0) = true ->
  (50 < updated_profit args s0)%Q ->
  let w' := exec (updateServicePerformance args) w in
  let below_kill_threshold :=
    (updated_profit args s0
     < ScalingConfig.kill_threshold (Service.scaling_config s0))%Q in
  outcome (updateServicePerformance args) w = Ok tt /\
  (~ below_kill_threshold -> Service.status s0 = active ->
   exists s' d,
     services (data w') = <[i := s']> (services (data w)) /\
     services (data w') !! i = Some s' /\
     Service.status s' = scaling /\
     decisions (data w') = decisions (data w) ++ [d] /\
     auto_scale_decision (updated_profit args s0) d /\
     (updated_revenue args s0 = 80%Q -> updated_costs args s0 = 10%Q ->
      Decision.revenue_impact d = Some 140%Q)) /\
  (~ below_kill_threshold -> Service.status s0 = scaling ->
   exists s',
     services (data w') = <[i := s']> (services (data w)) /\
     services (data w') !! i = Some s' /\
     Service.status s' = scaling /\
     decisions (data w') = decisions (data w)) /\
  (below_kill_threshold ->
   exists s' d,
     services (data w') !! i = Some s' /\
     Service.status s' = killed /\
     decisions (data w') = decisions (data w) ++ [d] /\
     Decision.decision_type d = "auto_kill_service").
Proof.
  intros Hfind Hauto Hgt w' below.
  pose proof Hfind as (Hlk & Hid & _)%list_find_Some.
  assert (Hlen : (i < length (services (data w)))%nat)
    by (eapply lookup_lt_Some, Hlk).
  split; [exact (updateServicePerformance_found_returns w args i s0 Hfind)|].
  split; [|split].
  - intros Hge Hst.
    destruct (update_scale_run w args i s0 Hfind Hauto Hge Hgt Hst)
      as (d & _ & Hsv & Hd & Hsd).
    eexists _, d. split; [exact Hsv|].
    split; [subst w'; rewrite Hsv; apply list_lookup_insert_eq, Hlen|].
    split; [reflexivity|]. split; [exact Hd|]. split; [exact Hsd|].
    intros Hrev Hcosts. destruct Hsd as (_ & _ & _ & _ & _ & _ & Himpact & _).
    rewrite Himpact. unfold updated_profit. rewrite Hrev, Hcosts. reflexivity.
  - intros Hge Hst.
    destruct (update_idle_run w args i s0 Hfind) as (_ & Hsv & Hd).
    { right. split; [exact Hge|]. right. congruence. }
    eexists. split; [exact Hsv|].
    split; [subst w'; rewrite Hsv; apply list_lookup_insert_eq, Hlen|].
    split; [exact Hst|exact Hd].
  - intros Hlt.
    destruct (update_kill_run w args i s0 Hfind Hauto Hlt) as (d & _ & Hsv & Hd & Hk).
    eexists _, d.
    split; [subst w'; rewrite Hsv; apply list_lookup_insert_eq, Hlen|].
    split; [reflexivity|]. split; [exact Hd|]. apply Hk.
Qed.

Lemma update_scale_rule_witness :
  exists s0,
    list_find (fun s => Service.id s = "id-0") (services (data scenario_world))
      = Some (0%nat, s0) /\
    ScalingConfig.auto_scale (Service.scaling_config s0) = true /\
    ~ (updated_profit winning_update s0
       < ScalingConfig.kill_threshold (Service.scaling_config s0))%Q /\
    (50 < updated_profit winning_update s0)%Q /\
    Service.status s0 = active /\
    let w' := exec (updateServicePerformance winning_update) scenario_world in
    exists s' d,
      services (data w') !! 0%nat = Some s' /\
      Service.status s' = scaling /\
      decisions (data w') = decisions (data scenario_world) ++ [d] /\
      auto_scale_decision (updated_profit winning_update s0) d /\
      Decision.revenue_impact d = Some 140%Q.
Proof.
  eexists. split; [reflexivity|]. split; [reflexivity|].
  assert (Hge : ~ ((80 - 10)%Q < -10)%Q) by (intros H; vm_compute in H; discriminate).
  assert (Hgt : (50 < (80 - 10)%Q)%Q) by reflexivity.
  split; [exact Hge|]. split; [exact Hgt|]. split; [reflexivity|].
  intros w'.
  destruct (update_scale_rule scenario_world winning_update 0%nat _
              eq_refl eq_refl Hgt)
    as (_ & Hactive & _).
  destruct (Hactive Hge eq_refl) as (s' & d & _ & H1 & H2 & H3 & H4 & H5).
  exists s', d.
  exact (conj H1 (conj H2 (conj H3 (conj H4 (H5 eq_refl eq_refl))))).
Defined.

(** ** The daily revenue counter *)








(** ** Durability: every mutation writes through *)

Section Rules.
Context {A B : Type}.
Implicit Types (m : M A) (k : A -> M B).

Lemma preserves_ret (a : A) : preserves_fs (ret a).
Proof. intros w. split; [reflexivity|apply le_n]. Qed.

Lemma preserves_throw (msg : string) : preserves_fs (@throw A msg).
Proof. intros w. split; [reflexivity|apply le_n]. Qed.

Lemma preserves_gets (f : World -> A) : preserves_fs (gets f).
Proof. intros w. split; [reflexivity|apply le_n]. Qed.

Lemma preserves_bind m k :
  preserves_fs m -> (forall a, preserves_fs (k a)) -> preserves_fs (bind m k).
Proof.
  intros Hm Hk w. specialize (Hm w). unfold exec, bind in *.
  destruct (m w) as [[a|e] w1]; cbn in *.
  - specialize (Hk a w1). unfold exec in Hk. destruct Hk as [-> Hle].
    split; [apply Hm|]. destruct Hm. lia.
  - exact Hm.
Qed.

Lemma returns_ret (a : A) : returns (ret a).
Proof. intros w. eexists. reflexivity. Qed.

Lemma returns_gets (f : World -> A) : returns (gets f).
Proof. intros w. eexists. reflexivity. Qed.

Lemma returns_bind m k :
  returns m -> (forall a, returns (k a)) -> returns (bind m k).
Proof.
  intros Hm Hk w. destruct (Hm w) as [a Ha]. unfold outcome, bind in *.
  destruct (m w) as [[a'|e] w1]; cbn in *; [|discriminate].
  apply Hk.
Qed.

Lemma keeps_ret (a : A) : keeps_synced (ret a).
Proof. split; [apply preserves_ret|]. intros w _ H. exact H. Qed.

Lemma keeps_gets (f : World -> A) : keeps_synced (gets f).
Proof. split; [apply preserves_gets|]. intros w _ H. exact H. Qed.

Lemma keeps_bind m k :
  keeps_synced m -> (forall a, keeps_synced (k a)) -> keeps_synced (bind m k).
Proof.
  intros [Hpm Hm] Hk. split.
  - apply preserves_bind; [exact Hpm|]. intros a. apply Hk.
  - intros w Hw Hs. specialize (Hm w Hw Hs). specialize (Hpm w).
    unfold exec, bind in *. destruct (m w) as [[a|e] w1]; cbn in *; [|exact Hm].
    destruct (Hk a) as [_ Hka]. apply Hka; [|exact Hm].
    destruct Hpm as [-> _]. exact Hw.
Qed.

(** Once the graph is written, a tail that keeps memory and file together
    does not spoil it. *)
Lemma writes_through_then m k :
  preserves_fs m -> writes_through m -> (forall a, keeps_synced (k a)) ->
  writes_through (bind m k).
Proof.
  intros Hp Hm Hk w r Hw Hok. specialize (Hm w). specialize (Hp w).
  unfold writes_through, outcome, exec, bind in *.
  destruct (m w) as [[a|e] w1] eqn:E; cbn in *; [|discriminate].
  destruct (Hm a Hw eq_refl) as [Hs Hlt]. destruct Hp as [Hw1 _].
  destruct (Hk a) as [Hpk Hka]. split.
  - apply Hka; [congruence|exact Hs].
  - specialize (Hpk w1). unfold exec in Hpk. destruct Hpk. lia.
Qed.

(** What comes before the write does not matter. *)
Lemma writes_through_after m k :
  preserves_fs m -> (forall a, writes_through (k a)) -> writes_through (bind m k).
Proof.
  intros Hp Hk w r Hw Hok. specialize (Hp w).
  unfold writes_through, outcome, exec, bind in *.
  destruct (m w) as [[a|e] w1] eqn:E; cbn in *; [|discriminate].
  destruct Hp as [Hw1 Hle].
  destruct (Hk a w1 r) as [Hs Hlt]; [congruence|exact Hok|].
  split; [exact Hs|lia].
Qed.

Lemma writes_through_throw (msg : string) : writes_through (@throw A msg).
Proof. intros w r _ H. discriminate. Qed.

(** A computation that always returns and writes through keeps memory
    and file together. *)
Lemma keeps_of_writes m :
  preserves_fs m -> returns m -> writes_through m -> keeps_synced m.
Proof.
  intros Hp Hr Hm. split; [exact Hp|]. intros w Hw _.
  destruct (Hr w) as [r Hok]. apply (Hm w r Hw Hok).
Qed.

End Rules.

Lemma preserves_Date_now : preserves_fs Date_now.
Proof. intros w. split; [reflexivity|apply le_n]. Qed.

Lemma preserves_uuidv4 : preserves_fs uuidv4.
Proof. intros w. split; [reflexivity|apply le_n]. Qed.

Lemma preserves_modify_data (f : RevBotData -> RevBotData) : preserves_fs (modify_data f).
Proof. intros w. split; [reflexivity|apply le_n]. Qed.

Lemma preserves_saveData : preserves_fs saveData.
Proof.
  intros w. unfold exec. rewrite saveData_eq. cbn.
  rewrite saved_fs_writable, saved_fs_writes. split; [reflexivity|].
  destruct (fs_writable w); lia.
Qed.

Lemma returns_Date_now : returns Date_now.
Proof. intros w. eexists. reflexivity. Qed.

Lemma returns_uuidv4 : returns uuidv4.
Proof. intros w. eexists. reflexivity. Qed.

Lemma returns_modify_data (f : RevBotData -> RevBotData) : returns (modify_data f).
Proof. intros w. eexists. reflexivity. Qed.

Lemma returns_saveData : returns saveData.
Proof. intros w. exists tt. unfold outcome. rewrite saveData_eq. reflexivity. Qed.

Lemma writes_through_saveData : writes_through saveData.
Proof.
  intros w r Hw _. unfold exec. rewrite saveData_eq. cbn.
  split; [apply saved_synced, Hw|]. rewrite saved_fs_writes, Hw. lia.
Qed.

Lemma keeps_saveData : keeps_synced saveData.
Proof.
  apply keeps_of_writes;
    [apply preserves_saveData | apply returns_saveData | apply writes_through_saveData].
Qed.

Lemma preserves_for_of {A} (l : list A) (body : A -> M unit) :
  (forall x, preserves_fs (body x)) -> preserves_fs (for_of l body).
Proof.
  intros H. induction l as [|x l IH]; cbn.
  - apply preserves_ret.
  - apply preserves_bind; [apply H|]. intros _. exact IH.
Qed.

Lemma returns_for_of {A} (l : list A) (body : A -> M unit) :
  (forall x, returns (body x)) -> returns (for_of l body).
Proof.
  intros H. induction l as [|x l IH]; cbn.
  - apply returns_ret.
  - apply returns_bind; [apply H|]. intros _. exact IH.
Qed.

Lemma keeps_for_of {A} (l : list A) (body : A -> M unit) :
  (forall x, keeps_synced (body x)) -> keeps_synced (for_of l body).
Proof.
  intros H. induction l as [|x l IH]; cbn.
  - apply keeps_ret.
  - apply keeps_bind; [apply H|]. intros _. exact IH.
Qed.

Create HintDb durability discriminated.
#[local] Hint Resolve preserves_ret preserves_throw preserves_gets preserves_Date_now
  preserves_uuidv4 preserves_modify_data preserves_saveData
  returns_ret returns_gets returns_Date_now returns_uuidv4 returns_modify_data
  returns_saveData keeps_ret keeps_gets keeps_saveData
  writes_through_saveData writes_through_throw : durability.

(** Structural proof search over a method body. *)
Ltac method_body :=
  repeat first
    [ progress intros
    | solve [auto with durability]
    | apply preserves_bind
    | apply returns_bind
    | apply keeps_bind
    | apply preserves_for_of
    | apply returns_for_of
    | apply keeps_for_of
    | match goal with
      | |- _ (match ?x with _ => _ end) => destruct x
      | |- _ (when ?b _) => destruct b; cbn [when]
      end ].

Lemma preserves_logDecisionInternal input : preserves_fs (logDecisionInternal input).
Proof. unfold logDecisionInternal. method_body. Qed.

Lemma returns_logDecisionInternal input : returns (logDecisionInternal input).
Proof. unfold logDecisionInternal. method_body. Qed.

Lemma writes_through_logDecisionInternal input :
  writes_through (logDecisionInternal input).
Proof.
  unfold logDecisionInternal.
  do 3 (apply writes_through_after; [method_body|intros]).
  apply writes_through_then; method_body.
Qed.

Lemma keeps_logDecisionInternal input : keeps_synced (logDecisionInternal input).
Proof.
  apply keeps_of_writes;
    [apply preserves_logDecisionInternal | apply returns_logDecisionInternal
    | apply writes_through_logDecisionInternal].
Qed.

#[local] Hint Resolve preserves_logDecisionInternal returns_logDecisionInternal
  keeps_logDecisionInternal writes_through_logDecisionInternal : durability.

Lemma preserves_modify_service i f : preserves_fs (modify_service i f).
Proof. apply preserves_modify_data. Qed.

Lemma returns_modify_service i f : returns (modify_service i f).
Proof. apply returns_modify_data. Qed.

Lemma preserves_modify_blocker i f : preserves_fs (modify_blocker i f).
Proof. apply preserves_modify_data. Qed.

Lemma preserves_assign_if_defined {A} i (x : option A) set :
  preserves_fs (assign_if_defined i x set).
Proof. destruct x; [apply preserves_modify_data|apply preserves_ret]. Qed.

Lemma preserves_service_at i : preserves_fs (service_at i).
Proof. unfold service_at. method_body. Qed.

Lemma preserves_todayStart_now : preserves_fs todayStart_now.
Proof. unfold todayStart_now. method_body. Qed.

Lemma returns_todayStart_now : returns todayStart_now.
Proof. unfold todayStart_now. method_body. Qed.

#[local] Hint Resolve preserves_modify_service returns_modify_service
  preserves_modify_blocker preserves_assign_if_defined preserves_service_at
  preserves_todayStart_now returns_todayStart_now : durability.

(** Structural search for the write in a method body: either the head of
    the sequence writes and the tail keeps memory and file together, or
    the write is further down. *)
Ltac finds_write :=
  intros;
  first
    [ solve [auto with durability]
    | match goal with
      | |- writes_through (match ?x with _ => _ end) => solve [destruct x; finds_write]
      end
    | solve [apply writes_through_then;
               [solve [method_body] | solve [finds_write] | solve [method_body]]]
    | solve [apply writes_through_after; [solve [method_body] | finds_write]] ].

Lemma keeps_updateServiceRevenue args : keeps_synced (updateServiceRevenue args).
Proof.
  unfold updateServiceRevenue. apply keeps_bind; [auto with durability|].
  intros svcs. destruct (list_find _ svcs) as [[i s]|]; [|auto with durability].
  apply keeps_of_writes; [method_body | method_body | finds_write].
Qed.

Lemma returns_updateServiceRevenue args : returns (updateServiceRevenue args).
Proof. unfold updateServiceRevenue. method_body. Qed.

Lemma keeps_autoCaptureContext_decisions context_data :
  keeps_synced (autoCaptureContext trig_decision_made context_data).
Proof. unfold autoCaptureContext. method_body. Qed.

Lemma returns_autoCaptureContext_decisions context_data :
  returns (autoCaptureContext trig_decision_made context_data).
Proof. unfold autoCaptureContext. method_body. Qed.

#[local] Hint Resolve keeps_updateServiceRevenue returns_updateServiceRevenue
  keeps_autoCaptureContext_decisions returns_autoCaptureContext_decisions : durability.

Lemma preserves_autoCaptureContext_decisions context_data :
  preserves_fs (autoCaptureContext trig_decision_made context_data).
Proof. apply keeps_autoCaptureContext_decisions. Qed.

#[local] Hint Resolve preserves_autoCaptureContext_decisions : durability.

(** Each mutating method writes the graph itself before it returns. *)
Lemma registerService_writes args : writes_through (registerService args).
Proof. unfold registerService. finds_write. Qed.

Lemma updateServicePerformance_writes args :
  writes_through (updateServicePerformance args).
Proof. unfold updateServicePerformance. finds_write. Qed.

Lemma recordTransaction_writes args : writes_through (recordTransaction args).
Proof. unfold recordTransaction. finds_write. Qed.

Lemma logDecision_writes args : writes_through (logDecision args).
Proof. unfold logDecision. finds_write. Qed.

Lemma recordMarketOpportunity_writes args :
  writes_through (recordMarketOpportunity args).
Proof. unfold recordMarketOpportunity. finds_write. Qed.

Lemma logConversationTurn_writes args : writes_through (logConversationTurn args).
Proof. unfold logConversationTurn. finds_write. Qed.

Lemma logBlocker_writes args : writes_through (logBlocker args).
Proof. unfold logBlocker. finds_write. Qed.

Lemma resolveBlocker_writes args : writes_through (resolveBlocker args).
Proof. unfold resolveBlocker. finds_write. Qed.

Lemma logProgressMilestone_writes args : writes_through (logProgressMilestone args).
Proof. unfold logProgressMilestone. finds_write. Qed.

Lemma saveBusinessState_writes args : writes_through (saveBusinessState args).
Proof. unfold saveBusinessState. finds_write. Qed.

Lemma registerService_preserves_fs args : preserves_fs (registerService args).
Proof. unfold registerService. method_body. Qed.
Lemma updateServicePerformance_preserves_fs args : preserves_fs (updateServicePerformance args).
Proof. unfold updateServicePerformance. method_body. Qed.
Lemma recordTransaction_preserves_fs args : preserves_fs (recordTransaction args).
Proof. unfold recordTransaction, updateServiceRevenue. method_body. Qed.
Lemma logDecision_preserves_fs args : preserves_fs (logDecision args).
Proof. unfold logDecision. method_body. Qed.
Lemma recordMarketOpportunity_preserves_fs args : preserves_fs (recordMarketOpportunity args).
Proof. unfold recordMarketOpportunity. method_body. Qed.
Lemma logConversationTurn_preserves_fs args : preserves_fs (logConversationTurn args).
Proof. unfold logConversationTurn. method_body. Qed.
Lemma logBlocker_preserves_fs args : preserves_fs (logBlocker args).
Proof. unfold logBlocker. method_body. Qed.
Lemma resolveBlocker_preserves_fs args : preserves_fs (resolveBlocker args).
Proof. unfold resolveBlocker. method_body. Qed.
Lemma logProgressMilestone_preserves_fs args : preserves_fs (logProgressMilestone args).
Proof. unfold logProgressMilestone. method_body. Qed.
Lemma saveBusinessState_preserves_fs args : preserves_fs (saveBusinessState args).
Proof. unfold saveBusinessState. method_body. Qed.

#[local] Hint Resolve registerService_preserves_fs updateServicePerformance_preserves_fs
  recordTransaction_preserves_fs logDecision_preserves_fs
  recordMarketOpportunity_preserves_fs logConversationTurn_preserves_fs
  logBlocker_preserves_fs resolveBlocker_preserves_fs
  logProgressMilestone_preserves_fs saveBusinessState_preserves_fs
  registerService_writes updateServicePerformance_writes recordTransaction_writes
  logDecision_writes recordMarketOpportunity_writes logConversationTurn_writes
  logBlocker_writes resolveBlocker_writes logProgressMilestone_writes
  saveBusinessState_writes : durability.

Lemma call_writes_through (c : MutatingCall) : writes_through (call c).
Proof.
  destruct c; cbn [call]; try solve [auto with durability];
    (apply writes_through_then; [auto with durability | auto with durability|]);
    intros; apply keeps_ret.
Qed.

Lemma call_returns (c : MutatingCall) : looks_up c = false -> returns (call c).
Proof.
  destruct c; cbn [call looks_up]; try discriminate; intros _;
    unfold registerService, recordTransaction, logDecision,
      recordMarketOpportunity, logConversationTurn, logBlocker,
      logProgressMilestone, saveBusinessState;
    method_body.
Qed.

Lemma call_throw_unchanged (c : MutatingCall) (w : World) (msg : string) :
  outcome (call c) w = Throw msg -> exec (call c) w = w.
Proof.
  destruct (looks_up c) eqn:Hc.
  - destruct c; try discriminate; cbn [call].
    + destruct (list_find
                  (fun s => Service.id s = UpdateServicePerformanceArgs.service_id args)
                  (services (data w))) as [[i s0]|] eqn:Hfind.
      * rewrite (updateServicePerformance_found_returns w args i s0 Hfind).
        discriminate.
      * intros _. unfold exec, updateServicePerformance. cbn. rewrite Hfind.
        reflexivity.
    + destruct (list_find
                  (fun b => Blocker.id b = ResolveBlockerArgs.blocker_id args)
                  (blockers (data w))) as [[i b]|] eqn:Hfind.
      * destruct (resolveBlocker_found w args i b Hfind) as [Hok _].
        rewrite Hok. discriminate.
      * intros _. apply resolveBlocker_missing, Hfind.
  - destruct (call_returns c Hc w) as [r Hok]. rewrite Hok. discriminate.
Qed.

(** C3 (as amended). Every mutating operation performs the synchronous
    write of the whole graph itself: a call that returns has increased the
    number of completed file writes and leaves the data file equal to the
    graph in memory; the only calls that can throw are the two that look
    an entity up, and then nothing changed.  There is no dirty flag: the
    timer callback writes when more than 30000 ms passed since the last
    save and auto-save is enabled, and [stop] writes unconditionally. *)
Theorem mutations_write_through (c : MutatingCall) (w : World) :
  fs_writable w = true ->
  (forall r, outcome (call c) w = Ok r ->
     synced (exec (call c) w) /\
     (fs_writes w < fs_writes (exec (call c) w))%nat) /\
  (looks_up c = false -> outcome (call c) w = Ok tt) /\
  (forall msg, outcome (call c) w = Throw msg -> exec (call c) w = w) /\
  fs_writes (exec autoSaveTick w)
    = (if (30000 <? clock w (reads w) - lastAutoSave w)
          && SessionMetadata.auto_save_enabled (session_metadata (data w))
       then S (fs_writes w) else fs_writes w) /\
  fs_writes (exec stop w) = S (fs_writes w) /\
  synced (exec stop w).
Proof.
  intros Hw. split; [|split; [|split; [|split; [|split]]]].
  - intros r Hok. exact (call_writes_through c w r Hw Hok).
  - intros Hc. destruct (call_returns c Hc w) as [[] Hok]. exact Hok.
  - intros msg. apply call_throw_unchanged.
  - unfold exec, autoSaveTick. cbn.
    destruct (_ && _); cbn [when].
    + rewrite saveData_eq. cbn. rewrite saved_fs_writes. cbn. rewrite Hw. reflexivity.
    + reflexivity.
  - unfold exec, stop. rewrite saveData_eq. cbn. rewrite saved_fs_writes, Hw. reflexivity.
  - unfold exec, stop. rewrite saveData_eq. cbn. apply saved_synced, Hw.
Qed.

Lemma mutations_write_through_witness :
  let c := register_service (RegisterServiceArgs.mk "qr" "web" None None) in
  fs_writable boot_world = true /\
  outcome (call c) boot_world = Ok tt /\
  synced (exec (call c) boot_world) /\
  (fs_writes boot_world < fs_writes (exec (call c) boot_world))%nat.
Proof.
  intros c.
  destruct (mutations_write_through c boot_world eq_refl) as (Hwrites & Hok & _).
  specialize (Hok eq_refl).
  split; [reflexivity|]. split; [exact Hok|]. exact (Hwrites tt Hok).
Defined.

(** C3, the claim as stated fails: [register_service] on a freshly
    started server writes the data file itself, before it returns. *)
Lemma register_service_writes_the_file :
  let c := register_service (RegisterServiceArgs.mk "qr" "web" None None) in
  file boot_world = Missing /\
  fs_writes boot_world = 0%nat /\
  fs_writes (exec (call c) boot_world) = 1%nat /\
  file (exec (call c) boot_world) = Present (Json (data (exec (call c) boot_world))).
Proof.
  vm_compute. repeat split.
Qed.

(** ** The interaction extractor *)

(** The loop of [autoCaptureContext] that logs one [Decision] per term. *)
Lemma conversation_decisions_run (terms : list string) (w : World) :
  exists ds w',
    for_of terms
      (fun decision =>
         _ <- logDecisionInternal
                (DecisionInput.mk "conversation_decision"
                   ("Decision made in conversation: " +:+ decision)
                   "Auto-detected from conversation analysis"
                   auto_approved None None (Some (8 # 10)%Q)) ;;
         ret tt) w = (Ok tt, w') /\
    decisions (data w') = decisions (data w) ++ ds /\
    Forall2 (fun d term => conversation_decision term d) ds terms /\
    blockers (data w') = blockers (data w) /\
    conversation_turns (data w') = conversation_turns (data w).
Proof.
  revert w. induction terms as [|term terms IH]; intros w.
  - exists [], w. cbn. rewrite app_nil_r. repeat split. constructor.
  - cbn [for_of]. rewrite bind_assoc, bind_logDecisionInternal. cbn.
    set (d := decisionRecord_of _ _ _). set (w1 := saved _).
    assert (Hd1 : decisions (data w1) = decisions (data w) ++ [d])
      by (subst w1; through_saves; reflexivity).
    assert (Hb1 : blockers (data w1) = blockers (data w))
      by (subst w1; through_saves; reflexivity).
    assert (Hc1 : conversation_turns (data w1) = conversation_turns (data w))
      by (subst w1; through_saves; reflexivity).
    clearbody w1.
    destruct (IH w1) as (ds & w' & Hrun & Hds & Hrel & Hb & Hc).
    exists (d :: ds), w'. split; [exact Hrun|].
    split; [rewrite Hds, Hd1, <- app_assoc; reflexivity|].
    split; [|split; congruence].
    constructor; [|exact Hrel]. subst d. repeat split.
Qed.

(** The loop of [autoCaptureContext] that logs one [Blocker] per term. *)
Lemma conversation_blockers_run (terms : list string) (w : World) :
  exists bs w',
    for_of terms
      (fun blocker =>
         _ <- logBlocker
                (LogBlockerArgs.mk blocker "Auto-detected blocker from conversation"
                   technical (Some sev_medium)
                   (Some ["Investigate blocker"; "Find solution"; "Implement fix"])) ;;
         ret tt) w = (Ok tt, w') /\
    blockers (data w') = blockers (data w) ++ bs /\
    Forall2 (fun b term => conversation_blocker term b) bs terms.
Proof.
  revert w. induction terms as [|term terms IH]; intros w.
  - exists [], w. cbn. rewrite app_nil_r. repeat split. constructor.
  - cbn [for_of]. unfold logBlocker at 1. run.
    set (b := Blocker.mk _ _ _ _ _ _ _ _ _). set (w1 := saved _).
    assert (Hb1 : blockers (data w1) = blockers (data w) ++ [b])
      by (subst w1; through_saves; reflexivity).
    clearbody w1.
    destruct (IH w1) as (bs & w' & Hrun & Hbs & Hrel).
    exists (b :: bs), w'. split; [exact Hrun|].
    split; [rewrite Hbs, Hb1, <- app_assoc; reflexivity|].
    constructor; [|exact Hrel]. subst b. repeat split.
Qed.

Lemma autoCaptureContext_blockers_run (context_data : ContextData.t)
    (terms : list string) (w : World) :
  ContextData.blockers_identified context_data = Some terms ->
  exists bs,
    outcome (autoCaptureContext trig_blocker_found context_data) w = Ok tt /\
    blockers (data (exec (autoCaptureContext trig_blocker_found context_data) w))
      = blockers (data w) ++ bs /\
    Forall2 (fun b term => conversation_blocker term b) bs terms.
Proof.
  intros Hterms. unfold outcome, exec, autoCaptureContext. rewrite Hterms.
  destruct terms as [|term terms].
  - exists []. cbn. rewrite app_nil_r. repeat split. constructor.
  - destruct (conversation_blockers_run (term :: terms) w) as (bs & w' & Hrun & Hbs & Hrel).
    exists bs. cbn [when nonempty_opt orObj]. rewrite Hrun. cbn.
    split; [reflexivity|]. split; assumption.
Qed.

Lemma autoCaptureContext_decisions_run (context_data : ContextData.t)
    (terms : list string) (w : World) :
  ContextData.decisions_made context_data = Some terms ->
  exists ds w',
    autoCaptureContext trig_decision_made context_data w = (Ok tt, w') /\
    decisions (data w') = decisions (data w) ++ ds /\
    Forall2 (fun d term => conversation_decision term d) ds terms /\
    blockers (data w') = blockers (data w) /\
    conversation_turns (data w') = conversation_turns (data w).
Proof.
  intros Hterms. unfold autoCaptureContext. rewrite Hterms.
  destruct terms as [|term terms].
  - exists [], w. cbn. rewrite app_nil_r. repeat split. constructor.
  - apply conversation_decisions_run.
Qed.

#[local] Arguments autoCaptureContext : simpl never.
#[local] Arguments combined_text : simpl never.
#[local] Arguments extractKeywords : simpl never.
#[local] Arguments inferContextType : simpl never.
#[local] Arguments calculateImportanceScore : simpl never.

Lemma extractKeywords_nonempty (text : string) (keywords : list string) :
  (exists term, term ∈ keywords /\ includes text term = true) ->
  extractKeywords text keywords <> [].
Proof.
  intros (term & Hin & Hinc) Hnil.
  assert (H : In term (extractKeywords text keywords)).
  { apply filter_In. split; [apply list_elem_of_In, Hin|exact Hinc]. }
  rewrite Hnil in H. exact H.
Qed.

Lemma inferContextType_priority (userInput aiResponse : string) :
  inferContextType userInput aiResponse
  = classify_by_priority (combined_text userInput aiResponse).
Proof.
  unfold inferContextType, classify_by_priority, context_families.
  set (c := combined_text userInput aiResponse). cbn.
  rewrite !orb_false_r, !orb_assoc.
  repeat (match goal with |- context [if ?b then _ else _] => destruct b end;
          try reflexivity).
Qed.

(** C5 (as amended). When the caller passes neither [context_type] nor
    [extracted_entities], [log_conversation_turn] stores an
    InteractionRecord whose [decisions_made] and [blockers_identified] are
    the decision and blocker terms found in the lower-cased text (both
    non-empty when a term of each family occurs), whose [context_type] is
    the first-match category in the fixed priority order ([planning],
    [implementation] or [debugging] when the text contains "error", and
    [debugging] when no planning or implementation term occurs), and it
    appends exactly one auxiliary [Decision] per matched decision term
    through [logDecisionInternal].  It appends no [Blocker]: the only
    trigger it passes to [autoCaptureContext] is [decision_made], and
    [autoCaptureContext] logs one [Blocker] per blocker term only under
    the trigger [blocker_found]. *)
Theorem logConversationTurn_feedback (w : World) (args : LogConversationTurnArgs.t) :
  LogConversationTurnArgs.context_type args = None ->
  LogConversationTurnArgs.extracted_entities args = None ->
  let combined :=
    combined_text (LogConversationTurnArgs.user_input args)
      (LogConversationTurnArgs.ai_response args) in
  (exists term, term ∈ decisionKeywords /\ includes combined term = true) ->
  (exists term, term ∈ blockerKeywords /\ includes combined term = true) ->
  let w' := exec (logConversationTurn args) w in
  exists turn ds,
    outcome (logConversationTurn args) w = Ok turn /\
    conversation_turns (data w') = conversation_turns (data w) ++ [turn] /\
    Entities.decisions_made (ConversationTurn.extracted_entities turn)
      = Some (extractKeywords combined decisionKeywords) /\
    extractKeywords combined decisionKeywords <> [] /\
    Entities.blockers_identified (ConversationTurn.extracted_entities turn)
      = Some (extractKeywords combined blockerKeywords) /\
    extractKeywords combined blockerKeywords <> [] /\
    ConversationTurn.context_type turn = classify_by_priority combined /\
    (includes combined "error" = true ->
     ConversationTurn.context_type turn = planning \/
     ConversationTurn.context_type turn = implementation \/
     ConversationTurn.context_type turn = debugging) /\
    (includes combined "error" = true ->
     existsb (includes combined)
       ["plan"; "strategy"; "roadmap"; "build"; "implement"; "deploy"] = false ->
     ConversationTurn.context_type turn = debugging) /\
    decisions (data w') = decisions (data w) ++ ds /\
    Forall2 (fun d term => conversation_decision term d) ds
      (extractKeywords combined decisionKeywords) /\
    length ds = length (extractKeywords combined decisionKeywords) /\
    blockers (data w') = blockers (data w) /\
    (forall w0, exists bs,
       blockers (data (exec (autoCaptureContext trig_blocker_found
                               (ContextData.of_turn turn)) w0))
         = blockers (data w0) ++ bs /\
       Forall2 (fun b term => conversation_blocker term b) bs
         (extractKeywords combined blockerKeywords)).
Proof.
  intros Hctx Hent combined Hdec Hblk w'. subst w'.
  apply extractKeywords_nonempty in Hdec, Hblk.
  unfold outcome, exec, logConversationTurn, extractEntitiesFromConversation.
  rewrite Hctx, Hent. run.
  fold combined. rewrite inferContextType_priority. fold combined.
  set (turn := ConversationTurn.mk _ _ _ _ _ _ _ _).
  set (w1 := saved _).
  assert (Hd1 : decisions (data w1) = decisions (data w))
    by (subst w1; through_saves; reflexivity).
  assert (Hb1 : blockers (data w1) = blockers (data w))
    by (subst w1; through_saves; reflexivity).
  assert (Hc1 : conversation_turns (data w1) = conversation_turns (data w) ++ [turn])
    by (subst w1; through_saves; reflexivity).
  clearbody w1.
  destruct (autoCaptureContext_decisions_run (ContextData.of_turn turn)
              (extractKeywords combined decisionKeywords) w1 eq_refl)
    as (ds & w2 & Hrun & Hds & Hrel & Hb & Hc).
  unfold bind. rewrite Hrun. cbn.
  exists turn, ds. subst turn. cbn.
  split; [reflexivity|]. split; [rewrite Hc, Hc1; reflexivity|].
  split; [reflexivity|]. split; [exact Hdec|].
  split; [reflexivity|]. split; [exact Hblk|].
  split; [reflexivity|].
  split; [|split; [|split; [rewrite Hds, Hd1; reflexivity
                            |split; [exact Hrel
                                    |split; [|split; [rewrite Hb, Hb1; reflexivity|]]]]]].
  4: { intros w0.
       destruct (autoCaptureContext_blockers_run
                   (ContextData.of_turn
                      (ConversationTurn.mk (uuid_source w (drawn w))
                         (SessionMetadata.current_session_id (session_metadata (data w)))
                         (clock w (reads w))
                         (LogConversationTurnArgs.user_input args)
                         (LogConversationTurnArgs.ai_response args)
                         (classify_by_priority combined)
                         (Entities.mk (Some (extractKeywords combined taskKeywords))
                            (Some (extractKeywords combined techKeywords))
                            (Some (extractKeywords combined decisionKeywords))
                            (Some (extractKeywords combined blockerKeywords)))
                         (orQ (LogConversationTurnArgs.importance_score args)
                            (calculateImportanceScore
                               (LogConversationTurnArgs.user_input args)
                               (LogConversationTurnArgs.ai_response args)))))
                   (extractKeywords combined blockerKeywords) w0 eq_refl)
         as (bs & _ & Hbs & Hrelb).
       exists bs. split; assumption. }
  - intros Herr. unfold classify_by_priority, context_families. cbn.
    rewrite Herr. cbn.
    repeat (match goal with |- context [if ?b then _ else _] => destruct b end;
            cbn; auto).
  - intros Herr Hnone. unfold classify_by_priority, context_families. cbn in *.
    rewrite Herr.
    repeat match goal with
           | |- context [includes combined ?k] =>
               destruct (includes combined k) eqn:?; cbn in *
           end;
      first [discriminate | reflexivity].
  - apply Forall2_length in Hrel. exact Hrel.
Qed.

Lemma logConversationTurn_feedback_witness :
  let combined :=
    combined_text (LogConversationTurnArgs.user_input scenario_turn)
      (LogConversationTurnArgs.ai_response scenario_turn) in
  (exists term, term ∈ decisionKeywords /\ includes combined term = true) /\
  (exists term, term ∈ blockerKeywords /\ includes combined term = true) /\
  let w' := exec (logConversationTurn scenario_turn) boot_world in
  exists turn ds,
    outcome (logConversationTurn scenario_turn) boot_world = Ok turn /\
    Entities.decisions_made (ConversationTurn.extracted_entities turn)
      = Some ["decided"] /\
    Entities.blockers_identified (ConversationTurn.extracted_entities turn)
      = Some ["error"] /\
    ConversationTurn.context_type turn = debugging /\
    decisions (data w') = decisions (data boot_world) ++ ds /\
    length ds = 1%nat /\
    blockers (data w') = blockers (data boot_world).
Proof.
  intros combined.
  assert (Hdec : exists term, term ∈ decisionKeywords /\ includes combined term = true).
  { exists "decided". split; [|vm_compute; reflexivity].
    apply list_elem_of_In. cbn. auto. }
  assert (Hblk : exists term, term ∈ blockerKeywords /\ includes combined term = true).
  { exists "error". split; [|vm_compute; reflexivity].
    apply list_elem_of_In. cbn. auto. }
  split; [exact Hdec|]. split; [exact Hblk|]. intros w'.
  destruct (logConversationTurn_feedback boot_world scenario_turn eq_refl eq_refl Hdec Hblk)
    as (turn & ds & Hok & _ & Hd & _ & Hb & _ & _ & _ & Hdbg & Hds & _ & Hlen & Hbl & _).
  exists turn, ds. split; [exact Hok|].
  split; [rewrite Hd; vm_compute; reflexivity|].
  split; [rewrite Hb; vm_compute; reflexivity|].
  split; [apply Hdbg; vm_compute; reflexivity|].
  split; [exact Hds|]. split; [rewrite Hlen; vm_compute; reflexivity|exact Hbl].
Defined.

(** C5, the claim as stated fails: the scenario interaction ("decided",
    "ERROR") is stored with one decision term and one blocker term and
    makes the server log one auxiliary [Decision], but no [Blocker]. *)
Lemma conversation_turn_logs_no_blocker :
  let w' := exec (logConversationTurn scenario_turn) boot_world in
  map (fun t => Entities.decisions_made (ConversationTurn.extracted_entities t))
    (conversation_turns (data w')) = [Some ["decided"]] /\
  map (fun t => Entities.blockers_identified (ConversationTurn.extracted_entities t))
    (conversation_turns (data w')) = [Some ["error"]] /\
  map ConversationTurn.context_type (conversation_turns (data w')) = [debugging] /\
  map Decision.decision_type (decisions (data w')) = ["conversation_decision"] /\
  blockers (data w') = [] /\
  length (blockers (data w')) <> 1%nat.
Proof.
  vm_compute. repeat split. discriminate.
Qed.

(** ** Ranking of market opportunities *)

Section Sorting.
Context {A : Type} (compareFn : A -> A -> Q).

Lemma sort_insert_perm (x : A) (l : list A) :
  Permutation (sort_insert compareFn x l) (x :: l).
Proof.
  induction l as [|y l IH]; cbn; [reflexivity|].
  destruct (Qle_bool (compareFn x y) 0); [reflexivity|].
  rewrite IH. apply perm_swap.
Qed.

Lemma js_sort_perm (l : list A) : Permutation (js_sort compareFn l) l.
Proof.
  induction l as [|x l IH]; cbn; [reflexivity|].
  change (foldr (sort_insert compareFn) [] l) with (js_sort compareFn l).
  rewrite sort_insert_perm, IH. reflexivity.
Qed.

(** When the comparator agrees with a transitive order [R] on the
    elements at hand, the sorted array is ordered by [R]. *)
Variables (R : A -> A -> Prop) (P : A -> Prop).
Hypothesis R_trans : forall x y z, R x y -> R y z -> R x z.
Hypothesis compare_R :
  forall x y, P x -> P y ->
    if Qle_bool (compareFn x y) 0 then R x y else R y x.

Lemma sort_insert_sorted (x : A) (l : list A) :
  P x -> Forall P l -> StronglySorted R l ->
  StronglySorted R (sort_insert compareFn x l).
Proof.
  intros Hx Hl Hs. induction Hs as [|y l Hs IH Hy]; cbn.
  - repeat constructor.
  - apply Forall_cons in Hl as [Py Hl].
    pose proof (compare_R x y Hx Py) as Hxy.
    destruct (Qle_bool (compareFn x y) 0).
    + constructor; [constructor; assumption|].
      constructor; [exact Hxy|].
      eapply Forall_impl; [exact Hy|]. intros z Hz. eapply R_trans; eassumption.
    + constructor; [apply IH, Hl|].
      rewrite sort_insert_perm. constructor; assumption.
Qed.

Lemma js_sort_sorted (l : list A) :
  Forall P l -> StronglySorted R (js_sort compareFn l).
Proof.
  induction l as [|x l IH]; intros Hl; cbn; [constructor|].
  apply Forall_cons in Hl as [Hx Hl].
  change (foldr (sort_insert compareFn) [] l) with (js_sort compareFn l).
  apply sort_insert_sorted; [exact Hx| |apply IH, Hl].
  rewrite js_sort_perm. exact Hl.
Qed.

End Sorting.

Lemma StronglySorted_take {A} (R : A -> A -> Prop) (n : nat) (l : list A) :
  StronglySorted R l -> StronglySorted R (take n l).
Proof.
  intros Hs. revert n. induction Hs as [|x l Hs IH Hx]; intros [|n]; cbn;
    try constructor.
  - apply IH.
  - apply Forall_take, Hx.
Qed.

Lemma StronglySorted_slice0 {A} (R : A -> A -> Prop) (n : Z) (l : list A) :
  StronglySorted R l -> StronglySorted R (slice0 n l).
Proof.
  intros Hs. unfold slice0. destruct (n <? 0); apply StronglySorted_take, Hs.
Qed.

Lemma compare_by_profit (a b : MarketOpportunity.t) :
  has_profit a = true -> has_profit b = true ->
  if Qle_bool (compare_opportunities a b) 0
  then (profit_of b <= profit_of a)%Q else (profit_of a <= profit_of b)%Q.
Proof.
  unfold has_profit, profit_of, compare_opportunities.
  destruct (MarketOpportunity.profit_potential a) as [pa|]; [|discriminate].
  destruct (MarketOpportunity.profit_potential b) as [pb|]; [|discriminate].
  intros -> ->. cbn.
  destruct (Qle_bool (pb - pa) 0) eqn:E.
  - apply Qle_bool_iff in E. lra.
  - assert (~ (pb - pa <= 0)%Q) by (rewrite <- Qle_bool_iff; congruence). lra.
Qed.

Lemma compare_by_created_at (a b : MarketOpportunity.t) :
  has_profit a = false -> has_profit b = false ->
  if Qle_bool (compare_opportunities a b) 0
  then MarketOpportunity.created_at b <= MarketOpportunity.created_at a
  else MarketOpportunity.created_at a <= MarketOpportunity.created_at b.
Proof.
  unfold has_profit, compare_opportunities. intros Ha Hb.
  assert (Hcmp : compare_opportunities a b
                 = inject_Z (MarketOpportunity.created_at b
                             - MarketOpportunity.created_at a)).
  { unfold compare_opportunities.
    destruct (MarketOpportunity.profit_potential a) as [pa|]; [|reflexivity].
    destruct (MarketOpportunity.profit_potential b) as [pb|]; [|reflexivity].
    rewrite Ha. reflexivity. }
  fold (compare_opportunities a b). rewrite Hcmp.
  destruct (Qle_bool _ 0) eqn:E.
  - apply Qle_bool_iff in E. unfold Qle, inject_Z in E. cbn in E. lia.
  - assert (H : ~ (inject_Z (MarketOpportunity.created_at b
                             - MarketOpportunity.created_at a) <= 0)%Q)
      by (rewrite <- Qle_bool_iff; congruence).
    unfold Qle, inject_Z in H. cbn in H. lia.
Qed.

(** On opportunities that all have a profit potential, and on
    opportunities none of which has one, the comparator is consistent,
    and the sorted array is in descending order of the potential, or of
    the discovery time. *)
Lemma opportunities_ranked (l : list MarketOpportunity.t) :
  (Forall (fun o => has_profit o = true) l ->
   StronglySorted (fun a b => (profit_of b <= profit_of a)%Q)
     (js_sort compare_opportunities l)) /\
  (Forall (fun o => has_profit o = false) l ->
   StronglySorted
     (fun a b => MarketOpportunity.created_at b <= MarketOpportunity.created_at a)
     (js_sort compare_opportunities l)).
Proof.
  split; intros Hall.
  - apply (js_sort_sorted compare_opportunities _ (fun o => has_profit o = true)).
    + intros x y z Hxy Hyz. lra.
    + apply compare_by_profit.
    + exact Hall.
  - apply (js_sort_sorted compare_opportunities _ (fun o => has_profit o = false)).
    + intros x y z Hxy Hyz. lia.
    + apply compare_by_created_at.
    + exact Hall.
Qed.

Lemma getMarketOpportunities_run (w : World) (args : MarketOpportunitiesArgs.t) :
  let sorted := js_sort compare_opportunities (selected_opportunities args w) in
  outcome (getMarketOpportunities args) w
  = Ok (match MarketOpportunitiesArgs.limit args with
        | Some n => if n =? 0 then sorted else slice0 n sorted
        | None => sorted
        end).
Proof.
  unfold outcome, getMarketOpportunities, selected_opportunities. cbn.
  destruct (MarketOpportunitiesArgs.status args) as [st|]; cbn;
    destruct (MarketOpportunitiesArgs.limit args) as [n|]; cbn;
    try destruct (n =? 0); reflexivity.
Qed.

Example ranked_by_profit :
  match outcome (getMarketOpportunities (MarketOpportunitiesArgs.mk (Some discovered) None))
          ranked_world with
  | Ok out => map MarketOpportunity.opportunity_type out = ["bigger"; "smaller"]
  | Throw _ => False
  end.
Proof. vm_compute. reflexivity. Qed.

(** C6. The code at the failing inputs.  The comment of the source
    announces "Sort by profit potential descending, then by created_at
    descending", but the comparator returns the difference of the
    potentials when both are present, which is 0 on a tie, and never
    looks at [created_at] then: two opportunities of the same potential
    are returned in stored order, the older one first.  A pair one of
    which lacks a potential is compared by [created_at] alone: the later
    opportunity without potential is returned before the earlier one
    whose potential is 100. *)
Theorem getMarketOpportunities_ties_in_stored_order :
  (map (fun o => (MarketOpportunity.opportunity_type o, MarketOpportunity.created_at o))
     (market_opportunities (data tied_world))
   = [("older", 1000); ("newer", 1003)] /\
   match outcome (getMarketOpportunities (MarketOpportunitiesArgs.mk None None))
           tied_world with
   | Ok out =>
       map MarketOpportunity.opportunity_type out = ["older"; "newer"] /\
       map MarketOpportunity.profit_potential out = [Some 100%Q; Some 100%Q]
   | Throw _ => False
   end) /\
  (map MarketOpportunity.opportunity_type (market_opportunities (data market_world))
   = ["qr codes"; "newsletter"] /\
   match outcome (getMarketOpportunities (MarketOpportunitiesArgs.mk None None))
           market_world with
   | Ok out =>
       map MarketOpportunity.opportunity_type out = ["newsletter"; "qr codes"] /\
       map MarketOpportunity.profit_potential out = [None; Some 100%Q]
   | Throw _ => False
   end).
Proof.
  vm_compute. repeat split.
Qed.

(** ** Queries answer without persisting *)

#[local] Arguments js_sort : simpl never.
#[local] Arguments latest_first : simpl never.
#[local] Arguments slice0 : simpl never.

Lemma same_entities_refl (d : RevBotData) : same_entities d d.
Proof. unfold same_entities. repeat split; reflexivity. Qed.

Section StoreRules.
Context {A B : Type}.
Implicit Types (m : M A) (k : A -> M B).

Lemma leaves_ret (a : A) : leaves_store (ret a).
Proof. intros w. split; [eexists; reflexivity|]. repeat split. Qed.

Lemma leaves_gets (f : World -> A) : leaves_store (gets f).
Proof. intros w. split; [eexists; reflexivity|]. repeat split. Qed.

Lemma leaves_bind m k :
  leaves_store m -> (forall a, leaves_store (k a)) -> leaves_store (bind m k).
Proof.
  intros Hm Hk w. destruct (Hm w) as ([a Ha] & H1 & H2 & H3 & H4 & H5 & H6 & H7).
  unfold outcome, exec, bind in *.
  destruct (m w) as [[a'|e] w1]; cbn in *; [|discriminate].
  destruct (Hk a' w1) as (Hr & G1 & G2 & G3 & G4 & G5 & G6 & G7).
  unfold outcome, exec in *.
  split; [exact Hr|]. repeat split; congruence.
Qed.

Lemma leaves_answers m : leaves_store m -> answers_only m.
Proof.
  intros Hm w. destruct (Hm w) as (_ & H1 & H2 & H3 & H4 & H5 & H6 & H7).
  repeat (split; [assumption|]).
  rewrite H1. apply same_entities_refl.
Qed.

Lemma leaves_returns m : leaves_store m -> returns m.
Proof. intros Hm w. apply Hm. Qed.

End StoreRules.

Lemma leaves_Date_now : leaves_store Date_now.
Proof. intros w. split; [eexists; reflexivity|]. repeat split. Qed.

Lemma leaves_js_div (a b : Q) : leaves_store (js_div a b).
Proof. intros w. split; [eexists; reflexivity|]. repeat split. Qed.

Lemma leaves_mapM {A B} (f : A -> M B) (l : list A) :
  (forall x, leaves_store (f x)) -> leaves_store (mapM f l).
Proof.
  intros Hf. induction l as [|x l IH]; cbn [mapM].
  - apply leaves_ret.
  - apply leaves_bind; [apply Hf|]. intros y.
    apply leaves_bind; [exact IH|]. intros ys. apply leaves_ret.
Qed.

Create HintDb queries discriminated.
#[local] Hint Resolve leaves_ret leaves_gets leaves_Date_now leaves_js_div : queries.

(** Structural proof search over the body of a query. *)
Ltac query_body :=
  repeat first
    [ progress intros
    | solve [auto with queries]
    | apply leaves_bind
    | apply leaves_mapM
    | match goal with
      | |- leaves_store (if ?b then _ else _) => destruct b
      | |- leaves_store (match ?x with _ => _ end) => destruct x
      end ].

Lemma getRevenueAnalytics_leaves_store args : leaves_store (getRevenueAnalytics args).
Proof. unfold getRevenueAnalytics. query_body. Qed.

Lemma getBusinessInsights_leaves_store args : leaves_store (getBusinessInsights args).
Proof. unfold getBusinessInsights. query_body. Qed.

Lemma getPendingDecisions_leaves_store : leaves_store getPendingDecisions.
Proof. unfold getPendingDecisions. query_body. Qed.

Lemma latest_first_perm {A} (timestamp : A -> Z) (l : list A) :
  Permutation (latest_first timestamp l) l.
Proof. apply js_sort_perm. Qed.

Lemma getCurrentBusinessState_answers : answers_only getCurrentBusinessState.
Proof.
  intros w. unfold outcome, exec, getCurrentBusinessState. cbn.
  destruct (latest_first BusinessState.timestamp (business_states (data w)))
    as [|latestState rest] eqn:E; cbn.
  - repeat (split; [reflexivity|]).
    unfold same_entities. cbn. repeat split; try reflexivity.
    rewrite <- E. symmetry. apply latest_first_perm.
  - repeat (split; [reflexivity|]).
    unfold same_entities. cbn. repeat split; try reflexivity.
    + rewrite <- E. symmetry. apply latest_first_perm.
    + symmetry. apply latest_first_perm.
Qed.

Lemma getCurrentBusinessState_returns : returns getCurrentBusinessState.
Proof.
  intros w. unfold outcome, getCurrentBusinessState. cbn.
  destruct (latest_first BusinessState.timestamp (business_states (data w)));
    eexists; reflexivity.
Qed.

Lemma getAllServices_answers args : answers_only (getAllServices args).
Proof.
  intros w. unfold outcome, exec, getAllServices. cbn.
  destruct (AllServicesArgs.status_filter args) as [st|]; cbn.
  - repeat (split; [reflexivity|]).
    apply same_entities_refl.
  - repeat (split; [reflexivity|]).
    unfold same_entities. cbn. repeat split; try reflexivity.
    symmetry. apply js_sort_perm.
Qed.

Lemma getAllServices_returns args : returns (getAllServices args).
Proof.
  intros w. unfold outcome, getAllServices. cbn.
  destruct (AllServicesArgs.status_filter args); eexists; reflexivity.
Qed.

Lemma getMarketOpportunities_answers args : answers_only (getMarketOpportunities args).
Proof.
  intros w. unfold outcome, exec, getMarketOpportunities. cbn.
  destruct (MarketOpportunitiesArgs.status args) as [st|]; cbn;
    destruct (MarketOpportunitiesArgs.limit args) as [n|]; cbn;
    try destruct (n =? 0); cbn;
    repeat (split; [reflexivity|]);
    try apply same_entities_refl;
    unfold same_entities; cbn; repeat split; try reflexivity;
    symmetry; apply js_sort_perm.
Qed.

Lemma getMarketOpportunities_returns args : returns (getMarketOpportunities args).
Proof.
  intros w. unfold outcome, getMarketOpportunities. cbn.
  destruct (MarketOpportunitiesArgs.status args) as [st|]; cbn;
    destruct (MarketOpportunitiesArgs.limit args) as [n|]; cbn;
    try destruct (n =? 0); eexists; reflexivity.
Qed.

(** The [forEach] over the listed turns goes through when every turn
    carries its list of decisions, and throws on the first that does
    not; it changes nothing in either case. *)
Lemma for_of_render_turn (turns : list ConversationTurn.t) (w : World) :
  (Forall lists_decisions turns /\ for_of turns render_turn w = (Ok tt, w)) \/
  (~ Forall lists_decisions turns /\
   exists msg, for_of turns render_turn w = (Throw msg, w)).
Proof.
  induction turns as [|turn turns IH].
  - left. split; [constructor|reflexivity].
  - cbn [for_of]. unfold bind.
    assert (Hturn : render_turn turn w
                    = match Entities.decisions_made
                              (ConversationTurn.extracted_entities turn) with
                      | Some _ => (Ok tt, w)
                      | None =>
                          (Throw "TypeError: Cannot read properties of undefined (reading 'length')",
                           w)
                      end)
      by (unfold render_turn; destruct (Entities.decisions_made _); reflexivity).
    rewrite Hturn. clear Hturn.
    destruct (Entities.decisions_made (ConversationTurn.extracted_entities turn))
      as [made|] eqn:E.
    + destruct IH as [[Hall Hrun]|[Hnot Hrun]].
      * left. split; [|exact Hrun].
        constructor; [unfold lists_decisions; rewrite E; eauto|exact Hall].
      * right. split; [|exact Hrun].
        intros H. apply Forall_cons in H as [_ H]. exact (Hnot H).
    + right. split; [|eexists; reflexivity].
      intros H. apply Forall_cons in H as [[made H] _].
      unfold lists_decisions in H. rewrite E in H. discriminate.
Qed.

(** The run of a session query: it throws, before it has changed
    anything, when the history is asked for and a listed turn lacks its
    list of decisions; otherwise it answers from the store it has
    reordered. *)
Lemma getFullSessionContext_run (w : World) (args : FullSessionContextArgs.t) :
  let discoveries :=
    latest_first TechnicalDiscovery.timestamp (technical_discoveries (data w)) in
  let milestones :=
    latest_first ProgressMilestone.timestamp (progress_milestones (data w)) in
  let technical :=
    not_false (FullSessionContextArgs.include_technical_discoveries args) in
  (~ renders args w /\
   exists msg, getFullSessionContext args w = (Throw msg, w)) \/
  (renders args w /\
   getFullSessionContext args w
   = (Ok (SessionContext.mk (session_metadata (data w))
            (if not_false (FullSessionContextArgs.include_conversation_history args)
             then Some (listed_turns args w) else None)
            (if technical then Some (slice0 10 discoveries) else None)
            (if not_false (FullSessionContextArgs.include_active_blockers args)
             then Some (latest_first Blocker.timestamp
                          (filter (fun b => Blocker.status b <> resolved)
                             (blockers (data w))))
             else None)
            (slice0 5 milestones)),
      with_data
        (set_progress_milestones milestones
           (if technical then set_technical_discoveries discoveries (data w)
            else data w))
        w)).
Proof.
  intros discoveries milestones technical.
  unfold renders, getFullSessionContext. cbn.
  change (rev (slice0 _ (latest_first _ (filter _ (conversation_turns (data w))))))
    with (listed_turns args w).
  destruct (FullSessionContextArgs.include_conversation_history args) as [[]|];
    cbn [not_false].
  2: { right. split; [left; reflexivity|].
       subst technical. destruct (not_false _); reflexivity. }
  all: destruct (for_of_render_turn (listed_turns args w) w)
         as [[Hall Hrun]|[Hnot [msg Hrun]]].
  all: try (left; split; [intros [H|H]; [discriminate|exact (Hnot H)]|];
            exists msg; unfold bind; rewrite Hrun; reflexivity).
  all: right; (split; [right; exact Hall|]);
    unfold bind; rewrite Hrun; cbn;
    subst technical; destruct (not_false _); reflexivity.
Qed.

Lemma getFullSessionContext_answers args : answers_only (getFullSessionContext args).
Proof.
  intros w. unfold outcome, exec.
  destruct (getFullSessionContext_run w args) as [[_ [msg ->]]|[_ ->]]; cbn.
  - repeat (split; [reflexivity|]). apply same_entities_refl.
  - repeat (split; [reflexivity|]).
    destruct (not_false (FullSessionContextArgs.include_technical_discoveries args));
      unfold same_entities; cbn; repeat split; try reflexivity;
      symmetry; apply latest_first_perm.
Qed.

Lemma answers_reply {A} (m : M A) : answers_only m -> answers_only (_ <- m ;; ret tt).
Proof.
  intros Hm w. specialize (Hm w).
  unfold outcome, exec, bind in *. destruct (m w) as [[a|e] w1]; exact Hm.
Qed.

Lemma returns_reply {A} (m : M A) (w : World) :
  (exists r, outcome m w = Ok r) -> outcome (_ <- m ;; ret tt) w = Ok tt.
Proof.
  intros [r Hr]. unfold outcome, bind in *.
  destruct (m w) as [[a|e] w1]; cbn in *; [reflexivity|discriminate].
Qed.

Lemma query_answers_only (c : QueryCall) : answers_only (query c).
Proof.
  destruct c; cbn [query]; apply answers_reply.
  - apply getCurrentBusinessState_answers.
  - apply getAllServices_answers.
  - apply leaves_answers, getRevenueAnalytics_leaves_store.
  - apply leaves_answers, getPendingDecisions_leaves_store.
  - apply getMarketOpportunities_answers.
  - apply leaves_answers, getBusinessInsights_leaves_store.
  - apply getFullSessionContext_answers.
Qed.

Lemma query_answerable (c : QueryCall) (w : World) :
  answerable c w -> outcome (query c) w = Ok tt.
Proof.
  destruct c as [|a|a| |a|a|args]; cbn [query answerable]; intros Hc;
    apply returns_reply.
  - apply getCurrentBusinessState_returns.
  - apply getAllServices_returns.
  - apply leaves_returns, getRevenueAnalytics_leaves_store.
  - apply leaves_returns, getPendingDecisions_leaves_store.
  - apply getMarketOpportunities_returns.
  - apply leaves_returns, getBusinessInsights_leaves_store.
  - unfold outcome.
    destruct (getFullSessionContext_run w args) as [[Hnot _]|[_ ->]];
      [contradiction|eexists; reflexivity].
Qed.

Lemma query_not_answerable (c : QueryCall) (w : World) :
  ~ answerable c w ->
  exists msg, outcome (query c) w = Throw msg /\ exec (query c) w = w.
Proof.
  destruct c as [|a|a| |a|a|args]; cbn [query answerable]; intros Hc;
    try (exfalso; exact (Hc I)).
  unfold outcome, exec, bind.
  destruct (getFullSessionContext_run w args) as [[_ [msg ->]]|[Hr _]];
    [exists msg; split; reflexivity|contradiction].
Qed.

(** X1. No query tool persists anything.  Each of the seven read tools
    leaves the data file, the count of completed writes and the save
    stamp as they were and draws no uuid, and the graph in memory holds
    the same entities afterwards: the only thing a query may do to the
    store is rearrange a collection in place; transactions, decisions,
    conversation turns and blockers keep even their order.  Six of the
    seven always answer; [get_full_session_context] answers unless it is
    to list a conversation turn whose stored entities lack
    [decisions_made], in which case it throws and has changed nothing. *)
Theorem queries_never_persist (c : QueryCall) (w : World) :
  let w' := exec (query c) w in
  (answerable c w -> outcome (query c) w = Ok tt) /\
  (~ answerable c w -> exists msg, outcome (query c) w = Throw msg /\ w' = w) /\
  ((forall args, c <> get_full_session_context args) -> answerable c w) /\
  file w' = file w /\
  fs_writes w' = fs_writes w /\
  lastAutoSave w' = lastAutoSave w /\
  drawn w' = drawn w /\
  same_entities (data w) (data w') /\
  transactions (data w') = transactions (data w) /\
  decisions (data w') = decisions (data w) /\
  conversation_turns (data w') = conversation_turns (data w) /\
  blockers (data w') = blockers (data w) /\
  Permutation (services (data w')) (services (data w)).
Proof.
  intros w'.
  split; [apply query_answerable|].
  split; [apply query_not_answerable|].
  split.
  { intros Hc. destruct c as [|a|a| |a|a|args]; cbn; try exact I.
    exfalso. exact (Hc args eq_refl). }
  destruct (query_answers_only c w) as (Hf & Hn & _ & Hs & Hd & _ & Hsame).
  fold w' in Hf, Hn, Hs, Hd, Hsame.
  repeat (split; [assumption|]).
  destruct Hsame as (_ & Hsv & Htx & Hds & _ & _ & Hct & _ & Hbl & _).
  repeat split; try congruence. symmetry. exact Hsv.
Qed.

Lemma queries_never_persist_witness :
  let history := get_full_session_context (FullSessionContextArgs.mk None None None None) in
  answerable history conversation_world /\
  outcome (query history) conversation_world = Ok tt /\
  ~ answerable history partial_world /\
  (exists msg, outcome (query history) partial_world = Throw msg) /\
  exec (query history) partial_world = partial_world.
Proof.
  intros history.
  assert (Hyes : answerable history conversation_world).
  { right. vm_compute. repeat constructor. eexists. reflexivity. }
  assert (Hno : ~ answerable history partial_world).
  { intros [H|H]; [discriminate|]. vm_compute in H.
    apply Forall_cons in H as [[made H] _]. discriminate. }
  destruct (queries_never_persist history conversation_world) as (Hok & _).
  destruct (queries_never_persist history partial_world) as (_ & Hthrow & _).
  destruct (Hthrow Hno) as (msg & Hmsg & Hsame).
  split; [exact Hyes|]. split; [exact (Hok Hyes)|]. split; [exact Hno|].
  split; [exists msg; exact Hmsg|exact Hsame].
Defined.

(** ** Ordered answers *)

Lemma latest_first_sorted {A} (timestamp : A -> Z) (l : list A) :
  newest_first timestamp (latest_first timestamp l).
Proof.
  apply (js_sort_sorted _ _ (fun _ => True)).
  - intros x y z Hxy Hyz. lia.
  - intros x y _ _. destruct (Qle_bool _ 0) eqn:E.
    + apply Qle_bool_iff in E. unfold Qle, inject_Z in E. cbn in E. lia.
    + assert (H : ~ (inject_Z (timestamp y - timestamp x) <= 0)%Q)
        by (rewrite <- Qle_bool_iff; congruence).
      unfold Qle, inject_Z in H. cbn in H. lia.
  - apply Forall_forall. intros; exact I.
Qed.

Lemma by_revenue_sorted (l : list Service.t) :
  StronglySorted (fun a b => (Service.daily_revenue b <= Service.daily_revenue a)%Q)
    (js_sort (fun a b => (Service.daily_revenue b - Service.daily_revenue a)%Q) l).
Proof.
  apply (js_sort_sorted _ _ (fun _ => True)).
  - intros x y z Hxy Hyz. lra.
  - intros x y _ _. destruct (Qle_bool _ 0) eqn:E.
    + apply Qle_bool_iff in E. lra.
    + assert (H : ~ (Service.daily_revenue y - Service.daily_revenue x <= 0)%Q)
        by (rewrite <- Qle_bool_iff; congruence).
      lra.
  - apply Forall_forall. intros; exact I.
Qed.

(** X2. [get_all_services] lists the selected services (all of them, or
    those with the requested status) in descending [daily_revenue] order.
    Its totals are the revenues and the costs of the listed services,
    each added up from 0 in the order of the answer, and the profit is
    the difference of the two totals.  With a status filter the store is
    left as it is; without one the stored array itself is sorted, so the
    services are kept in memory in the order of the answer. *)
Theorem getAllServices_ranked (w : World) (args : AllServicesArgs.t) :
  let w' := exec (getAllServices args) w in
  exists p,
    outcome (getAllServices args) w = Ok p /\
    Permutation (Portfolio.listed p) (selected_services args w) /\
    StronglySorted (fun a b => (Service.daily_revenue b <= Service.daily_revenue a)%Q)
      (Portfolio.listed p) /\
    Portfolio.totalRevenue p = sum_by Service.daily_revenue (Portfolio.listed p) /\
    Portfolio.totalCosts p = sum_by Service.daily_costs (Portfolio.listed p) /\
    Portfolio.totalProfit p = (Portfolio.totalRevenue p - Portfolio.totalCosts p)%Q /\
    match AllServicesArgs.status_filter args with
    | Some st =>
        w' = w /\ Forall (fun s => Service.status s = st) (Portfolio.listed p)
    | None =>
        services (data w') = Portfolio.listed p /\ fs_writes w' = fs_writes w
    end.
Proof.
  intros w'. subst w'. unfold outcome, exec, getAllServices, selected_services. cbn.
  destruct (AllServicesArgs.status_filter args) as [st|]; cbn.
  - eexists. split; [reflexivity|]. cbn.
    split; [apply js_sort_perm|]. split; [apply by_revenue_sorted|].
    do 3 (split; [reflexivity|]). split; [reflexivity|].
    apply Forall_forall. intros s Hs.
    rewrite js_sort_perm in Hs. apply list_elem_of_filter in Hs. apply Hs.
  - eexists. split; [reflexivity|]. cbn.
    split; [apply js_sort_perm|]. split; [apply by_revenue_sorted|].
    do 3 (split; [reflexivity|]). split; reflexivity.
Qed.

Lemma getPendingDecisions_exact_aux (w : World) :
  exists out,
    outcome getPendingDecisions w = Ok out /\
    (forall d, d ∈ out <-> d ∈ decisions (data w) /\ Decision.outcome d = pending).
Proof.
  eexists. split; [reflexivity|].
  intros d. rewrite (latest_first_perm Decision.timestamp).
  rewrite list_elem_of_filter. tauto.
Qed.

(** X3. [get_pending_decisions] returns exactly the stored decisions whose
    outcome is [pending], latest first, and changes nothing, not even the
    order of the stored decisions. *)
Theorem getPendingDecisions_exact (w : World) :
  exists out,
    outcome getPendingDecisions w = Ok out /\
    exec getPendingDecisions w = w /\
    Permutation out (filter (fun d => Decision.outcome d = pending) (decisions (data w))) /\
    (forall d, d ∈ out <-> d ∈ decisions (data w) /\ Decision.outcome d = pending) /\
    newest_first Decision.timestamp out.
Proof.
  eexists. split; [reflexivity|]. split; [reflexivity|].
  split; [apply latest_first_perm|].
  split; [|apply latest_first_sorted].
  intros d. rewrite (latest_first_perm Decision.timestamp).
  rewrite list_elem_of_filter. tauto.
Qed.

(** ** The current business state *)

Lemma slice0_take {A} (n : nat) (l : list A) : slice0 (Z.of_nat n) l = take n l.
Proof.
  unfold slice0. destruct (Z.ltb_spec (Z.of_nat n) 0); [lia|].
  rewrite Nat2Z.id. reflexivity.
Qed.

Lemma slice0_length {A} (n : Z) (l : list A) :
  0 <= n -> (length (slice0 n l) <= Z.to_nat n)%nat.
Proof.
  intros Hn. unfold slice0. destruct (Z.ltb_spec n 0); [lia|].
  rewrite length_take. lia.
Qed.

Lemma slice0_subseteq {A} (n : Z) (l : list A) (x : A) : x ∈ slice0 n l -> x ∈ l.
Proof.
  unfold slice0. destruct (n <? 0); intros H; eapply subseteq_take; exact H.
Qed.

(** The head of an array sorted latest first carries the largest
    timestamp of the array. *)
Lemma latest_first_head {A} (timestamp : A -> Z) (l : list A) (h : A) (rest : list A) :
  latest_first timestamp l = h :: rest ->
  h ∈ l /\ Forall (fun s => timestamp s <= timestamp h) l.
Proof.
  intros E. pose proof (latest_first_sorted timestamp l) as Hs.
  pose proof (latest_first_perm timestamp l) as Hp.
  rewrite E in Hs, Hp. split.
  - rewrite <- Hp. left.
  - rewrite <- Hp. apply StronglySorted_inv in Hs as [_ Hrest].
    constructor; [lia|exact Hrest].
Qed.

Lemma latest_first_nil {A} (timestamp : A -> Z) (l : list A) :
  latest_first timestamp l = [] -> l = [].
Proof.
  intros E. pose proof (latest_first_perm timestamp l) as Hp. rewrite E in Hp.
  apply Permutation_nil in Hp. exact Hp.
Qed.

(** X4. [get_current_business_state] answers "no previous state" exactly
    when no business state is stored, and then reads no clock.  Otherwise
    it reports a stored state that carries the largest timestamp, at most
    five services (those updated last, latest first), at most three
    decisions, all of the last 24 hours, and the transactions of the last
    24 hours. *)
Theorem getCurrentBusinessState_latest (w : World) :
  let w' := exec getCurrentBusinessState w in
  let last24Hours := clock w (reads w) - 24 * 60 * 60 * 1000 in
  (business_states (data w) = [] ->
   outcome getCurrentBusinessState w = Ok None /\ reads w' = reads w) /\
  (business_states (data w) <> [] ->
   exists r,
     outcome getCurrentBusinessState w = Ok (Some r) /\
     BusinessStateReport.latestState r ∈ business_states (data w) /\
     Forall (fun s => BusinessState.timestamp s
                      <= BusinessState.timestamp (BusinessStateReport.latestState r))
       (business_states (data w)) /\
     (length (BusinessStateReport.recentServices r) <= 5)%nat /\
     BusinessStateReport.recentServices r
       = take 5 (latest_first Service.updated_at (services (data w))) /\
     newest_first Service.updated_at (BusinessStateReport.recentServices r) /\
     (length (BusinessStateReport.recentDecisions r) <= 3)%nat /\
     Forall (fun d => d ∈ decisions (data w) /\ last24Hours <= Decision.timestamp d)
       (BusinessStateReport.recentDecisions r) /\
     BusinessStateReport.recentTransactions r
       = filter (fun t => last24Hours <= Transaction.timestamp t) (transactions (data w))).
Proof.
  intros w' last24Hours. subst w'.
  unfold outcome, exec, getCurrentBusinessState. cbn.
  destruct (latest_first BusinessState.timestamp (business_states (data w)))
    as [|latestState rest] eqn:E; cbn.
  - split; [intros _; split; reflexivity|].
    intros Hne. apply latest_first_nil in E. contradiction.
  - split.
    { intros Hnil. rewrite Hnil in E. discriminate. }
    intros _. eexists. split; [reflexivity|]. cbn.
    destruct (latest_first_head _ _ _ _ E) as [Hin Hmax].
    split; [exact Hin|]. split; [exact Hmax|].
    split; [apply (slice0_length 5); lia|].
    split; [apply (slice0_take 5)|].
    split; [apply StronglySorted_slice0, latest_first_sorted|].
    split; [apply (slice0_length 3); lia|].
    split; [|reflexivity].
    apply Forall_forall. intros d Hd. apply slice0_subseteq in Hd.
    apply list_elem_of_filter in Hd. fold last24Hours. tauto.
Qed.

Lemma getCurrentBusinessState_latest_witness :
  let args := SaveBusinessStateArgs.mk "first day" (Some ["ship"]) None None in
  let w := exec (saveBusinessState args) boot_world in
  business_states (data w) <> [] /\
  exists r,
    outcome getCurrentBusinessState w = Ok (Some r) /\
    BusinessState.session_summary (BusinessStateReport.latestState r) = "first day".
Proof.
  intros args w.
  assert (Hne : business_states (data w) <> []) by (vm_compute; discriminate).
  split; [exact Hne|].
  destruct (getCurrentBusinessState_latest w) as [_ Hsome].
  destruct (Hsome Hne) as (r & Hok & Hin & _).
  exists r. split; [exact Hok|].
  assert (Hall : Forall (fun s => BusinessState.session_summary s = "first day")
                   (business_states (data w))).
  { vm_compute. repeat constructor. }
  rewrite Forall_forall in Hall. apply Hall, Hin.
Defined.

Lemma saveBusinessState_run (w : World) (args : SaveBusinessStateArgs.t) :
  let w' := exec (saveBusinessState args) w in
  let businessState :=
    BusinessState.mk (uuid_source w (drawn w)) (clock w (reads w))
      (sum_by Transaction.amount
         (filter (fun t => startOfDay (tz_offset w) (clock w (S (reads w)))
                           <= Transaction.timestamp t)
            (transactions (data w))))
      (length (filter (fun s => Service.status s = active) (services (data w))))
      (orObj (SaveBusinessStateArgs.pending_decisions args) [])
      (orObj (SaveBusinessStateArgs.current_priorities args) [])
      (SaveBusinessStateArgs.session_summary args)
      (orObj (SaveBusinessStateArgs.optimization_strategies args) [])
      (BusinessState.mk_risk 0 0 0) in
  outcome (saveBusinessState args) w = Ok (uuid_source w (drawn w)) /\
  business_states (data w') = business_states (data w) ++ [businessState] /\
  services (data w') = services (data w) /\
  decisions (data w') = decisions (data w) /\
  transactions (data w') = transactions (data w).
Proof.
  intros w' businessState. subst w'.
  unfold outcome, exec, saveBusinessState. run. through_saves.
  repeat split; reflexivity.
Qed.

(** X5. Save and read back: when the clock reading that stamps a
    [save_business_state] is later than the timestamp of every stored
    state, the next [get_current_business_state] reports the state just
    saved (its id is the one returned to the caller, with the summary and
    priorities passed in, the number of active services and the revenue
    of the transactions stamped since local midnight). *)
Theorem saved_state_is_current (w : World) (args : SaveBusinessStateArgs.t) :
  Forall (fun s => BusinessState.timestamp s < clock w (reads w))
    (business_states (data w)) ->
  let w1 := exec (saveBusinessState args) w in
  exists id r,
    outcome (saveBusinessState args) w = Ok id /\
    outcome getCurrentBusinessState w1 = Ok (Some r) /\
    BusinessState.id (BusinessStateReport.latestState r) = id /\
    BusinessState.timestamp (BusinessStateReport.latestState r) = clock w (reads w) /\
    BusinessState.session_summary (BusinessStateReport.latestState r)
      = SaveBusinessStateArgs.session_summary args /\
    BusinessState.current_priorities (BusinessStateReport.latestState r)
      = orObj (SaveBusinessStateArgs.current_priorities args) [] /\
    BusinessState.active_services (BusinessStateReport.latestState r)
      = length (filter (fun s => Service.status s = active) (services (data w))) /\
    BusinessState.total_revenue (BusinessStateReport.latestState r)
      = sum_by Transaction.amount
          (filter (fun t => startOfDay (tz_offset w) (clock w (S (reads w)))
                            <= Transaction.timestamp t)
             (transactions (data w))).
Proof.
  intros Hold w1.
  destruct (saveBusinessState_run w args) as (Hok & Hbs & _).
  fold w1 in Hbs. set (bs := BusinessState.mk _ _ _ _ _ _ _ _ _) in Hbs.
  clearbody w1.
  exists (uuid_source w (drawn w)).
  unfold outcome, getCurrentBusinessState. cbn. rewrite Hbs.
  destruct (latest_first BusinessState.timestamp (business_states (data w) ++ [bs]))
    as [|h rest] eqn:E.
  { apply latest_first_nil in E. destruct (business_states (data w)); discriminate. }
  cbn. destruct (latest_first_head _ _ _ _ E) as [Hin Hmax].
  assert (Hh : h = bs).
  { apply elem_of_app in Hin as [Hin|Hin].
    - rewrite Forall_forall in Hold, Hmax. specialize (Hold h Hin).
      assert (Hbs' : bs ∈ business_states (data w) ++ [bs])
        by (apply elem_of_app; right; left).
      specialize (Hmax bs Hbs'). subst bs. cbn in Hmax. lia.
    - apply list_elem_of_singleton in Hin. exact Hin. }
  subst h. eexists. split; [exact Hok|]. split; [reflexivity|].
  cbn. repeat split; reflexivity.
Qed.

Lemma saved_state_is_current_witness :
  let args := SaveBusinessStateArgs.mk "first day" (Some ["ship"]) None None in
  Forall (fun s => BusinessState.timestamp s < clock boot_world (reads boot_world))
    (business_states (data boot_world)) /\
  exists r,
    outcome getCurrentBusinessState (exec (saveBusinessState args) boot_world)
      = Ok (Some r) /\
    BusinessState.id (BusinessStateReport.latestState r) = "id-0" /\
    BusinessState.session_summary (BusinessStateReport.latestState r) = "first day" /\
    BusinessState.current_priorities (BusinessStateReport.latestState r) = ["ship"].
Proof.
  intros args.
  assert (Hold : Forall (fun s => BusinessState.timestamp s
                                  < clock boot_world (reads boot_world))
                   (business_states (data boot_world))) by constructor.
  split; [exact Hold|].
  destruct (saved_state_is_current boot_world args Hold)
    as (id & r & Hid & Hok & H1 & _ & H2 & H3 & _).
  exists r. split; [exact Hok|].
  assert (Hid' : id = "id-0").
  { assert (E : outcome (saveBusinessState args) boot_world = Ok "id-0")
      by (vm_compute; reflexivity).
    rewrite E in Hid. injection Hid as <-. reflexivity. }
  split; [rewrite H1; exact Hid'|]. split; [exact H2|exact H3].
Defined.

(** ** Restoring the session context *)

Lemma StronglySorted_snoc {A} (R : A -> A -> Prop) (l : list A) (x : A) :
  StronglySorted R l -> Forall (fun y => R y x) l -> StronglySorted R (l ++ [x]).
Proof.
  induction 1 as [|y l Hs IH Hy]; intros Hx; cbn.
  - repeat constructor.
  - apply Forall_cons in Hx as [Hyx Hx]. constructor; [apply IH, Hx|].
    apply Forall_app. split; [exact Hy|]. repeat constructor. exact Hyx.
Qed.

Lemma StronglySorted_rev {A} (R : A -> A -> Prop) (l : list A) :
  StronglySorted R l -> StronglySorted (fun a b => R b a) (rev l).
Proof.
  induction 1 as [|y l Hs IH Hy]; cbn; [constructor|].
  apply StronglySorted_snoc; [exact IH|].
  apply Forall_forall. intros z Hz. rewrite Forall_forall in Hy.
  apply Hy. apply list_elem_of_In in Hz. apply in_rev in Hz.
  apply list_elem_of_In. exact Hz.
Qed.

(** In a sorted array every element of a prefix is related to every
    element of the rest. *)
Lemma StronglySorted_take_drop {A} (R : A -> A -> Prop) (n : nat) (l : list A) :
  StronglySorted R l -> Forall (fun a => Forall (R a) (drop n l)) (take n l).
Proof.
  intros Hs. revert n. induction Hs as [|x l Hs IH Hx]; intros [|n]; cbn;
    try constructor.
  - apply Forall_drop, Hx.
  - apply IH.
Qed.

Lemma listed_turns_subseteq (args : FullSessionContextArgs.t) (w : World)
    (turn : ConversationTurn.t) :
  turn ∈ listed_turns args w -> turn ∈ conversation_turns (data w).
Proof.
  unfold listed_turns. intros H.
  apply list_elem_of_In, in_rev, list_elem_of_In in H.
  apply slice0_subseteq in H.
  rewrite (latest_first_perm ConversationTurn.timestamp) in H.
  apply list_elem_of_filter in H. apply H.
Qed.

(** A store all of whose turns carry their list of decisions can be
    rendered, whatever the query asks for. *)
Lemma complete_turns_render (args : FullSessionContextArgs.t) (w : World) :
  Forall lists_decisions (conversation_turns (data w)) -> renders args w.
Proof.
  intros Hall. right. apply Forall_forall. intros turn Hturn.
  rewrite Forall_forall in Hall. eapply Hall, listed_turns_subseteq, Hturn.
Qed.

Lemma getFullSessionContext_active_aux (w : World) (args : FullSessionContextArgs.t) :
  renders args w ->
  FullSessionContextArgs.include_active_blockers args <> Some false ->
  exists r active,
    outcome (getFullSessionContext args) w = Ok r /\
    SessionContext.activeBlockers r = Some active /\
    (forall b, b ∈ active <-> b ∈ blockers (data w) /\ Blocker.status b <> resolved) /\
    newest_first Blocker.timestamp active.
Proof.
  intros Hr Hinc. unfold outcome.
  destruct (getFullSessionContext_run w args) as [[Hnot _]|[_ ->]]; [contradiction|].
  assert (Hb : not_false (FullSessionContextArgs.include_active_blockers args) = true)
    by (destruct (FullSessionContextArgs.include_active_blockers args) as [[]|];
        [reflexivity|contradiction|reflexivity]).
  cbn. rewrite Hb. eexists _, _. split; [reflexivity|]. split; [reflexivity|].
  split; [|apply latest_first_sorted].
  intros b. rewrite (latest_first_perm Blocker.timestamp).
  rewrite list_elem_of_filter. tauto.
Qed.

(** X6. [get_full_session_context] fails in one case only: when it is to
    list a conversation turn whose stored entities lack [decisions_made]
    (the caller of [log_conversation_turn] may send such entities); it
    then throws and has changed nothing.  Otherwise it answers and, unless
    switched off, returns the conversation turns of the current session
    only: the [max_conversation_turns] latest of them (50 when the
    argument is absent or 0), oldest first.  The active blockers are
    exactly the stored blockers whose status is not [resolved] (an
    [escalated] one included), latest first; at most ten discoveries and
    five milestones are returned, latest first. *)
Theorem getFullSessionContext_recent (w : World) (args : FullSessionContextArgs.t) :
  let current := SessionMetadata.current_session_id (session_metadata (data w)) in
  let of_session :=
    filter (fun turn => ConversationTurn.session_id turn = current)
      (conversation_turns (data w)) in
  let maxTurns := orZ (FullSessionContextArgs.max_conversation_turns args) 50 in
  (~ renders args w ->
   exists msg,
     outcome (getFullSessionContext args) w = Throw msg /\
     exec (getFullSessionContext args) w = w) /\
  (renders args w ->
   exists r,
    outcome (getFullSessionContext args) w = Ok r /\
    SessionContext.session r = session_metadata (data w) /\
    (FullSessionContextArgs.include_conversation_history args = Some false ->
     SessionContext.recentTurns r = None) /\
    (FullSessionContextArgs.include_conversation_history args <> Some false ->
     0 < maxTurns ->
     exists turns older,
       SessionContext.recentTurns r = Some turns /\
       Permutation (older ++ turns) of_session /\
       length turns = (Z.to_nat maxTurns `min` length of_session)%nat /\
       StronglySorted
         (fun a b => ConversationTurn.timestamp a <= ConversationTurn.timestamp b) turns /\
       Forall (fun o => Forall (fun t => ConversationTurn.timestamp o
                                         <= ConversationTurn.timestamp t) turns) older /\
       Forall lists_decisions turns) /\
    (FullSessionContextArgs.include_active_blockers args <> Some false ->
     exists bs,
       SessionContext.activeBlockers r = Some bs /\
       (forall b, b ∈ bs <-> b ∈ blockers (data w) /\ Blocker.status b <> resolved) /\
       newest_first Blocker.timestamp bs) /\
    (forall found, SessionContext.recentDiscoveries r = Some found ->
       (length found <= 10)%nat /\ newest_first TechnicalDiscovery.timestamp found) /\
    (length (SessionContext.recentMilestones r) <= 5)%nat /\
    newest_first ProgressMilestone.timestamp (SessionContext.recentMilestones r)).
Proof.
  intros current of_session maxTurns.
  unfold outcome, exec.
  destruct (getFullSessionContext_run w args) as [[Hnot [msg ->]]|[Hr ->]].
  { split; [intros _; exists msg; split; reflexivity|].
    intros H. contradiction. }
  split; [intros H; contradiction|]. intros _.
  eexists. split; [reflexivity|]. cbn. split; [reflexivity|].
  split; [intros ->; reflexivity|].
  split; [|split; [|split; [|split]]].
  - intros Hinc Hmax.
    assert (Hc : not_false (FullSessionContextArgs.include_conversation_history args)
                 = true)
      by (destruct (FullSessionContextArgs.include_conversation_history args)
            as [[]|]; [reflexivity|contradiction|reflexivity]).
    rewrite Hc.
    assert (Hall : Forall lists_decisions (listed_turns args w))
      by (destruct Hr as [Hoff|Hall]; [contradiction|exact Hall]).
    unfold listed_turns in *. fold current of_session maxTurns in Hall |- *.
    set (sorted := latest_first ConversationTurn.timestamp of_session) in *.
    assert (Hcut : slice0 maxTurns sorted = take (Z.to_nat maxTurns) sorted)
      by (unfold slice0; destruct (Z.ltb_spec maxTurns 0); [lia|reflexivity]).
    rewrite Hcut in Hall |- *.
    exists (rev (take (Z.to_nat maxTurns) sorted)), (drop (Z.to_nat maxTurns) sorted).
    split; [reflexivity|].
    pose proof (latest_first_sorted ConversationTurn.timestamp of_session) as Hs.
    fold sorted in Hs.
    split; [rewrite <- (latest_first_perm ConversationTurn.timestamp of_session);
            fold sorted;
            rewrite <- (take_drop (Z.to_nat maxTurns) sorted) at 3;
            rewrite <- Permutation_rev; apply Permutation_app_comm|].
    split; [rewrite length_rev, length_take;
            unfold sorted; rewrite (latest_first_perm ConversationTurn.timestamp);
            reflexivity|].
    split; [apply (StronglySorted_rev
                     (fun a b => ConversationTurn.timestamp b
                                 <= ConversationTurn.timestamp a)),
                  StronglySorted_take, Hs|].
    split; [|exact Hall].
    pose proof (StronglySorted_take_drop _ (Z.to_nat maxTurns) _ Hs) as Htd.
    apply Forall_forall; intros o Ho; apply Forall_forall; intros t Ht.
    rewrite Forall_forall in Htd.
    apply list_elem_of_In, in_rev, list_elem_of_In in Ht.
    specialize (Htd t Ht); rewrite Forall_forall in Htd; apply Htd, Ho.
  - intros Hinc.
    assert (Hb : not_false (FullSessionContextArgs.include_active_blockers args) = true)
      by (destruct (FullSessionContextArgs.include_active_blockers args)
            as [[]|]; [reflexivity|contradiction|reflexivity]).
    rewrite Hb. eexists. split; [reflexivity|].
    split; [|apply latest_first_sorted].
    intros b. rewrite (latest_first_perm Blocker.timestamp).
    rewrite list_elem_of_filter. tauto.
  - intros found.
    destruct (not_false (FullSessionContextArgs.include_technical_discoveries args));
      [|discriminate].
    intros [= <-]. split; [apply (slice0_length 10); lia|].
    apply StronglySorted_slice0, latest_first_sorted.
  - apply (slice0_length 5). lia.
  - apply StronglySorted_slice0, latest_first_sorted.
Qed.

Lemma getFullSessionContext_recent_witness :
  let args := FullSessionContextArgs.mk None None None None in
  renders args conversation_world /\
  0 < orZ (FullSessionContextArgs.max_conversation_turns args) 50 /\
  (exists r turns,
     outcome (getFullSessionContext args) conversation_world = Ok r /\
     SessionContext.recentTurns r = Some turns /\
     length turns = 1%nat) /\
  ~ renders args partial_world /\
  exists msg, outcome (getFullSessionContext args) partial_world = Throw msg.
Proof.
  intros args.
  assert (Hyes : renders args conversation_world).
  { right. vm_compute. repeat constructor. eexists. reflexivity. }
  assert (Hno : ~ renders args partial_world).
  { intros [H|H]; [discriminate|]. vm_compute in H.
    apply Forall_cons in H as [[made H] _]. discriminate. }
  assert (Hinc : FullSessionContextArgs.include_conversation_history args <> Some false)
    by discriminate.
  assert (Hmax : 0 < orZ (FullSessionContextArgs.max_conversation_turns args) 50)
    by reflexivity.
  split; [exact Hyes|]. split; [exact Hmax|].
  destruct (getFullSessionContext_recent conversation_world args) as [_ Hanswer].
  destruct (Hanswer Hyes) as (r & Hok & _ & _ & Hturns & _).
  destruct (Hturns Hinc Hmax) as (turns & older & Hr & _ & Hlen & _).
  split.
  { exists r, turns. split; [exact Hok|]. split; [exact Hr|].
    rewrite Hlen. vm_compute. reflexivity. }
  split; [exact Hno|].
  destruct (getFullSessionContext_recent partial_world args) as [Hthrow _].
  destruct (Hthrow Hno) as (msg & Hmsg & _). exists msg. exact Hmsg.
Defined.

(** ** Business insights *)

#[local] Arguments sum_by : simpl never.
#[local] Arguments Qnat : simpl never.
#[local] Arguments Qltb : simpl never.

Lemma Qnat_nonzero (n : nat) : (0 < n)%nat -> ~ (Qnat n == 0)%Q.
Proof.
  intros Hn H. unfold Qnat, Qeq, inject_Z in H. cbn in H. lia.
Qed.

Lemma Qnat_le (a b : nat) : (a <= b)%nat -> (Qnat a <= Qnat b)%Q.
Proof. intros H. unfold Qnat, Qle, inject_Z. cbn. lia. Qed.

Lemma Qnat_pos (n : nat) : (0 < n)%nat -> (0 < Qnat n)%Q.
Proof. intros H. unfold Qnat, Qlt, inject_Z. cbn. lia. Qed.

(** A share of a whole, as a percentage. *)
Lemma Qnat_share (a b : nat) :
  (0 < b)%nat -> (a <= b)%nat -> (0 <= Qnat a / Qnat b * 100 <= 100)%Q.
Proof.
  intros Hb Hab. pose proof (Qnat_pos b Hb) as Hpos.
  pose proof (Qnat_le a b Hab) as Hle.
  assert (H0 : (0 <= Qnat a)%Q) by (apply (Qnat_le 0 a); lia).
  assert (Hlo : (0 <= Qnat a / Qnat b)%Q)
    by (apply Qle_shift_div_l; [exact Hpos|lra]).
  assert (Hhi : (Qnat a / Qnat b <= 1)%Q)
    by (apply Qle_shift_div_r; [exact Hpos|lra]).
  split; lra.
Qed.

(** X7. [get_business_insights] never divides by zero, whatever the store
    holds: the success rate and the average satisfaction are computed only
    when there is an active service, and then their divisors (the number
    of services, the number of active services) are not 0.  The
    revenue section is part of the answer when the focus is absent or
    [revenue], the portfolio section when it is [services]; the success
    rate lies between 0 and 100. *)
Theorem getBusinessInsights_divisions (w : World) (args : BusinessInsightsArgs.t) :
  let w' := exec (getBusinessInsights args) w in
  exists r,
    outcome (getBusinessInsights args) w = Ok r /\
    Forall (fun q => ~ (q == 0)%Q) (drop (length (divisors w)) (divisors w')) /\
    (Insights.revenue r <> None <->
     BusinessInsightsArgs.focus_area args = None \/
     BusinessInsightsArgs.focus_area args = Some focus_revenue) /\
    (Insights.portfolio r <> None <->
     BusinessInsightsArgs.focus_area args = Some focus_services) /\
    (forall p, Insights.portfolio r = Some p ->
       (0 <= Insights.success_rate p <= 100)%Q /\
       Insights.active_count p
         = length (filter (fun s => Service.status s = active) (services (data w)))).
Proof.
  intros w'. subst w'. unfold outcome, exec, getBusinessInsights.
  pose proof (length_filter (fun s => Service.status s = active) (services (data w)))
    as Hle.
  destruct args as [[[]|]]; cbn; repeat case_bool_decide; try congruence; cbn;
    set (activeServices :=
           filter (fun s => Service.status s = active) (services (data w))) in *;
    destruct (length activeServices) as [|n] eqn:Hact; cbn;
    (eexists; split; [reflexivity|]; cbn);
    rewrite <- ?app_assoc, ?drop_app_length, ?drop_all;
    (split; [repeat (once constructor; [apply Qnat_nonzero; lia|]); once constructor|]);
    (split; [intuition congruence|]);
    (split; [intuition congruence|]);
    intros p Hp; try discriminate; injection Hp as <-; cbn;
    (split; [first [apply Qnat_share; lia | split; lra] | congruence]).
Qed.

Lemma filter_none {A} (P : A -> Prop) `{forall x, Decision (P x)} (l : list A) :
  Forall (fun x => ~ P x) l -> filter P l = [].
Proof.
  induction 1 as [|x l Hx _ IH]; [reflexivity|].
  rewrite filter_cons. destruct (decide (P x)); [contradiction|exact IH].
Qed.

(** X8. With no active service the daily profit is 0 and no average can
    be formed: [get_business_insights] divides by nothing, yet it always
    recommends customer acquisition and more services ("current: 0") and
    ends with the low-satisfaction warning for an average of 0, although
    there is no service to rate. *)
Theorem getBusinessInsights_no_active_service
    (w : World) (args : BusinessInsightsArgs.t) :
  Forall (fun s => Service.status s <> active) (services (data w)) ->
  exists r others,
    outcome (getBusinessInsights args) w = Ok r /\
    divisors (exec (getBusinessInsights args) w) = divisors w /\
    Insights.recommendations r
      = focus_on_customer_acquisition :: deploy_more_services 0
          :: others ++ [satisfaction_low 0] /\
    Forall (fun line => exists n, line = ready_for_scaling n \/
                                  line = high_risk_pending n \/
                                  line = new_opportunities n) others /\
    (forall p, Insights.portfolio r = Some p ->
       Insights.active_count p = 0%nat /\ Insights.success_rate p = 0%Q).
Proof.
  intros Hnone. apply (filter_none (fun s => Service.status s = active)) in Hnone.
  unfold outcome, exec, getBusinessInsights.
  destruct args as [[[]|]]; cbn; repeat case_bool_decide; try congruence; cbn;
    rewrite Hnone; cbn;
    (eexists; eexists; split; [reflexivity|]; split; [reflexivity|]; cbn);
    (split; [rewrite !app_assoc; reflexivity|]);
    (split; [|intros p Hp; try discriminate; injection Hp as <-; split; reflexivity]);
    repeat (apply Forall_app; split);
    repeat match goal with
           | |- context [if ?b then _ else _] => destruct b
           end;
    repeat constructor; eexists; eauto.
Qed.

Lemma getBusinessInsights_no_active_service_witness :
  let args := BusinessInsightsArgs.mk None in
  Forall (fun s => Service.status s <> active) (services (data boot_world)) /\
  exists r,
    outcome (getBusinessInsights args) boot_world = Ok r /\
    Insights.recommendations r
      = [focus_on_customer_acquisition; deploy_more_services 0; satisfaction_low 0].
Proof.
  intros args.
  assert (Hnone : Forall (fun s => Service.status s <> active)
                    (services (data boot_world))) by constructor.
  split; [exact Hnone|].
  destruct (getBusinessInsights_no_active_service boot_world args Hnone)
    as (r & others & Hok & _ & Hrec & _).
  exists r. split; [exact Hok|].
  assert (E : outcome (getBusinessInsights args) boot_world
              = Ok (Insights.mk
                      (Some (Insights.mk_revenue 0 0 0 (0 - 0)))
                      None
                      [focus_on_customer_acquisition; deploy_more_services 0;
                       satisfaction_low 0]))
    by reflexivity.
  rewrite E in Hok. injection Hok as <-. reflexivity.
Defined.

(** ** Relations kept along a run *)

Section Respects.
Context (R : World -> World -> Prop) (HR : tracked R).

Lemma respects_ret {A} (a : A) : respects R (ret a).
Proof. intros w. apply (tracked_refl R HR). Qed.

Lemma respects_throw {A} (msg : string) : respects R (@throw A msg).
Proof. intros w. apply (tracked_refl R HR). Qed.

Lemma respects_gets {A} (f : World -> A) : respects R (gets f).
Proof. intros w. apply (tracked_refl R HR). Qed.

Lemma respects_bind {A B} (m : M A) (k : A -> M B) :
  respects R m -> (forall a, respects R (k a)) -> respects R (bind m k).
Proof.
  intros Hm Hk w. specialize (Hm w). unfold exec, bind in *.
  destruct (m w) as [[a|e] w1]; cbn in *; [|exact Hm].
  eapply (tracked_trans R HR); [exact Hm|]. apply (Hk a w1).
Qed.

Lemma respects_Date_now : respects R Date_now.
Proof. intros w. apply (tracked_read R HR). Qed.

Lemma respects_uuidv4 : respects R uuidv4.
Proof. intros w. apply (tracked_drawn R HR). Qed.

Lemma respects_saveData : respects R saveData.
Proof. intros w. apply (tracked_saved R HR). Qed.

Lemma respects_for_of {A} (l : list A) (body : A -> M unit) :
  (forall x, respects R (body x)) -> respects R (for_of l body).
Proof.
  intros H. induction l as [|x l IH]; cbn [for_of].
  - apply respects_ret.
  - apply respects_bind; [apply H|]. intros _. exact IH.
Qed.

Lemma respects_modify_data (f : RevBotData -> RevBotData) :
  (forall w, R w (with_data (f (data w)) w)) -> respects R (modify_data f).
Proof. intros H w. apply H. Qed.

End Respects.

(** Walks through a method body; [side] settles what an assignment to
    the store does to the relation. *)
Ltac walk HR side :=
  repeat first
    [ progress intros
    | apply (respects_ret _ HR)
    | apply (respects_throw _ HR)
    | apply (respects_gets _ HR)
    | apply (respects_Date_now _ HR)
    | apply (respects_uuidv4 _ HR)
    | apply (respects_saveData _ HR)
    | apply (respects_bind _ HR)
    | apply (respects_for_of _ HR)
    | apply (respects_modify_data _); solve [side]
    | match goal with
      | |- respects _ (match ?x with _ => _ end) => destruct x
      | |- respects _ (when ?b _) => destruct b; cbn [when]
      end ].

Ltac unfold_methods :=
  unfold call, registerService, updateServicePerformance, recordTransaction,
    updateServiceRevenue, logDecision, recordMarketOpportunity, logConversationTurn,
    autoCaptureContext, logBlocker, resolveBlocker, logProgressMilestone,
    logTechnicalDiscovery, saveBusinessState, logDecisionInternal, assign_if_defined,
    service_at, modify_service, modify_blocker, todayStart_now.

(** *** A disk that rejects writes *)

Lemma saved_unwritable (w : World) :
  fs_writable w = false ->
  file (saved w) = file w /\ fs_writes (saved w) = fs_writes w /\
  lastAutoSave (saved w) = lastAutoSave w.
Proof.
  unfold saved, exec, saveData, catch, bind, writeFileSync; cbn.
  intros ->. repeat split.
Qed.

Lemma disk_untouched_tracked : tracked disk_untouched.
Proof.
  constructor; unfold disk_untouched.
  - intros w Hw. repeat split. exact Hw.
  - intros w1 w2 w3 H12 H23 Hw.
    destruct (H12 Hw) as (Hw2 & Hf2 & Hn2 & Hs2).
    destruct (H23 Hw2) as (Hw3 & Hf3 & Hn3 & Hs3).
    repeat split; congruence.
  - intros w Hw. repeat split. exact Hw.
  - intros w Hw. repeat split. exact Hw.
  - intros w Hw. destruct (saved_unwritable w Hw) as (Hf & Hn & Hs).
    rewrite saved_fs_writable. repeat split; assumption.
Qed.

Lemma call_disk_untouched (c : MutatingCall) : respects disk_untouched (call c).
Proof.
  destruct c; unfold_methods;
    walk disk_untouched_tracked ltac:(intros w Hw; repeat split; exact Hw).
Qed.

(** X9. A failing disk is not reported: when the file system rejects
    writes, every mutating operation leaves the data file, the count of
    completed writes and the save stamp as they were, and still answers
    with success unless it looks up an unknown id; the change exists in
    memory only. *)
Theorem write_failures_are_swallowed (c : MutatingCall) (w : World) :
  fs_writable w = false ->
  let w' := exec (call c) w in
  file w' = file w /\
  fs_writes w' = fs_writes w /\
  lastAutoSave w' = lastAutoSave w /\
  (looks_up c = false -> outcome (call c) w = Ok tt) /\
  (forall tx, c = record_transaction tx ->
     exists t, transactions (data w')
               = transactions (data w) ++ [t] /\
               Transaction.amount t = RecordTransactionArgs.amount tx).
Proof.
  intros Hw w'. destruct (call_disk_untouched c w Hw) as (_ & Hf & Hn & Hs).
  split; [exact Hf|]. split; [exact Hn|]. split; [exact Hs|].
  split.
  - intros Hc. destruct (call_returns c Hc w) as [[] Hok]. exact Hok.
  - intros tx ->. subst w'. cbn [call].
    destruct (recordTransaction_run w tx) as (_ & Htx & _).
    unfold exec, bind in *. destruct (recordTransaction tx w) as [[id|e] w1]; cbn in *;
      eexists; split; [exact Htx|reflexivity|exact Htx|reflexivity].
Qed.

Lemma write_failures_are_swallowed_witness :
  let w := mkWorld (data boot_world) 0 Missing false 0 [] (clock boot_world) 0 0
             (uuid_source boot_world) 0 in
  let c := record_transaction (RecordTransactionArgs.mk "ghost" (5 # 1) None None None None) in
  fs_writable w = false /\
  outcome (call c) w = Ok tt /\
  file (exec (call c) w) = Missing /\
  length (transactions (data (exec (call c) w))) = 1%nat.
Proof.
  intros w c.
  destruct (write_failures_are_swallowed c w eq_refl) as (Hf & _ & _ & Hok & Htx).
  split; [reflexivity|]. split; [exact (Hok eq_refl)|]. split; [exact Hf|].
  destruct (Htx _ eq_refl) as (t & -> & _). reflexivity.
Defined.

(** *** The append-only collections *)

Lemma log_grows_tracked : tracked log_grows.
Proof.
  constructor; unfold log_grows.
  - intros w. repeat split; reflexivity.
  - intros w1 w2 w3 H12 H23.
    destruct H12 as (A1 & A2 & A3 & A4 & A5 & A6 & A7).
    destruct H23 as (B1 & B2 & B3 & B4 & B5 & B6 & B7).
    repeat split; etrans; eassumption.
  - intros w. repeat split; reflexivity.
  - intros w. repeat split; reflexivity.
  - intros w. rewrite saved_data. repeat split; reflexivity.
Qed.

Lemma call_log_grows (c : MutatingCall) : respects log_grows (call c).
Proof.
  destruct c; unfold_methods;
    walk log_grows_tracked
      ltac:(intros w; unfold log_grows; cbn;
            repeat split; first [reflexivity | eexists; reflexivity]).
Qed.

(** X10. Nothing that was logged is ever edited or removed: every
    mutating operation leaves the stored decisions, transactions, business
    states, conversation turns, technical discoveries, milestones and
    market opportunities in place and at most appends to them.  In
    particular a decision logged as [pending] stays pending: logging its
    approval appends a second record. *)
Theorem logs_are_append_only (c : MutatingCall) (w : World) :
  let w' := exec (call c) w in
  log_grows w w' /\
  (forall d, d ∈ decisions (data w) -> Decision.outcome d = pending ->
     d ∈ decisions (data w')) /\
  (forall i d, decisions (data w) !! i = Some d -> decisions (data w') !! i = Some d) /\
  (forall i t, transactions (data w) !! i = Some t ->
     transactions (data w') !! i = Some t).
Proof.
  intros w'. pose proof (call_log_grows c w) as H. fold w' in H.
  split; [exact H|]. destruct H as ([ds Hd] & [ts Ht] & _).
  split; [|split].
  - intros d Hin _. rewrite Hd. apply elem_of_app. left. exact Hin.
  - intros i d Hi. rewrite Hd. apply lookup_app_l_Some, Hi.
  - intros i t Hi. rewrite Ht. apply lookup_app_l_Some, Hi.
Qed.

(** ** Service ids *)

Lemma registerService_run (w : World) (args : RegisterServiceArgs.t) :
  let w' := exec (registerService args) w in
  let service :=
    Service.mk (uuid_source w (drawn w)) (RegisterServiceArgs.name args)
      (RegisterServiceArgs.type args) active (clock w (reads w)) 0 0 0
      (Metrics.mk 100 0 0 5)
      (ScalingConfig.mk
         (match RegisterServiceArgs.auto_scale args with
          | Some false => false
          | _ => true
          end)
         (orQ (RegisterServiceArgs.max_daily_spend args) 100)
         (-10))
      (clock w (reads w)) in
  outcome (registerService args) w = Ok (uuid_source w (drawn w)) /\
  services (data w') = services (data w) ++ [service] /\
  uuid_source w' = uuid_source w /\
  drawn w' = S (drawn w) /\
  decisions (data w') = decisions (data w) /\
  market_opportunities (data w') = market_opportunities (data w) /\
  blockers (data w') = blockers (data w).
Proof.
  intros w' service. subst w'.
  unfold outcome, exec, registerService. run. through_saves.
  repeat split; reflexivity.
Qed.

(** X11. A registered service can be used at once: [register_service]
    appends one service ([active], counters 0, kill threshold -10,
    auto-scaling on unless [false] was passed, spend limit 100 when none
    or 0 was passed) and returns its id; a performance update for that id
    on the resulting store never fails with "Service not found", and the
    lookup finds the new service when no older one carries the id. *)
Theorem registered_service_is_found (w : World) (args : RegisterServiceArgs.t) :
  let w1 := exec (registerService args) w in
  exists id s,
    outcome (registerService args) w = Ok id /\
    services (data w1) = services (data w) ++ [s] /\
    Service.id s = id /\
    Service.status s = active /\
    Service.daily_revenue s = 0%Q /\ Service.daily_costs s = 0%Q /\
    ScalingConfig.kill_threshold (Service.scaling_config s) = (-10)%Q /\
    ScalingConfig.auto_scale (Service.scaling_config s)
      = negb (bool_decide (RegisterServiceArgs.auto_scale args = Some false)) /\
    ScalingConfig.max_daily_spend (Service.scaling_config s)
      = orQ (RegisterServiceArgs.max_daily_spend args) 100 /\
    (forall update, UpdateServicePerformanceArgs.service_id update = id ->
       outcome (updateServicePerformance update) w1 = Ok tt) /\
    ((forall s0, s0 ∈ services (data w) -> Service.id s0 <> id) ->
     list_find (fun s' => Service.id s' = id) (services (data w1))
       = Some (length (services (data w)), s)).
Proof.
  intros w1. destruct (registerService_run w args) as (Hok & Hsv & _).
  fold w1 in Hsv. set (s := Service.mk _ _ _ _ _ _ _ _ _ _ _) in Hsv. clearbody w1.
  exists (uuid_source w (drawn w)), s.
  split; [exact Hok|]. split; [exact Hsv|].
  do 5 (split; [reflexivity|]).
  split; [destruct (RegisterServiceArgs.auto_scale args) as [[]|]; reflexivity|].
  split; [reflexivity|]. split.
  - intros update Hid.
    assert (Hin : s ∈ services (data w1))
      by (rewrite Hsv; apply elem_of_app; right; left).
    destruct (list_find_elem_of
                (fun s' => Service.id s' = UpdateServicePerformanceArgs.service_id update)
                _ s Hin) as [[i s0] Hfind]; [rewrite Hid; reflexivity|].
    exact (updateServicePerformance_found_returns w1 update i s0 Hfind).
  - intros Hfresh. rewrite Hsv. apply list_find_Some. split; [|split].
    + rewrite lookup_app_r by lia. rewrite Nat.sub_diag. reflexivity.
    + reflexivity.
    + intros j y Hj Hlt. rewrite lookup_app_l in Hj by exact Hlt.
      apply Hfresh. eapply list_elem_of_lookup_2, Hj.
Qed.

Lemma registered_service_is_found_witness :
  let args := RegisterServiceArgs.mk "qr" "web" (Some 0%Q) None in
  let w1 := exec (registerService args) boot_world in
  (forall s0, s0 ∈ services (data boot_world) -> Service.id s0 <> "id-0") /\
  exists s,
    list_find (fun s' => Service.id s' = "id-0") (services (data w1)) = Some (0%nat, s) /\
    ScalingConfig.max_daily_spend (Service.scaling_config s) = 100%Q /\
    outcome (updateServicePerformance losing_update) w1 = Ok tt.
Proof.
  intros args w1.
  assert (Hfresh : forall s0, s0 ∈ services (data boot_world) -> Service.id s0 <> "id-0").
  { intros s0 Hs0. cbn in Hs0. inversion Hs0. }
  split; [exact Hfresh|].
  destruct (registered_service_is_found boot_world args)
    as (id & s & Hok & _ & _ & _ & _ & _ & _ & _ & Hmax & Hupd & Hfind).
  assert (Hid : id = "id-0").
  { assert (E : outcome (registerService args) boot_world = Ok "id-0")
      by (vm_compute; reflexivity).
    rewrite E in Hok. injection Hok as <-. reflexivity. }
  subst id. exists s. split; [exact (Hfind Hfresh)|].
  split; [rewrite Hmax; reflexivity|]. apply Hupd. reflexivity.
Defined.

Lemma service_ids_alter (f : Service.t -> Service.t) (i : nat) (l : list Service.t) :
  (forall s, Service.id (f s) = Service.id s) ->
  map Service.id (alter f i l) = map Service.id l.
Proof.
  intros Hf. revert i. induction l as [|x l IH]; intros [|i]; cbn; try reflexivity.
  - rewrite Hf. reflexivity.
  - rewrite IH. reflexivity.
Qed.

Lemma ids_kept_tracked : tracked ids_kept.
Proof.
  constructor; unfold ids_kept, service_ids.
  - intros w. repeat split; [lia|reflexivity].
  - intros w1 w2 w3 (A1 & A2 & A3) (B1 & B2 & B3).
    split; [congruence|]. split; [lia|]. etrans; eassumption.
  - intros w. repeat split; [cbn; lia|reflexivity].
  - intros w. repeat split; [cbn; lia|reflexivity].
  - intros w. rewrite saved_uuid_source, saved_drawn, saved_data.
    repeat split; [lia|reflexivity].
Qed.

Ltac ids_side :=
  intros w; unfold ids_kept, service_ids; cbn;
  split; [reflexivity|]; split; [lia|];
  first [ reflexivity
        | rewrite service_ids_alter by (intros; reflexivity); reflexivity ].

Lemma call_ids_kept (c : MutatingCall) :
  (forall args, c <> register_service args) -> respects ids_kept (call c).
Proof.
  intros Hc. destruct c; try (exfalso; eapply Hc; reflexivity);
    unfold_methods; walk ids_kept_tracked ids_side.
Qed.

Lemma answers_ids_kept {A} (m : M A) : answers_only m -> respects ids_kept m.
Proof.
  intros Hm w. destruct (Hm w) as (_ & _ & _ & _ & Hd & Hu & Hsame).
  unfold ids_kept, service_ids. split; [exact Hu|]. split; [lia|].
  destruct Hsame as (_ & Hs & _). rewrite Hs. reflexivity.
Qed.

Lemma ids_kept_unique (w w' : World) : ids_kept w w' -> ids_unique w -> ids_unique w'.
Proof.
  intros (Hu & Hd & Hp) [Hnd Hall]. split.
  - rewrite Hp. exact Hnd.
  - rewrite Hp. eapply Forall_impl; [exact Hall|].
    intros id (k & Hk & ->). exists k. split; [lia|]. rewrite Hu. reflexivity.
Qed.

Lemma registerService_ids_unique (w : World) (args : RegisterServiceArgs.t) :
  never_repeats (uuid_source w) -> ids_unique w ->
  ids_unique (exec (registerService args) w) /\
  uuid_source (exec (registerService args) w) = uuid_source w.
Proof.
  intros Hinj [Hnd Hall].
  destruct (registerService_run w args) as (_ & Hsv & Hu & Hd & _).
  split; [|exact Hu]. unfold ids_unique, service_ids in *.
  rewrite Hsv, map_app, Hu, Hd. cbn. split.
  - apply NoDup_app. split; [exact Hnd|]. split; [|apply NoDup_singleton].
    intros id Hin Hnew. apply list_elem_of_singleton in Hnew. subst id.
    rewrite Forall_forall in Hall. destruct (Hall _ Hin) as (k & Hk & Heq).
    apply Hinj in Heq. lia.
  - apply Forall_app. split.
    + eapply Forall_impl; [exact Hall|].
      intros id (k & Hk & ->). exists k. split; [lia|reflexivity].
    + repeat constructor. exists (drawn w). split; [lia|reflexivity].
Qed.

Lemma handle_ids_unique (t : ToolCall) (w : World) :
  never_repeats (uuid_source w) -> ids_unique w ->
  ids_unique (exec (handle t) w) /\ uuid_source (exec (handle t) w) = uuid_source w.
Proof.
  intros Hinj Hw.
  assert (Hkept : forall m : M unit, respects ids_kept m ->
            ids_unique (exec m w) /\ uuid_source (exec m w) = uuid_source w).
  { intros m Hm. specialize (Hm w). split; [eapply ids_kept_unique; eassumption|].
    apply Hm. }
  destruct t as [c|q|args|args]; cbn [handle].
  - destruct c; try (apply Hkept, call_ids_kept; intros ?; discriminate).
    cbn [call].
    destruct (registerService_ids_unique w args Hinj Hw) as [H1 H2].
    unfold exec, bind in *. destruct (registerService args w) as [[id|e] w1]; cbn in *;
      split; assumption.
  - apply Hkept, answers_ids_kept, query_answers_only.
  - apply Hkept. unfold_methods. walk ids_kept_tracked ids_side.
  - apply Hkept. destruct args as [[] context_data]; cbn;
      unfold_methods; walk ids_kept_tracked ids_side.
Qed.

(** X12. Service ids stay unique: as long as the uuid generator does not
    repeat itself, a store whose service ids are distinct ids handed out
    by the generator stays such a store under every sequence of tool
    calls, so a lookup by id never hits a second service. *)
Theorem service_ids_stay_unique (requests : list ToolCall) (w : World) :
  never_repeats (uuid_source w) -> ids_unique w ->
  ids_unique (handle_all requests w) /\
  NoDup (map Service.id (services (data (handle_all requests w)))).
Proof.
  intros Hinj Hw.
  assert (H : ids_unique (handle_all requests w));
    [|split; [exact H|apply H]].
  revert w Hinj Hw. induction requests as [|t requests IH]; intros w Hinj Hw.
  - exact Hw.
  - cbn [handle_all fold_left].
    destruct (handle_ids_unique t w Hinj Hw) as [H1 H2].
    apply IH; [rewrite H2; exact Hinj|exact H1].
Qed.

Lemma boot_uuids_never_repeat : never_repeats (uuid_source boot_world).
Proof.
  intros i j H. cbn in H. injection H as H. exact (pretty_nat_inj i j H).
Qed.

Lemma service_ids_stay_unique_witness :
  let requests :=
    [ mutation (register_service (RegisterServiceArgs.mk "qr" "web" None None));
      mutation (log_decision
                  (LogDecisionArgs.mk "pricing" "qr" "test" None None None None));
      mutation (register_service (RegisterServiceArgs.mk "links" "web" None None));
      question (get_all_services (AllServicesArgs.mk None)) ] in
  never_repeats (uuid_source boot_world) /\
  ids_unique boot_world /\
  NoDup (map Service.id (services (data (handle_all requests boot_world)))) /\
  length (services (data (handle_all requests boot_world))) = 2%nat.
Proof.
  intros requests.
  assert (Hboot : ids_unique boot_world) by (split; constructor).
  split; [exact boot_uuids_never_repeat|]. split; [exact Hboot|].
  split; [|vm_compute; reflexivity].
  apply (service_ids_stay_unique requests boot_world boot_uuids_never_repeat Hboot).
Defined.

(** ** Statuses the tools can produce *)

Lemma Forall_alter_keep {A} (P : A -> Prop) (f : A -> A) (i : nat) (l : list A) :
  Forall P l -> (forall x, P x -> P (f x)) -> Forall P (alter f i l).
Proof.
  intros Hl Hf. revert i. induction Hl as [|x l Hx Hl IH]; intros [|i]; cbn;
    constructor; auto.
Qed.

Lemma keeps_produced_statuses_tracked : tracked keeps_produced_statuses.
Proof.
  constructor; unfold keeps_produced_statuses.
  - intros w H. exact H.
  - intros w1 w2 w3 H12 H23 H. auto.
  - intros w H. exact H.
  - intros w H. exact H.
  - intros w H. rewrite saved_data. exact H.
Qed.

Ltac statuses_side :=
  intros w (Hs & Ho & Hb); unfold produced_statuses; cbn;
  repeat split;
  first [ assumption
        | apply Forall_app; split; [assumption|];
          repeat constructor; cbn; first [discriminate | reflexivity | left; reflexivity]
        | apply Forall_alter_keep; [assumption|];
          intros x Hx; cbn; first [exact Hx | discriminate | right; reflexivity] ].

Lemma same_entities_statuses (d d' : RevBotData) :
  same_entities d d' -> produced_statuses d -> produced_statuses d'.
Proof.
  intros (_ & Hsv & _ & _ & Hop & _ & _ & _ & Hbl & _) (Hs & Ho & Hb).
  unfold produced_statuses. rewrite <- Hsv, <- Hop, <- Hbl. repeat split; assumption.
Qed.

Lemma handle_keeps_statuses (t : ToolCall) : respects keeps_produced_statuses (handle t).
Proof.
  destruct t as [c|q|args|args]; cbn [handle].
  - destruct c; unfold_methods; walk keeps_produced_statuses_tracked statuses_side.
  - intros w. destruct (query_answers_only q w) as (_ & _ & _ & _ & _ & _ & Hsame).
    intros Hw. eapply same_entities_statuses; eassumption.
  - unfold_methods. walk keeps_produced_statuses_tracked statuses_side.
  - destruct args as [[] context_data]; cbn;
      unfold_methods; walk keeps_produced_statuses_tracked statuses_side.
Qed.

(** X13. Statuses no tool produces: starting from the empty graph (or
    from any store of which this holds), after every sequence of tool
    calls no service is [paused], every market opportunity is still
    [discovered] and every blocker is [identified] or [resolved]; the
    other statuses of the data model ([paused], [analyzing],
    [implementing], [deployed], [failed], [investigating], [escalated])
    are never assigned.  So [get_market_opportunities] with a status
    other than [discovered] lists nothing. *)
Theorem statuses_never_assigned (requests : list ToolCall) (w : World) :
  produced_statuses (data w) ->
  let w' := handle_all requests w in
  produced_statuses (data w') /\
  (forall st, st <> discovered ->
     outcome (getMarketOpportunities (MarketOpportunitiesArgs.mk (Some st) None)) w'
     = Ok []).
Proof.
  intros Hw w'.
  assert (H : produced_statuses (data w')).
  { subst w'. revert w Hw. induction requests as [|t requests IH]; intros w Hw.
    - exact Hw.
    - cbn [handle_all fold_left]. apply IH. apply (handle_keeps_statuses t w), Hw. }
  split; [exact H|]. intros st Hst.
  rewrite getMarketOpportunities_run. cbn.
  destruct H as (_ & Ho & _).
  rewrite (filter_none (fun o => MarketOpportunity.status o = st)); [reflexivity|].
  eapply Forall_impl; [exact Ho|]. intros o Hd. congruence.
Qed.

Lemma statuses_never_assigned_witness :
  let requests :=
    [ mutation (record_market_opportunity
                  (RecordMarketOpportunityArgs.mk "qr codes" None None (Some 100%Q)
                     None None None));
      mutation (log_blocker (LogBlockerArgs.mk "keys" "no api key" access None None)) ] in
  let w' := handle_all requests boot_world in
  produced_statuses (data boot_world) /\
  length (market_opportunities (data w')) = 1%nat /\
  outcome (getMarketOpportunities (MarketOpportunitiesArgs.mk (Some deployed) None)) w'
  = Ok [].
Proof.
  intros requests w'.
  assert (Hboot : produced_statuses (data boot_world)) by (repeat split; constructor).
  split; [exact Hboot|]. split; [vm_compute; reflexivity|].
  destruct (statuses_never_assigned requests boot_world Hboot) as [_ Hnone].
  apply Hnone. discriminate.
Defined.

Lemma logs_are_append_only_witness :
  let w := exec (logDecision
                   (LogDecisionArgs.mk "pricing" "raise" "demand" None None None None))
             boot_world in
  let approval :=
    log_decision (LogDecisionArgs.mk "pricing" "raise" "demand" (Some approved)
                    None None None) in
  exists d,
    decisions (data w) !! 0%nat = Some d /\
    Decision.outcome d = pending /\
    decisions (data (exec (call approval) w)) !! 0%nat = Some d /\
    length (decisions (data (exec (call approval) w))) = 2%nat.
Proof.
  intros w approval.
  destruct (logs_are_append_only approval w) as (_ & _ & Hkeep & _).
  eexists. split; [reflexivity|]. split; [reflexivity|].
  split; [apply Hkeep; reflexivity|]. vm_compute. reflexivity.
Defined.

(** ** Restart *)

Lemma loadData_synced (w1 w2 : World) :
  synced w1 -> file w2 = file w1 ->
  outcome loadData w2 = Ok tt /\
  data (exec loadData w2) = data w1 /\
  drawn (exec loadData w2) = drawn w2 /\
  reads (exec loadData w2) = reads w2 /\
  fs_writes (exec loadData w2) = fs_writes w2.
Proof.
  unfold synced. intros Hs Hf. rewrite <- Hf in Hs.
  unfold outcome, exec. rewrite loadData_eq, Hs. cbn. repeat split.
Qed.

(** X14. Restart: what a server held when a mutating call returned, or
    when it was stopped, is what a server started on the same data file
    holds after [loadData], the session id included.  Loading a file that
    parses draws no uuid, reads no clock and writes nothing. *)
Theorem restart_restores_store (w w2 : World) :
  fs_writable w = true ->
  (forall c r, outcome (call c) w = Ok r -> file w2 = file (exec (call c) w) ->
     data (exec loadData w2) = data (exec (call c) w)) /\
  (file w2 = file (exec stop w) ->
     outcome loadData w2 = Ok tt /\
     data (exec loadData w2) = data (exec stop w) /\
     SessionMetadata.current_session_id (session_metadata (data (exec loadData w2)))
       = SessionMetadata.current_session_id (session_metadata (data w)) /\
     drawn (exec loadData w2) = drawn w2 /\
     reads (exec loadData w2) = reads w2 /\
     fs_writes (exec loadData w2) = fs_writes w2).
Proof.
  intros Hw. split.
  - intros c r Hok Hf.
    destruct (call_writes_through c w r Hw Hok) as [Hs _].
    apply (loadData_synced _ _ Hs Hf).
  - intros Hf.
    assert (Hs : synced (exec stop w)).
    { unfold exec, stop. rewrite saveData_eq. cbn. apply saved_synced, Hw. }
    destruct (loadData_synced _ _ Hs Hf) as (H1 & H2 & H3 & H4 & H5).
    split; [exact H1|]. split; [exact H2|]. split; [|repeat split; assumption].
    rewrite H2. unfold exec, stop. rewrite saveData_eq. cbn. rewrite saved_data.
    reflexivity.
Qed.

Lemma restart_restores_store_witness :
  let c := register_service (RegisterServiceArgs.mk "qr" "web" None None) in
  let w1 := exec (call c) boot_world in
  let w2 := mkWorld (empty_data "other" 7 7) 0 (file w1) true 0 [] (fun _ => 9000) 0 0
              (fun n => "new-" +:+ pretty n) 0 in
  fs_writable boot_world = true /\
  outcome (call c) boot_world = Ok tt /\
  file w2 = file w1 /\
  data (exec loadData w2) = data w1 /\
  map Service.id (services (data (exec loadData w2))) = ["id-0"].
Proof.
  intros c w1 w2.
  assert (Hok : outcome (call c) boot_world = Ok tt) by (vm_compute; reflexivity).
  destruct (restart_restores_store boot_world w2 eq_refl) as [Hcall _].
  pose proof (Hcall c tt Hok eq_refl) as Hdata.
  split; [reflexivity|]. split; [exact Hok|]. split; [reflexivity|].
  split; [exact Hdata|]. rewrite Hdata. vm_compute. reflexivity.
Defined.

Lemma loadData_damaged (w : World) :
  file w = Unreadable \/ (exists raw, file w = Present (Malformed raw)) ->
  exec loadData w
  = with_data
      (empty_data (uuid_source w (drawn w)) (clock w (reads w)) (clock w (S (reads w))))
      (with_read (with_read (with_drawn w))).
Proof.
  intros Hf. unfold exec. rewrite loadData_eq.
  destruct Hf as [Hf|[raw Hf]]; rewrite Hf; reflexivity.
Qed.

(** X15. First run against a damaged file: when the data file is
    missing, [loadData] creates it at once (one write, the file then holds
    the fresh empty graph); when the file exists but cannot be read or
    parsed, [loadData] leaves it on disk as it is and writes nothing, so
    the damaged content is replaced only by the first successful save. *)
Theorem loadData_file_effects (w : World) :
  let w' := exec loadData w in
  (file w = Missing -> fs_writable w = true ->
     fs_writes w' = S (fs_writes w) /\ synced w' /\
     services (data w') = [] /\ transactions (data w') = []) /\
  (file w = Unreadable \/ (exists raw, file w = Present (Malformed raw)) ->
     file w' = file w /\ fs_writes w' = fs_writes w /\
     (forall c r, fs_writable w = true -> outcome (call c) w' = Ok r ->
        synced (exec (call c) w'))).
Proof.
  intros w'. subst w'. split.
  - intros Hf Hw. unfold exec. rewrite loadData_eq, Hf. cbn.
    rewrite saved_fs_writes, saved_data. cbn. rewrite Hw.
    split; [reflexivity|]. split; [apply saved_synced; exact Hw|]. split; reflexivity.
  - intros Hf. rewrite (loadData_damaged w Hf).
    split; [reflexivity|]. split; [reflexivity|].
    intros c r Hw Hok. apply (call_writes_through c _ r); [exact Hw|exact Hok].
Qed.

Lemma loadData_file_effects_witness :
  let corrupt :=
    mkWorld (data boot_world) 0 (Present (Malformed "{ not json")) true 0 []
      (clock boot_world) 0 0 (uuid_source boot_world) 0 in
  (file corrupt = Unreadable \/ (exists raw, file corrupt = Present (Malformed raw))) /\
  file (exec loadData corrupt) = Present (Malformed "{ not json") /\
  fs_writes (exec loadData corrupt) = 0%nat /\
  fs_writes (exec loadData boot_world) = 1%nat.
Proof.
  intros corrupt.
  assert (H : file corrupt = Unreadable \/
              (exists raw, file corrupt = Present (Malformed raw)))
    by (right; eexists; reflexivity).
  destruct (loadData_file_effects corrupt) as [_ Hbad].
  destruct (Hbad H) as (Hf & Hn & _).
  destruct (loadData_file_effects boot_world) as [Hmiss _].
  destruct (Hmiss eq_refl eq_refl) as (Hone & _).
  split; [exact H|]. split; [exact Hf|]. split; [exact Hn|exact Hone].
Defined.

(** ** More on the interaction extractor *)

(** The score of the keyword heuristic lies between the base score and
    the cap. *)
Lemma calculateImportanceScore_bounds (userInput aiResponse : string) :
  (3 # 10 <= calculateImportanceScore userInput aiResponse <= 1)%Q.
Proof.
  unfold calculateImportanceScore.
  set (combined := combined_text userInput aiResponse).
  split.
  - apply Q.min_glb; [|discriminate].
    repeat match goal with |- context [if ?b then _ else _] => destruct b end;
      discriminate.
  - apply Q.le_min_r.
Qed.

(** Under the trigger [decision_made] one [Decision] is logged per
    listed decision, none when the list is [undefined]. *)
Lemma autoCaptureContext_decisions_any (context_data : ContextData.t) (w : World) :
  exists ds w',
    autoCaptureContext trig_decision_made context_data w = (Ok tt, w') /\
    decisions (data w') = decisions (data w) ++ ds /\
    Forall2 (fun d term => conversation_decision term d) ds
      (orObj (ContextData.decisions_made context_data) []) /\
    blockers (data w') = blockers (data w) /\
    conversation_turns (data w') = conversation_turns (data w).
Proof.
  destruct (ContextData.decisions_made context_data) as [terms|] eqn:E.
  - apply autoCaptureContext_decisions_run, E.
  - exists [], w. unfold autoCaptureContext. rewrite E. cbn.
    rewrite app_nil_r. repeat split. constructor.
Qed.

Lemma logConversationTurn_run (w : World) (args : LogConversationTurnArgs.t) :
  let userInput := LogConversationTurnArgs.user_input args in
  let aiResponse := LogConversationTurnArgs.ai_response args in
  let turn :=
    ConversationTurn.mk (uuid_source w (drawn w))
      (SessionMetadata.current_session_id (session_metadata (data w)))
      (clock w (reads w)) userInput aiResponse
      (orObj (LogConversationTurnArgs.context_type args)
         (inferContextType userInput aiResponse))
      (orObj (LogConversationTurnArgs.extracted_entities args)
         (extractEntitiesFromConversation userInput aiResponse))
      (orQ (LogConversationTurnArgs.importance_score args)
         (calculateImportanceScore userInput aiResponse)) in
  let w' := exec (logConversationTurn args) w in
  exists ds,
    outcome (logConversationTurn args) w = Ok turn /\
    conversation_turns (data w') = conversation_turns (data w) ++ [turn] /\
    decisions (data w') = decisions (data w) ++ ds /\
    Forall2 (fun d term => conversation_decision term d) ds
      (orObj (Entities.decisions_made (ConversationTurn.extracted_entities turn)) []) /\
    blockers (data w') = blockers (data w).
Proof.
  intros userInput aiResponse turn w'. subst w'.
  unfold outcome, exec, logConversationTurn. run.
  fold userInput aiResponse. fold turn.
  set (w1 := saved _).
  assert (Hd1 : decisions (data w1) = decisions (data w))
    by (subst w1; through_saves; reflexivity).
  assert (Hb1 : blockers (data w1) = blockers (data w))
    by (subst w1; through_saves; reflexivity).
  assert (Hc1 : conversation_turns (data w1) = conversation_turns (data w) ++ [turn])
    by (subst w1; through_saves; reflexivity).
  clearbody w1.
  destruct (autoCaptureContext_decisions_any (ContextData.of_turn turn) w1)
    as (ds & w2 & Hrun & Hds & Hrel & Hb & Hc).
  unfold bind. rewrite Hrun. cbn.
  exists ds. split; [reflexivity|]. split; [congruence|]. split; [congruence|].
  split; [exact Hrel|congruence].
Qed.

(** X16. What the caller passes wins over what the text says: with
    [extracted_entities] supplied, [log_conversation_turn] stores them
    unchanged and logs one auxiliary decision per supplied
    [decisions_made] entry (none when the supplied entities carry no such
    list), whatever the text contains; a supplied [context_type] is
    stored as it is.  The stored [importance_score] is
    the supplied one unless that is absent or 0, in which case the keyword
    score (between 0.3 and 1) is stored: no logged turn has importance
    0. *)
Theorem logConversationTurn_caller_values (w : World) (args : LogConversationTurnArgs.t) :
  let w' := exec (logConversationTurn args) w in
  exists turn ds,
    outcome (logConversationTurn args) w = Ok turn /\
    conversation_turns (data w') = conversation_turns (data w) ++ [turn] /\
    decisions (data w') = decisions (data w) ++ ds /\
    (forall e, LogConversationTurnArgs.extracted_entities args = Some e ->
       ConversationTurn.extracted_entities turn = e /\
       Forall2 (fun d term => conversation_decision term d) ds
         (orObj (Entities.decisions_made e) [])) /\
    (forall c, LogConversationTurnArgs.context_type args = Some c ->
       ConversationTurn.context_type turn = c) /\
    (forall v, LogConversationTurnArgs.importance_score args = Some v ->
       ~ (v == 0)%Q -> ConversationTurn.importance_score turn = v) /\
    (LogConversationTurnArgs.importance_score args = None \/
     (exists v, LogConversationTurnArgs.importance_score args = Some v /\ (v == 0)%Q) ->
     (3 # 10 <= ConversationTurn.importance_score turn <= 1)%Q) /\
    ~ (ConversationTurn.importance_score turn == 0)%Q.
Proof.
  intros w'. destruct (logConversationTurn_run w args) as (ds & Hok & Hct & Hds & Hrel & _).
  fold w' in Hct, Hds.
  eexists _, ds. split; [exact Hok|]. split; [exact Hct|]. split; [exact Hds|].
  cbn in *.
  pose proof (calculateImportanceScore_bounds
                (LogConversationTurnArgs.user_input args)
                (LogConversationTurnArgs.ai_response args)) as Hb.
  split; [|split; [|split; [|split]]].
  - intros e He. rewrite He in Hrel |- *. cbn in *. split; [reflexivity|exact Hrel].
  - intros c Hc. rewrite Hc. reflexivity.
  - intros v Hv Hnz. rewrite Hv. unfold orQ, truthyQ.
    destruct (Qeq_bool v 0) eqn:E; [|reflexivity].
    apply Qeq_bool_iff in E. contradiction.
  - intros [Hn|(v & Hv & Hz)].
    + rewrite Hn. exact Hb.
    + rewrite Hv. unfold orQ, truthyQ.
      apply Qeq_bool_iff in Hz. rewrite Hz. exact Hb.
  - unfold orQ, truthyQ.
    destruct (LogConversationTurnArgs.importance_score args) as [v|].
    + destruct (Qeq_bool v 0) eqn:E; cbn.
      * intros H. destruct Hb as [Hb _]. lra.
      * apply Qeq_bool_neq, E.
    + cbn. intros H. destruct Hb as [Hb _]. lra.
Qed.

Lemma logConversationTurn_caller_values_witness :
  let w' := exec (logConversationTurn annotated_turn) boot_world in
  exists turn,
    outcome (logConversationTurn annotated_turn) boot_world = Ok turn /\
    ConversationTurn.context_type turn = planning /\
    Entities.decisions_made (ConversationTurn.extracted_entities turn)
      = Some ["ship it"; "hire nobody"] /\
    (3 # 10 <= ConversationTurn.importance_score turn <= 1)%Q /\
    map Decision.context (decisions (data w'))
      = ["Decision made in conversation: ship it";
         "Decision made in conversation: hire nobody"].
Proof.
  intros w'.
  destruct (logConversationTurn_caller_values boot_world annotated_turn)
    as (turn & ds & Hok & _ & _ & Hent & Hctx & _ & Hscore & _).
  exists turn. split; [exact Hok|].
  split; [apply Hctx; reflexivity|].
  destruct (Hent _ eq_refl) as [He _].
  split; [rewrite He; reflexivity|].
  split; [apply Hscore; right; exists 0%Q; split; reflexivity|].
  vm_compute. reflexivity.
Defined.

(** The loop of [autoCaptureContext] that logs one discovery per
    technology. *)
Lemma conversation_discoveries_run (techs : list string) (w : World) :
  exists found w',
    for_of techs
      (fun tech =>
         _ <- logTechnicalDiscovery
                (LogTechnicalDiscoveryArgs.mk dependency_ready
                   (tech +:+ " technology discussed")
                   ("Technical discussion about " +:+ tech +:+ " in conversation")
                   None (Some sev_medium)
                   (Some ["Review " +:+ tech +:+ " implementation";
                          "Consider " +:+ tech +:+ " integration"])
                   None) ;;
         ret tt) w = (Ok tt, w') /\
    technical_discoveries (data w') = technical_discoveries (data w) ++ found /\
    Forall2 (fun f tech => conversation_discovery tech f) found techs /\
    decisions (data w') = decisions (data w) /\
    blockers (data w') = blockers (data w).
Proof.
  revert w. induction techs as [|tech techs IH]; intros w.
  - exists [], w. cbn. rewrite app_nil_r. repeat split. constructor.
  - cbn [for_of]. unfold logTechnicalDiscovery at 1. run.
    set (f := TechnicalDiscovery.mk _ _ _ _ _ _ _ _ _). set (w1 := saved _).
    assert (Hf1 : technical_discoveries (data w1) = technical_discoveries (data w) ++ [f])
      by (subst w1; through_saves; reflexivity).
    assert (Hd1 : decisions (data w1) = decisions (data w))
      by (subst w1; through_saves; reflexivity).
    assert (Hb1 : blockers (data w1) = blockers (data w))
      by (subst w1; through_saves; reflexivity).
    clearbody w1.
    destruct (IH w1) as (found & w' & Hrun & Hfound & Hrel & Hd & Hb).
    exists (f :: found), w'. split; [exact Hrun|].
    split; [rewrite Hfound, Hf1, <- app_assoc; reflexivity|].
    split; [|split; congruence].
    constructor; [|exact Hrel]. subst f. repeat split.
Qed.

(** X17. [auto_capture_context] called directly with context data of the
    shape the code reads (each entity list absent or an array of
    strings): under the trigger [technical_discovery] it logs one
    [TechnicalDiscovery] ([dependency_ready], impact [medium]) per
    technology of the context data and nothing else; under
    [milestone_reached], or when the list the trigger looks at is absent
    or empty, it changes nothing at all and does not even save.  On such
    context data it answers with success under every trigger. *)
Theorem autoCaptureContext_direct (trigger_type : TriggerType)
    (context_data : ContextData.t) (w : World) :
  let w' := exec (autoCaptureContext trigger_type context_data) w in
  outcome (autoCaptureContext trigger_type context_data) w = Ok tt /\
  (nonempty_opt (triggered_terms trigger_type context_data) = false -> w' = w) /\
  (forall techs,
     trigger_type = trig_technical_discovery ->
     ContextData.technologies_discussed context_data = Some techs ->
     exists found,
       technical_discoveries (data w') = technical_discoveries (data w) ++ found /\
       Forall2 (fun f tech => conversation_discovery tech f) found techs /\
       decisions (data w') = decisions (data w) /\
       blockers (data w') = blockers (data w)).
Proof.
  intros w'. subst w'. split; [|split].
  - destruct trigger_type.
    + destruct (ContextData.decisions_made context_data) as [terms|] eqn:E.
      * destruct (autoCaptureContext_decisions_run context_data terms w E)
          as (ds & w' & Hrun & _).
        unfold outcome. rewrite Hrun. reflexivity.
      * unfold outcome, autoCaptureContext. rewrite E. reflexivity.
    + destruct (ContextData.blockers_identified context_data) as [terms|] eqn:E.
      * destruct (autoCaptureContext_blockers_run context_data terms w E)
          as (bs & Hok & _).
        exact Hok.
      * unfold outcome, autoCaptureContext. rewrite E. reflexivity.
    + reflexivity.
    + unfold outcome, autoCaptureContext.
      destruct (ContextData.technologies_discussed context_data) as [[|tech techs]|];
        try reflexivity.
      destruct (conversation_discoveries_run (tech :: techs) w)
        as (found & w' & Hrun & _).
      cbn [when nonempty_opt orObj]. rewrite Hrun. reflexivity.
  - intros Hidle. unfold exec, autoCaptureContext.
    destruct trigger_type; cbn in Hidle; rewrite ?Hidle; reflexivity.
  - intros techs -> Htechs. unfold exec, autoCaptureContext. rewrite Htechs.
    destruct techs as [|tech techs].
    + exists []. cbn. rewrite app_nil_r. repeat split. constructor.
    + destruct (conversation_discoveries_run (tech :: techs) w)
        as (found & w' & Hrun & Hfound & Hrel & Hd & Hb).
      exists found. cbn [when nonempty_opt orObj]. rewrite Hrun. cbn.
      repeat split; assumption.
Qed.

Lemma autoCaptureContext_direct_witness :
  let context_data := ContextData.mk None None (Some ["stripe"; "mcp"]) in
  let w' := exec (autoCaptureContext trig_technical_discovery context_data) boot_world in
  nonempty_opt (triggered_terms trig_milestone_reached context_data) = false /\
  exec (autoCaptureContext trig_milestone_reached context_data) boot_world = boot_world /\
  map TechnicalDiscovery.title (technical_discoveries (data w'))
    = ["stripe technology discussed"; "mcp technology discussed"].
Proof.
  intros context_data w'.
  destruct (autoCaptureContext_direct trig_milestone_reached context_data boot_world)
    as (_ & Hidle & _).
  split; [reflexivity|]. split; [exact (Hidle eq_refl)|].
  vm_compute. reflexivity.
Defined.

(** ** Cutting and filtering the opportunity list *)

(** X18. The [limit] of [get_market_opportunities].  The query orders a
    rearrangement of the selection (in descending order of the profit
    potential when every selected opportunity has one, of the discovery
    time when none has) and cuts it: a positive limit [n] keeps the first
    [n] opportunities; an absent limit and the limit 0 keep all of them
    (the default 10 of the tool schema is not applied); a negative limit
    drops that many from the end.  With a [status] filter every returned
    opportunity has the status and the store is left alone; without one
    the stored array is replaced by the ordered one. *)
Theorem getMarketOpportunities_limit (w : World) (args : MarketOpportunitiesArgs.t) :
  let w' := exec (getMarketOpportunities args) w in
  let selection := selected_opportunities args w in
  exists ordered out,
    outcome (getMarketOpportunities args) w = Ok out /\
    Permutation ordered selection /\
    (Forall (fun o => has_profit o = true) selection ->
     StronglySorted (fun a b => (profit_of b <= profit_of a)%Q) ordered) /\
    (Forall (fun o => has_profit o = false) selection ->
     StronglySorted
       (fun a b => MarketOpportunity.created_at b <= MarketOpportunity.created_at a)
       ordered) /\
    (MarketOpportunitiesArgs.limit args = None \/
     MarketOpportunitiesArgs.limit args = Some 0 -> out = ordered) /\
    (forall n, MarketOpportunitiesArgs.limit args = Some n -> 0 < n ->
       out = take (Z.to_nat n) ordered /\
       length out = (Z.to_nat n `min` length selection)%nat) /\
    (forall n, MarketOpportunitiesArgs.limit args = Some n -> n < 0 ->
       out = take (length selection - Z.to_nat (- n)) ordered /\
       length out = (length selection - Z.to_nat (- n))%nat) /\
    (forall st, MarketOpportunitiesArgs.status args = Some st ->
       Forall (fun o => MarketOpportunity.status o = st) out /\ w' = w) /\
    (MarketOpportunitiesArgs.status args = None ->
       market_opportunities (data w') = ordered /\ fs_writes w' = fs_writes w).
Proof.
  intros w' selection.
  set (ordered := js_sort compare_opportunities selection).
  exists ordered. eexists. split; [apply getMarketOpportunities_run|].
  fold selection. fold ordered.
  assert (Hlen : length ordered = length selection)
    by (unfold ordered; rewrite js_sort_perm; reflexivity).
  split; [apply js_sort_perm|].
  split; [apply opportunities_ranked|]. split; [apply opportunities_ranked|].
  split; [|split; [|split; [|split]]].
  - intros [-> | ->]; reflexivity.
  - intros n -> Hn. destruct (Z.eqb_spec n 0) as [?|_]; [lia|].
    unfold slice0. destruct (Z.ltb_spec n 0); [lia|].
    split; [reflexivity|]. rewrite length_take, Hlen. reflexivity.
  - intros n -> Hn. destruct (Z.eqb_spec n 0) as [?|_]; [lia|].
    unfold slice0. destruct (Z.ltb_spec n 0); [|lia].
    rewrite Hlen.
    replace (Z.to_nat (Z.of_nat (length selection) + n))
      with (length selection - Z.to_nat (- n))%nat by lia.
    split; [reflexivity|]. rewrite length_take, Hlen. lia.
  - intros st Hst. subst w'. split.
    + assert (Hall : Forall (fun o => MarketOpportunity.status o = st) ordered).
      { apply Forall_forall. intros o Ho.
        unfold ordered, selection, selected_opportunities in Ho.
        rewrite Hst, js_sort_perm in Ho. apply list_elem_of_filter in Ho. apply Ho. }
      destruct (MarketOpportunitiesArgs.limit args) as [n|]; [|exact Hall].
      destruct (n =? 0); [exact Hall|].
      apply Forall_forall. intros o Ho. apply slice0_subseteq in Ho.
      rewrite Forall_forall in Hall. apply Hall, Ho.
    + unfold exec, getMarketOpportunities. cbn. rewrite Hst. cbn.
      destruct (MarketOpportunitiesArgs.limit args) as [n|]; cbn;
        try destruct (n =? 0); reflexivity.
  - intros Hst. subst w' ordered selection.
    unfold exec, getMarketOpportunities, selected_opportunities.
    cbn. rewrite Hst. cbn.
    destruct (MarketOpportunitiesArgs.limit args) as [n|]; cbn;
      try destruct (n =? 0); split; reflexivity.
Qed.

Lemma getMarketOpportunities_limit_witness :
  let one := MarketOpportunitiesArgs.mk None (Some 1) in
  let zero := MarketOpportunitiesArgs.mk None (Some 0) in
  0 < 1 /\
  Forall (fun o => has_profit o = true) (selected_opportunities one ranked_world) /\
  (exists ordered out,
     outcome (getMarketOpportunities one) ranked_world = Ok out /\
     StronglySorted (fun a b => (profit_of b <= profit_of a)%Q) ordered /\
     out = take 1 ordered /\ length out = 1%nat) /\
  (exists out, outcome (getMarketOpportunities zero) ranked_world = Ok out /\
               length out = 2%nat).
Proof.
  intros one zero.
  assert (Hall : Forall (fun o => has_profit o = true)
                   (selected_opportunities one ranked_world))
    by (vm_compute; repeat constructor).
  destruct (getMarketOpportunities_limit ranked_world one)
    as (ordered1 & out1 & Hok1 & _ & Hrank & _ & _ & Hpos & _).
  destruct (Hpos 1 eq_refl eq_refl) as [Hout1 Hlen1].
  destruct (getMarketOpportunities_limit ranked_world zero)
    as (ordered0 & out0 & Hok0 & Hperm & _ & _ & Hkeep & _).
  split; [reflexivity|]. split; [exact Hall|]. split.
  - exists ordered1, out1. split; [exact Hok1|]. split; [exact (Hrank Hall)|].
    split; [exact Hout1|]. rewrite Hlen1. vm_compute. reflexivity.
  - exists out0. split; [exact Hok0|]. rewrite Hkeep by (right; reflexivity).
    rewrite Hperm. vm_compute. reflexivity.
Defined.

(** ** Logged decisions and the pending list *)

Lemma logDecision_run (w : World) (args : LogDecisionArgs.t) :
  let d :=
    decisionRecord_of (uuid_source w (drawn w)) (clock w (reads w))
      (DecisionInput.mk
         (LogDecisionArgs.decision_type args) (LogDecisionArgs.context args)
         (LogDecisionArgs.reasoning args)
         (orObj (LogDecisionArgs.outcome args) pending)
         (LogDecisionArgs.revenue_impact args) (LogDecisionArgs.risk_level args)
         (LogDecisionArgs.confidence_score args)) in
  outcome (logDecision args) w = Ok d /\
  decisions (data (exec (logDecision args) w)) = decisions (data w) ++ [d].
Proof.
  intros d. unfold outcome, exec, logDecision.
  pose proof (bind_logDecisionInternal
                (DecisionInput.mk
                   (LogDecisionArgs.decision_type args) (LogDecisionArgs.context args)
                   (LogDecisionArgs.reasoning args)
                   (orObj (LogDecisionArgs.outcome args) pending)
                   (LogDecisionArgs.revenue_impact args) (LogDecisionArgs.risk_level args)
                   (LogDecisionArgs.confidence_score args))
                ret w) as H.
  unfold bind in H. cbn zeta in H.
  destruct (logDecisionInternal _ w) as [[d'|e] w1]; cbn in *.
  - injection H as -> ->. split; [reflexivity|]. rewrite saved_data. reflexivity.
  - discriminate.
Qed.

(** X19. [log_decision] appends one decision whose outcome is the one
    passed, [pending] when none is passed, and whose impact metrics
    default to revenue impact 0, risk [medium] and confidence 0.5 (also
    when 0 is passed).  Logged without an outcome it is listed by the next
    [get_pending_decisions]; logged with any other outcome it is not, and
    the pending list is what it was before. *)
Theorem logDecision_pending (w : World) (args : LogDecisionArgs.t) :
  let w' := exec (logDecision args) w in
  exists d before after,
    outcome (logDecision args) w = Ok d /\
    decisions (data w') = decisions (data w) ++ [d] /\
    Decision.outcome d = orObj (LogDecisionArgs.outcome args) pending /\
    ImpactMetrics.revenue_impact (Decision.impact_metrics d)
      = orQ (LogDecisionArgs.revenue_impact args) 0 /\
    ImpactMetrics.risk_level (Decision.impact_metrics d)
      = orObj (LogDecisionArgs.risk_level args) medium /\
    ImpactMetrics.confidence_score (Decision.impact_metrics d)
      = orQ (LogDecisionArgs.confidence_score args) (5 # 10) /\
    outcome getPendingDecisions w = Ok before /\
    outcome getPendingDecisions w' = Ok after /\
    (Decision.outcome d = pending ->
     forall x, x ∈ after <-> x = d \/ x ∈ before) /\
    (Decision.outcome d <> pending ->
     forall x, x ∈ after <-> x ∈ before).
Proof.
  intros w'. destruct (logDecision_run w args) as [Hok Hds]. fold w' in Hds.
  destruct (getPendingDecisions_exact_aux w) as (before & Hb & Hbefore).
  destruct (getPendingDecisions_exact_aux w') as (after & Ha & Hafter).
  eexists _, before, after. split; [exact Hok|]. split; [exact Hds|].
  do 4 (split; [reflexivity|]). split; [exact Hb|]. split; [exact Ha|].
  set (d := decisionRecord_of _ _ _) in *. clearbody d w'.
  split.
  - intros Hp x. rewrite Hafter, Hbefore, Hds, elem_of_app, list_elem_of_singleton.
    split; [intros [[H | ->] Hx]; auto | intros [-> | [H Hx]]; auto].
  - intros Hp x. rewrite Hafter, Hbefore, Hds, elem_of_app, list_elem_of_singleton.
    split; [intros [[H | ->] Hx]; [auto|contradiction] | intros [H Hx]; auto].
Qed.

Lemma logDecision_pending_witness :
  let args := LogDecisionArgs.mk "pricing" "raise" "demand" None None None (Some 0%Q) in
  exists d after,
    outcome (logDecision args) boot_world = Ok d /\
    Decision.outcome d = pending /\
    ImpactMetrics.confidence_score (Decision.impact_metrics d) = (5 # 10)%Q /\
    outcome getPendingDecisions (exec (logDecision args) boot_world) = Ok after /\
    d ∈ after.
Proof.
  intros args.
  destruct (logDecision_pending boot_world args)
    as (d & before & after & Hok & _ & Ho & _ & _ & Hc & _ & Ha & Hin & _).
  exists d, after. split; [exact Hok|]. split; [exact Ho|].
  split; [rewrite Hc; reflexivity|]. split; [exact Ha|].
  apply (Hin Ho). left. reflexivity.
Defined.

(** ** Performance updates without auto-scaling *)

(** X20. With [auto_scale] off the decision engine is disabled: a
    performance update stores the counters and metrics passed (the others
    keep their values, a counter passed as 0 becomes 0), stamps
    [updated_at], and neither changes the status nor logs a decision, not
    even for a profit far below the kill threshold. *)
Theorem update_without_auto_scale (w : World) (args : UpdateServicePerformanceArgs.t)
    (i : nat) (s0 : Service.t) :
  list_find (fun s => Service.id s = UpdateServicePerformanceArgs.service_id args)
    (services (data w)) = Some (i, s0) ->
  ScalingConfig.auto_scale (Service.scaling_config s0) = false ->
  let w' := exec (updateServicePerformance args) w in
  exists s',
    outcome (updateServicePerformance args) w = Ok tt /\
    services (data w') = <[i := s']> (services (data w)) /\
    services (data w') !! i = Some s' /\
    Service.status s' = Service.status s0 /\
    Service.daily_revenue s' = updated_revenue args s0 /\
    Service.daily_costs s' = updated_costs args s0 /\
    Service.updated_at s' = clock w (reads w) /\
    Service.scaling_config s' = Service.scaling_config s0 /\
    decisions (data w') = decisions (data w).
Proof.
  intros Hfind Hauto w'.
  destruct (update_idle_run w args i s0 Hfind (or_introl Hauto)) as (Hok & Hsv & Hd).
  fold w' in Hsv, Hd.
  pose proof Hfind as (Hlk & _ & _)%list_find_Some.
  eexists. split; [exact Hok|]. split; [exact Hsv|].
  split; [rewrite Hsv; apply list_lookup_insert_eq; eapply lookup_lt_Some, Hlk|].
  repeat split; assumption.
Qed.

Lemma update_without_auto_scale_witness :
  exists s0,
    list_find (fun s => Service.id s = "id-0") (services (data manual_world))
      = Some (0%nat, s0) /\
    ScalingConfig.auto_scale (Service.scaling_config s0) = false /\
    let w' := exec (updateServicePerformance losing_update) manual_world in
    exists s',
      services (data w') !! 0%nat = Some s' /\
      Service.status s' = active /\
      Service.daily_costs s' = 20%Q /\
      decisions (data w') = decisions (data manual_world).
Proof.
  eexists. split; [reflexivity|]. split; [reflexivity|]. intros w'.
  destruct (update_without_auto_scale manual_world losing_update 0%nat _ eq_refl eq_refl)
    as (s' & _ & _ & Hlk & Hst & _ & Hc & _ & _ & Hd).
  exists s'. split; [exact Hlk|]. split; [rewrite Hst; reflexivity|].
  split; [rewrite Hc; reflexivity|exact Hd].
Defined.

(** ** Grouping transactions by service *)

(** [reduce] over an array with one more element continues from the
    sum of the array. *)
Lemma sum_by_snoc {A} (f : A -> Q) (l : list A) (x : A) :
  sum_by f (l ++ [x]) = (sum_by f l + f x)%Q.
Proof. unfold sum_by. rewrite fold_left_app. reflexivity. Qed.

Lemma stats_ids_alter (tx : Transaction.t) (i : nat) (m : list ServiceStats.t) :
  map ServiceStats.service_id (alter (ServiceStats.bump tx) i m)
  = map ServiceStats.service_id m.
Proof.
  revert i. induction m as [|a m IH]; intros [|i]; cbn; try reflexivity.
  rewrite IH. reflexivity.
Qed.

Lemma count_alter (tx : Transaction.t) (i : nat) (m : list ServiceStats.t)
    (a : ServiceStats.t) :
  m !! i = Some a ->
  sum_list_with ServiceStats.transaction_count (alter (ServiceStats.bump tx) i m)
  = S (sum_list_with ServiceStats.transaction_count m).
Proof.
  revert i. induction m as [|x m IH]; intros [|i] H; cbn in *; try discriminate.
  - reflexivity.
  - rewrite (IH i H). lia.
Qed.

Lemma count_perm (m m' : list ServiceStats.t) :
  Permutation m m' ->
  sum_list_with ServiceStats.transaction_count m
  = sum_list_with ServiceStats.transaction_count m'.
Proof.
  induction 1 as [|x l l' _ IH|x y l|l1 l2 l3 _ IH1 _ IH2]; cbn; lia.
Qed.

Lemma groups_other (txs : list Transaction.t) (tx : Transaction.t) (row : ServiceStats.t) :
  ServiceStats.service_id row <> Transaction.service_id tx ->
  groups txs row -> groups (txs ++ [tx]) row.
Proof.
  intros Hne (Htx & Hn & Hsum & Hnil). unfold groups.
  rewrite filter_app, filter_cons, filter_nil.
  destruct (decide (Transaction.service_id tx = ServiceStats.service_id row)) as [E|_];
    [congruence|].
  rewrite app_nil_r. repeat split; assumption.
Qed.

Lemma groups_bump (txs : list Transaction.t) (tx : Transaction.t) (row : ServiceStats.t) :
  ServiceStats.service_id row = Transaction.service_id tx ->
  ServiceStats.transactions row
    = filter (fun t => Transaction.service_id t = ServiceStats.service_id row) txs ->
  ServiceStats.transaction_count row = length (ServiceStats.transactions row) ->
  ServiceStats.total_revenue row
    = sum_by Transaction.amount (ServiceStats.transactions row) ->
  groups (txs ++ [tx]) (ServiceStats.bump tx row).
Proof.
  intros Hid Htx Hn Hsum. unfold groups. cbn.
  rewrite filter_app, filter_cons, filter_nil.
  destruct (decide (Transaction.service_id tx = ServiceStats.service_id row)) as [_|E];
    [|congruence].
  split; [rewrite Htx; reflexivity|]. split; [rewrite length_app, Hn; cbn; lia|].
  split; [rewrite sum_by_snoc, Hsum; reflexivity|].
  intros H. apply app_eq_nil in H as [_ H]. discriminate.
Qed.

Lemma group_step_grouped (txs : list Transaction.t) (m : list ServiceStats.t)
    (tx : Transaction.t) :
  grouped txs m -> grouped (txs ++ [tx]) (group_step m tx).
Proof.
  intros (Hnd & Hrows & Hcov & Hcnt). unfold group_step. cbn zeta.
  destruct (list_find (fun a => ServiceStats.service_id a = Transaction.service_id tx) m)
    as [[i a]|] eqn:Hfind.
  - rewrite Hfind. pose proof Hfind as (Hlk & Hid & _)%list_find_Some.
    unfold grouped. rewrite stats_ids_alter. split; [exact Hnd|].
    split; [|split].
    + apply Forall_lookup. intros j row Hj.
      rewrite Forall_lookup in Hrows.
      destruct (decide (j = i)) as [->|Hne].
      * rewrite list_lookup_alter_eq, Hlk in Hj. injection Hj as <-.
        destruct (Hrows i a Hlk) as (H1 & H2 & H3 & _).
        apply groups_bump; assumption.
      * rewrite list_lookup_alter_ne in Hj by congruence.
        apply groups_other; [|eapply Hrows, Hj].
        intros Heq. apply Hne.
        eapply (NoDup_lookup (map ServiceStats.service_id m)); [exact Hnd| |].
        -- rewrite list_lookup_fmap, Hj. reflexivity.
        -- rewrite list_lookup_fmap, Hlk. cbn. congruence.
    + intros t Ht. apply elem_of_app in Ht as [Ht|Ht]; [apply Hcov, Ht|].
      apply list_elem_of_singleton in Ht. subst t. rewrite <- Hid.
      apply list_elem_of_fmap. exists a. split; [reflexivity|].
      eapply list_elem_of_lookup_2, Hlk.
    + rewrite (count_alter _ _ _ _ Hlk), length_app, Hcnt. cbn. lia.
  - pose proof Hfind as Hnone. rewrite list_find_None in Hnone.
    set (new := ServiceStats.mk (Transaction.service_id tx) 0 0 []).
    assert (Hfind1 : list_find (fun a => ServiceStats.service_id a
                                         = Transaction.service_id tx) (m ++ [new])
                     = Some (length m, new)).
    { apply list_find_Some. split; [|split].
      - rewrite lookup_app_r by lia. rewrite Nat.sub_diag. reflexivity.
      - reflexivity.
      - intros j y Hj Hlt. rewrite lookup_app_l in Hj by exact Hlt.
        rewrite Forall_forall in Hnone. eapply Hnone, list_elem_of_lookup_2, Hj. }
    rewrite Hfind1.
    assert (Halter : alter (ServiceStats.bump tx) (length m) (m ++ [new])
                     = m ++ [ServiceStats.bump tx new]).
    { rewrite <- (Nat.add_0_r (length m)), alter_app_r. reflexivity. }
    rewrite Halter.
    assert (Hfresh : Transaction.service_id tx ∉ map ServiceStats.service_id m).
    { intros Hin. apply list_elem_of_fmap in Hin as (a & Ha & Hin).
      rewrite Forall_forall in Hnone. apply (Hnone a Hin). symmetry. exact Ha. }
    unfold grouped. rewrite map_app. cbn [map ServiceStats.service_id ServiceStats.bump new].
    split; [|split; [|split]].
    + apply NoDup_app. split; [exact Hnd|]. split; [|apply NoDup_singleton].
      intros id Hin Hnew. apply list_elem_of_singleton in Hnew. subst id. contradiction.
    + apply Forall_app. split.
      * apply Forall_forall. intros row Hrow. rewrite Forall_forall in Hrows, Hnone.
        apply groups_other; [apply Hnone, Hrow|apply Hrows, Hrow].
      * constructor; [|constructor]. apply groups_bump; try reflexivity.
        cbn. symmetry. apply filter_none. apply Forall_forall. intros t Ht Heq.
        apply Hfresh. rewrite <- Heq. apply Hcov, Ht.
    + intros t Ht. apply elem_of_app. apply elem_of_app in Ht as [Ht|Ht].
      * left. apply Hcov, Ht.
      * right. apply list_elem_of_singleton in Ht. subst t. left.
    + rewrite sum_list_with_app, length_app, Hcnt. cbn. lia.
Qed.

Lemma fold_group_step_grouped (txs0 txs : list Transaction.t) (m : list ServiceStats.t) :
  grouped txs0 m -> grouped (txs0 ++ txs) (fold_left group_step txs m).
Proof.
  revert txs0 m. induction txs as [|tx txs IH]; intros txs0 m Hm; cbn.
  - rewrite app_nil_r. exact Hm.
  - replace (txs0 ++ tx :: txs) with ((txs0 ++ [tx]) ++ txs)
      by (rewrite <- app_assoc; reflexivity).
    apply IH, group_step_grouped, Hm.
Qed.

Lemma grouped_nil : grouped [] [].
Proof.
  unfold grouped. cbn. split; [constructor|]. split; [constructor|].
  split; [intros t Ht; inversion Ht|reflexivity].
Qed.

(** Sorting the rows keeps them a grouping of the same transactions. *)
Lemma grouped_perm (txs : list Transaction.t) (m m' : list ServiceStats.t) :
  Permutation m m' -> grouped txs m -> grouped txs m'.
Proof.
  intros Hp (Hnd & Hrows & Hcov & Hcnt). unfold grouped.
  assert (Hids : Permutation (map ServiceStats.service_id m)
                   (map ServiceStats.service_id m'))
    by (apply Permutation_map, Hp).
  split; [|split; [|split]].
  - rewrite <- Hids. exact Hnd.
  - rewrite <- Hp. exact Hrows.
  - intros t Ht. rewrite <- Hids. apply Hcov, Ht.
  - rewrite <- (count_perm _ _ Hp). exact Hcnt.
Qed.

(** ** The divisions of a revenue query *)

#[local] Arguments with_divisors : simpl never.

Lemma with_divisors_nil (w : World) : with_divisors [] w = w.
Proof. destruct w. unfold with_divisors. cbn. rewrite app_nil_r. reflexivity. Qed.

Lemma with_divisors_app (qs1 qs2 : list Q) (w : World) :
  with_divisors qs2 (with_divisors qs1 w) = with_divisors (qs1 ++ qs2) w.
Proof. unfold with_divisors. cbn. rewrite app_assoc. reflexivity. Qed.

Lemma js_div_eq (a b : Q) (w : World) :
  js_div a b w = (Ok (a / b)%Q, with_divisors [b] w).
Proof. reflexivity. Qed.

Lemma bind_js_div {B} (a b : Q) (k : Q -> M B) (w : World) :
  bind (js_div a b) k w = k (a / b)%Q (with_divisors [b] w).
Proof. reflexivity. Qed.

(** A [map] whose callback divides. *)
Lemma mapM_divides {A B} (f : A -> M B) (g : A -> B) (h : A -> list Q) (l : list A) :
  (forall x w, f x w = (Ok (g x), with_divisors (h x) w)) ->
  forall w, mapM f l w = (Ok (map g l), with_divisors (flat_map h l) w).
Proof.
  intros Hf. induction l as [|x l IH]; intros w; cbn [mapM map flat_map].
  - rewrite with_divisors_nil. reflexivity.
  - unfold bind. rewrite Hf, IH, with_divisors_app. reflexivity.
Qed.

#[local] Arguments js_div : simpl never.
#[local] Arguments mapM : simpl never.

(** The run of a revenue query: what it returns and what it divides by,
    in this order: per row the transaction count and the window length in
    days, then the number of transactions (when there is one), the window
    length, and per row the total revenue. *)
Lemma getRevenueAnalytics_run (w : World) (args : RevenueAnalyticsArgs.t) :
  let timeframeDays := orQ (RevenueAnalyticsArgs.timeframe_days args) 30 in
  let window := revenue_window args w in
  let totalRevenue := sum_by Transaction.amount window in
  let rows :=
    js_sort (fun a b => (ServiceStats.total_revenue b - ServiceStats.total_revenue a)%Q)
      (fold_left group_step window []) in
  exists r,
    getRevenueAnalytics args w
    = (Ok r,
       with_divisors
         (flat_map (fun a => [Qnat (ServiceStats.transaction_count a); timeframeDays]) rows
          ++ (if (0 <? length window)%nat then [Qnat (length window)] else [])
          ++ [timeframeDays]
          ++ map (fun _ => totalRevenue) rows)
         (with_read w)) /\
    report_rows r = rows /\
    RevenueReport.total_revenue r = totalRevenue /\
    RevenueReport.total_transactions r = length window /\
    (RevenueReport.average_transaction r
     = if (0 <? length window)%nat then totalRevenue / Qnat (length window) else 0)%Q.
Proof.
  intros timeframeDays window totalRevenue rows.
  unfold getRevenueAnalytics. cbn.
  change (analytics_window _ _ _) with window.
  fold timeframeDays. fold totalRevenue. fold rows.
  unfold bind at 1.
  set (g := fun a : ServiceStats.t =>
              EnrichedStats.mk a
                match list_find (fun s => Service.id s = ServiceStats.service_id a)
                        (services (data w)) with
                | Some (_, s) =>
                    match Service.name s with
                    | "" => "Unknown Service"
                    | String _ _ => Service.name s
                    end
                | None => "Unknown Service"
                end
                (ServiceStats.total_revenue a
                 / Qnat (ServiceStats.transaction_count a))%Q
                (ServiceStats.total_revenue a / timeframeDays)%Q).
  rewrite (mapM_divides _ g
             (fun a => [Qnat (ServiceStats.transaction_count a); timeframeDays]))
    by (intros x w0; rewrite bind_js_div, bind_js_div; unfold ret;
        rewrite with_divisors_app; reflexivity).
  set (enriched := map g rows).
  assert (Hrows : map EnrichedStats.stats enriched = rows).
  { subst enriched. rewrite map_map. cbn. apply map_id. }
  assert (Hshares : forall w0,
            mapM (fun a : EnrichedStats.t =>
                    share <- js_div (ServiceStats.total_revenue (EnrichedStats.stats a))
                               totalRevenue ;;
                    ret (a, (share * 100)%Q)) enriched w0
            = (Ok (map (fun a => (a, (ServiceStats.total_revenue (EnrichedStats.stats a)
                                       / totalRevenue * 100)%Q)) enriched),
               with_divisors (map (fun _ => totalRevenue) rows) w0)).
  { intros w0.
    rewrite (mapM_divides _
               (fun a => (a, (ServiceStats.total_revenue (EnrichedStats.stats a)
                              / totalRevenue * 100)%Q))
               (fun _ => [totalRevenue]))
      by (intros x w1; rewrite bind_js_div; reflexivity).
    f_equal. f_equal. subst enriched. rewrite flat_map_concat_map, map_map.
    clear. induction rows as [|a l IH]; cbn; [reflexivity|]. f_equal. exact IH. }
  destruct (length window) as [|n] eqn:Hlen; cbn.
  - rewrite bind_js_div. unfold bind. rewrite Hshares. cbn.
    rewrite !with_divisors_app.
    eexists. split; [reflexivity|]. unfold report_rows. cbn.
    rewrite map_map. cbn. split; [exact Hrows|]. repeat split.
  - rewrite bind_js_div, bind_js_div. unfold bind. rewrite Hshares. cbn.
    rewrite !with_divisors_app.
    eexists. split; [reflexivity|]. unfold report_rows. cbn.
    rewrite map_map. cbn. split; [exact Hrows|]. repeat split.
Qed.

Lemma by_total_sorted (l : list ServiceStats.t) :
  StronglySorted
    (fun a b => (ServiceStats.total_revenue b <= ServiceStats.total_revenue a)%Q)
    (js_sort (fun a b => (ServiceStats.total_revenue b - ServiceStats.total_revenue a)%Q) l).
Proof.
  apply (js_sort_sorted _ _ (fun _ => True)).
  - intros x y z Hxy Hyz. lra.
  - intros x y _ _. destruct (Qle_bool _ 0) eqn:E.
    + apply Qle_bool_iff in E. lra.
    + assert (H : ~ (ServiceStats.total_revenue y - ServiceStats.total_revenue x <= 0)%Q)
        by (rewrite <- Qle_bool_iff; congruence).
      lra.
  - apply Forall_forall. intros; exact I.
Qed.

Lemma report_rows_grouped (w : World) (args : RevenueAnalyticsArgs.t) :
  grouped (revenue_window args w)
    (js_sort (fun a b => (ServiceStats.total_revenue b - ServiceStats.total_revenue a)%Q)
       (fold_left group_step (revenue_window args w) [])).
Proof.
  eapply grouped_perm; [symmetry; apply js_sort_perm|].
  apply (fold_group_step_grouped [] (revenue_window args w) []), grouped_nil.
Qed.

Lemma getRevenueAnalytics_by_service_aux (w : World) (args : RevenueAnalyticsArgs.t) :
  exists r,
    outcome (getRevenueAnalytics args) w = Ok r /\
    RevenueReport.total_transactions r = length (revenue_window args w) /\
    RevenueReport.total_revenue r = sum_by Transaction.amount (revenue_window args w).
Proof.
  destruct (getRevenueAnalytics_run w args) as (r & Hrun & _ & Htotal & Hn & _).
  exists r. unfold outcome. rewrite Hrun. repeat split; assumption.
Qed.

(** X21. The per-service breakdown of [get_revenue_analytics] is a
    partition of the window: one row per service that has a transaction
    in the window, each row holding exactly the transactions of its
    service in their order, their number, and as its revenue their
    amounts added up from 0 in that order; the counts of the rows add up
    to the number of transactions of the report.  The rows are in
    descending order of their revenue, and the total revenue of the
    report is the amounts of the window added up from 0 in stored
    order. *)
Theorem getRevenueAnalytics_by_service (w : World) (args : RevenueAnalyticsArgs.t) :
  let window := revenue_window args w in
  exists r,
    outcome (getRevenueAnalytics args) w = Ok r /\
    RevenueReport.total_transactions r = length window /\
    RevenueReport.total_revenue r = sum_by Transaction.amount window /\
    grouped window (report_rows r) /\
    StronglySorted
      (fun a b => (ServiceStats.total_revenue b <= ServiceStats.total_revenue a)%Q)
      (report_rows r).
Proof.
  intros window.
  destruct (getRevenueAnalytics_run w args) as (r & Hrun & Hrows & Htotal & Hn & _).
  exists r. unfold outcome. rewrite Hrun. split; [reflexivity|].
  split; [exact Hn|]. split; [exact Htotal|]. rewrite Hrows.
  split; [apply report_rows_grouped|apply by_total_sorted].
Qed.

(** X22. Division by zero in [get_revenue_analytics]: over a window that
    holds a transaction, the revenue share of every row is computed by
    dividing by the total revenue the query has computed (the amounts of
    the window, added up from 0 in stored order), and this is the only
    divisor that can be 0: the others are numbers of transactions and the
    length of the window in days.  So the query divides by zero exactly
    when the total it has computed is 0, as it is for a charge of 5 and
    its refund. *)
Theorem getRevenueAnalytics_zero_total (w : World) (args : RevenueAnalyticsArgs.t) :
  let w' := exec (getRevenueAnalytics args) w in
  let performed := drop (length (divisors w)) (divisors w') in
  revenue_window args w <> [] ->
  exists r,
    outcome (getRevenueAnalytics args) w = Ok r /\
    RevenueReport.total_revenue r = sum_by Transaction.amount (revenue_window args w) /\
    In (RevenueReport.total_revenue r) performed /\
    (Forall (fun q => ~ (q == 0)%Q) performed <-> ~ (RevenueReport.total_revenue r == 0)%Q).
Proof.
  intros w' performed Hwindow.
  destruct (getRevenueAnalytics_run w args) as (r & Hrun & Hrows & Htotal & Hn & _).
  pose proof (report_rows_grouped w args) as (_ & Hgroups & Hcov & _).
  set (rows := js_sort _ _) in *.
  set (totalRevenue := sum_by Transaction.amount (revenue_window args w)) in *.
  exists r. unfold outcome. rewrite Hrun. split; [reflexivity|].
  split; [exact Htotal|].
  assert (Hperformed :
    performed
    = flat_map (fun a => [Qnat (ServiceStats.transaction_count a);
                          orQ (RevenueAnalyticsArgs.timeframe_days args) 30]) rows
      ++ (if (0 <? length (revenue_window args w))%nat
          then [Qnat (length (revenue_window args w))] else [])
      ++ [orQ (RevenueAnalyticsArgs.timeframe_days args) 30]
      ++ map (fun _ => totalRevenue) rows).
  { subst performed w'. unfold exec. rewrite Hrun. cbn.
    unfold with_divisors. cbn. rewrite drop_app_length. reflexivity. }
  assert (Hrow : exists a rest, rows = a :: rest).
  { destruct (revenue_window args w) as [|t window] eqn:E; [contradiction|].
    specialize (Hcov t (list_elem_of_here _ _)).
    destruct rows as [|a rest]; [inversion Hcov|eauto]. }
  destruct Hrow as (a & rest & Hrow).
  assert (Hin : In (RevenueReport.total_revenue r) performed).
  { rewrite Hperformed, Htotal, Hrow. apply in_or_app. right.
    apply in_or_app. right. right. left. reflexivity. }
  split; [exact Hin|]. split.
  - intros Hall. rewrite List.Forall_forall in Hall. apply Hall, Hin.
  - intros Hnz. rewrite Hperformed. rewrite Htotal in Hnz.
    assert (Htf : ~ (orQ (RevenueAnalyticsArgs.timeframe_days args) 30 == 0)%Q)
      by (apply orQ_nonzero; discriminate).
    apply Forall_app. split; [|apply Forall_app; split; [|constructor; [exact Htf|]]].
    + apply Forall_flat_map. eapply Forall_impl; [exact Hgroups|].
      intros row (_ & Hcount & _ & Hnil). constructor; [|constructor; [exact Htf|constructor]].
      apply Qnat_nonzero. rewrite Hcount.
      destruct (ServiceStats.transactions row); [contradiction|cbn; lia].
    + destruct (revenue_window args w) as [|t window]; [contradiction|].
      cbn. constructor; [|constructor]. apply Qnat_nonzero. cbn. lia.
    + apply Forall_forall. intros q Hq. apply list_elem_of_fmap in Hq as (_ & -> & _).
      exact Hnz.
Qed.

Lemma getRevenueAnalytics_zero_total_witness :
  let args := RevenueAnalyticsArgs.mk None None in
  let w' := exec (getRevenueAnalytics args) refund_world in
  revenue_window args refund_world <> [] /\
  exists r,
    outcome (getRevenueAnalytics args) refund_world = Ok r /\
    (RevenueReport.total_revenue r == 0)%Q /\
    RevenueReport.total_transactions r = 2%nat /\
    In (RevenueReport.total_revenue r)
      (drop (length (divisors refund_world)) (divisors w')).
Proof.
  intros args w'.
  assert (Hwindow : revenue_window args refund_world <> [])
    by (vm_compute; discriminate).
  split; [exact Hwindow|].
  destruct (getRevenueAnalytics_zero_total refund_world args Hwindow)
    as (r & Hok & _ & Hin & _).
  destruct (getRevenueAnalytics_by_service_aux refund_world args)
    as (r' & Hok' & Hn & Htotal).
  rewrite Hok in Hok'. injection Hok' as <-.
  exists r. split; [exact Hok|].
  split; [rewrite Htotal; vm_compute; reflexivity|].
  split; [rewrite Hn; vm_compute; reflexivity|exact Hin].
Defined.

(** ** Transactions and the lifecycle rules *)

Lemma map_alter_same {A B} (proj : A -> B) (f : A -> A) (i : nat) (l : list A) :
  (forall x, proj (f x) = proj x) -> map proj (alter f i l) = map proj l.
Proof.
  intros Hf. revert i. induction l as [|x l IH]; intros [|i]; cbn; try reflexivity.
  - rewrite Hf. reflexivity.
  - rewrite IH. reflexivity.
Qed.

Lemma lifecycle_untouched_tracked : tracked lifecycle_untouched.
Proof.
  constructor; unfold lifecycle_untouched.
  - intros w. repeat split.
  - intros w1 w2 w3 (A1 & A2 & A3 & A4) (B1 & B2 & B3 & B4). repeat split; congruence.
  - intros w. repeat split.
  - intros w. repeat split.
  - intros w. rewrite saved_data. repeat split.
Qed.

Ltac lifecycle_side :=
  intros w; unfold lifecycle_untouched; cbn;
  repeat split;
  first [ reflexivity | apply map_alter_same; intros; reflexivity ].

Lemma recordTransaction_lifecycle args : respects lifecycle_untouched (recordTransaction args).
Proof. unfold_methods. walk lifecycle_untouched_tracked lifecycle_side. Qed.

(** X23. [record_transaction] and the decision engine: recording a
    transaction never changes a status and never logs a decision, however
    large the recomputed revenue is; the lifecycle rules run only in
    [update_service_performance].  For a registered service the call
    replaces [daily_revenue] by the sum of the service's transactions
    stamped since local midnight, so a revenue figure reported through
    [update_service_performance] is discarded. *)
Theorem recordTransaction_no_lifecycle (w : World) (args : RecordTransactionArgs.t)
    (i : nat) (s0 : Service.t) :
  list_find (fun s => Service.id s = RecordTransactionArgs.service_id args)
    (services (data w)) = Some (i, s0) ->
  let w' := exec (recordTransaction args) w in
  exists s' tx k,
    (reads w < k)%nat /\
    services (data w') !! i = Some s' /\
    transactions (data w') = transactions (data w) ++ [tx] /\
    Transaction.amount tx = RecordTransactionArgs.amount args /\
    Service.daily_revenue s'
      = sum_by Transaction.amount
          (filter (fun t => Transaction.service_id t = RecordTransactionArgs.service_id args
                            /\ startOfDay (tz_offset w) (clock w k)
                               <= Transaction.timestamp t)
             (transactions (data w'))) /\
    Service.status s' = Service.status s0 /\
    Service.daily_costs s' = Service.daily_costs s0 /\
    lifecycle_untouched w w'.
Proof.
  intros Hfind w'.
  destruct (recordTransaction_run w args) as (_ & Htx & _ & _ & _ & Hk & Hsv).
  fold w' in Htx, Hsv. rewrite Hfind in Hsv.
  pose proof Hfind as (Hlk & _ & _)%list_find_Some.
  eexists _, _, _. split; [exact Hk|].
  split; [rewrite Hsv; apply list_lookup_insert_eq; eapply lookup_lt_Some, Hlk|].
  split; [exact Htx|]. split; [reflexivity|].
  split; [rewrite Htx; reflexivity|]. split; [reflexivity|]. split; [reflexivity|].
  apply recordTransaction_lifecycle.
Qed.

Lemma recordTransaction_no_lifecycle_witness :
  let args := RecordTransactionArgs.mk "id-0" (5 # 1) None None None None in
  let w' := exec (recordTransaction args) reported_world in
  exists s0,
    list_find (fun s => Service.id s = "id-0") (services (data reported_world))
      = Some (0%nat, s0) /\
    Service.daily_revenue s0 = 80%Q /\
    exists s',
      services (data w') !! 0%nat = Some s' /\
      (Service.daily_revenue s' == 5)%Q /\
      Service.status s' = active /\
      decisions (data w') = decisions (data reported_world).
Proof.
  intros args w'.
  eexists. split; [reflexivity|]. split; [reflexivity|].
  destruct (recordTransaction_no_lifecycle reported_world args 0%nat _ eq_refl)
    as (s' & tx & k & _ & Hlk & _ & _ & _ & Hst & _ & Hlife).
  exists s'. split; [exact Hlk|].
  assert (E : services (data w') !! 0%nat = Some s') by exact Hlk.
  split; [|split; [rewrite Hst; reflexivity|apply Hlife]].
  assert (Hrev : match services (data w') !! 0%nat with
                 | Some s => (Service.daily_revenue s == 5)%Q
                 | None => False
                 end) by (vm_compute; reflexivity).
  rewrite E in Hrev. exact Hrev.
Defined.

(** ** Logging and resolving a blocker *)

Lemma logBlocker_run (w : World) (args : LogBlockerArgs.t) :
  let blocker :=
    Blocker.mk (uuid_source w (drawn w)) (clock w (reads w))
      (LogBlockerArgs.title args) (LogBlockerArgs.description args)
      (LogBlockerArgs.blocker_type args)
      (orObj (LogBlockerArgs.severity args) sev_medium)
      identified
      (orObj (LogBlockerArgs.resolution_steps args) [])
      None in
  outcome (logBlocker args) w = Ok (uuid_source w (drawn w)) /\
  blockers (data (exec (logBlocker args) w)) = blockers (data w) ++ [blocker].
Proof.
  intros blocker. unfold outcome, exec, logBlocker. run. through_saves.
  split; reflexivity.
Qed.

Lemma logBlocker_keeps_turns (w : World) (args : LogBlockerArgs.t) :
  conversation_turns (data (exec (logBlocker args) w)) = conversation_turns (data w).
Proof. unfold exec, logBlocker. run. through_saves. reflexivity. Qed.

Lemma resolveBlocker_keeps_turns (w : World) (args : ResolveBlockerArgs.t) :
  conversation_turns (data (exec (resolveBlocker args) w)) = conversation_turns (data w).
Proof.
  unfold exec, resolveBlocker. cbn.
  destruct (list_find _ (blockers (data w))) as [[i b]|]; cbn; [|reflexivity].
  save_step. rewrite saved_data. reflexivity.
Qed.

(** X24. A blocker logged and then resolved: [log_blocker] appends a
    blocker with status [identified] (severity [medium] and no steps
    unless given) and returns its id; when no older blocker carries that
    id, [resolve_blocker] with the id resolves exactly this blocker and
    leaves the others as they were.  On a store whose conversation turns
    all carry their list of decisions (so that the session query
    answers), the blocker is among the active blockers of
    [get_full_session_context] before it is resolved and not after. *)
Theorem logged_blocker_resolves (w : World) (args : LogBlockerArgs.t) (summary : string) :
  (forall b, b ∈ blockers (data w) -> Blocker.id b <> uuid_source w (drawn w)) ->
  Forall lists_decisions (conversation_turns (data w)) ->
  let w1 := exec (logBlocker args) w in
  let context := FullSessionContextArgs.mk None None None None in
  exists id b,
    outcome (logBlocker args) w = Ok id /\
    blockers (data w1) = blockers (data w) ++ [b] /\
    Blocker.id b = id /\ Blocker.status b = identified /\
    Blocker.severity b = orObj (LogBlockerArgs.severity args) sev_medium /\
    let w2 := exec (resolveBlocker (ResolveBlockerArgs.mk id summary)) w1 in
    outcome (resolveBlocker (ResolveBlockerArgs.mk id summary)) w1 = Ok tt /\
    blockers (data w2) = blockers (data w) ++ [Blocker.resolve summary b] /\
    (exists r1 active1,
       outcome (getFullSessionContext context) w1 = Ok r1 /\
       SessionContext.activeBlockers r1 = Some active1 /\ b ∈ active1) /\
    (exists r2 active2,
       outcome (getFullSessionContext context) w2 = Ok r2 /\
       SessionContext.activeBlockers r2 = Some active2 /\
       Forall (fun b' => Blocker.id b' <> id) active2).
Proof.
  intros Hfresh Hturns w1 context.
  destruct (logBlocker_run w args) as [Hok Hbs]. fold w1 in Hbs.
  assert (Hturns1 : Forall lists_decisions (conversation_turns (data w1)))
    by (subst w1; rewrite logBlocker_keeps_turns; exact Hturns).
  set (b := Blocker.mk _ _ _ _ _ _ _ _ _) in Hbs. clearbody w1.
  exists (uuid_source w (drawn w)), b.
  split; [exact Hok|]. split; [exact Hbs|]. do 3 (split; [reflexivity|]).
  intros w2.
  assert (Hfind : list_find (fun b' => Blocker.id b' = uuid_source w (drawn w))
                    (blockers (data w1)) = Some (length (blockers (data w)), b)).
  { rewrite Hbs. apply list_find_Some. split; [|split].
    - rewrite lookup_app_r by lia. rewrite Nat.sub_diag. reflexivity.
    - reflexivity.
    - intros j y Hj Hlt. rewrite lookup_app_l in Hj by exact Hlt.
      apply Hfresh. eapply list_elem_of_lookup_2, Hj. }
  destruct (resolveBlocker_found w1 (ResolveBlockerArgs.mk (uuid_source w (drawn w)) summary)
              _ _ Hfind) as [Hok2 Hbs2].
  fold w2 in Hbs2. cbn in Hbs2.
  assert (Hbs2' : blockers (data w2) = blockers (data w) ++ [Blocker.resolve summary b]).
  { rewrite Hbs2, Hbs. rewrite <- (Nat.add_0_r (length (blockers (data w)))).
    rewrite insert_app_r. reflexivity. }
  assert (Hturns2 : Forall lists_decisions (conversation_turns (data w2)))
    by (subst w2; rewrite resolveBlocker_keeps_turns; exact Hturns1).
  clearbody w2.
  assert (Hinc : FullSessionContextArgs.include_active_blockers context <> Some false)
    by discriminate.
  split; [exact Hok2|]. split; [exact Hbs2'|]. split.
  - destruct (getFullSessionContext_active_aux w1 context
                (complete_turns_render context w1 Hturns1) Hinc)
      as (r1 & active1 & Hr1 & Ha1 & Hin1 & _).
    exists r1, active1. split; [exact Hr1|]. split; [exact Ha1|].
    apply Hin1. split; [rewrite Hbs; apply elem_of_app; right; left|discriminate].
  - destruct (getFullSessionContext_active_aux w2 context
                (complete_turns_render context w2 Hturns2) Hinc)
      as (r2 & active2 & Hr2 & Ha2 & Hin2 & _).
    exists r2, active2. split; [exact Hr2|]. split; [exact Ha2|].
    apply Forall_forall. intros b' Hb'. apply Hin2 in Hb' as [Hb' Hst].
    rewrite Hbs2' in Hb'. apply elem_of_app in Hb' as [Hb'|Hb'].
    + apply Hfresh, Hb'.
    + apply list_elem_of_singleton in Hb'. subst b'. cbn in Hst. contradiction.
Qed.

Lemma logged_blocker_resolves_witness :
  let args := LogBlockerArgs.mk "keys" "no api key" access None None in
  (forall b, b ∈ blockers (data boot_world) ->
     Blocker.id b <> uuid_source boot_world (drawn boot_world)) /\
  Forall lists_decisions (conversation_turns (data boot_world)) /\
  let w1 := exec (logBlocker args) boot_world in
  let w2 := exec (resolveBlocker (ResolveBlockerArgs.mk "id-0" "key added")) w1 in
  map Blocker.status (blockers (data w1)) = [identified] /\
  map Blocker.status (blockers (data w2)) = [resolved].
Proof.
  intros args.
  assert (Hfresh : forall b, b ∈ blockers (data boot_world) ->
                     Blocker.id b <> uuid_source boot_world (drawn boot_world)).
  { intros b Hb. cbn in Hb. inversion Hb. }
  assert (Hturns : Forall lists_decisions (conversation_turns (data boot_world)))
    by constructor.
  split; [exact Hfresh|]. split; [exact Hturns|]. intros w1 w2.
  destruct (logged_blocker_resolves boot_world args "key added" Hfresh Hturns)
    as (id & b & Hok & Hbs & Hid & Hst & _ & _ & Hbs2 & _).
  assert (Hid' : id = "id-0").
  { assert (E : outcome (logBlocker args) boot_world = Ok "id-0")
      by (vm_compute; reflexivity).
    rewrite E in Hok. injection Hok as <-. reflexivity. }
  clear Hid. subst id w1 w2.
  rewrite Hbs, Hbs2. cbn. rewrite Hst. split; reflexivity.
Defined.

(** ** Customer figures of the Stripe server *)

Lemma bool_filter_length_le {A} (f : A -> bool) (l : list A) :
  (length (List.filter f l) <= length l)%nat.
Proof.
  induction l as [|x l IH]; cbn; [lia|]. destruct (f x); cbn; lia.
Qed.

(** X25. [calculateRepeatCustomerRate] is a percentage: whatever payments
    are stored it lies between 0 and 100, and it is 0 when no succeeded
    payment names a customer. *)
Theorem calculateRepeatCustomerRate_percentage (paymentIntents : list PaymentIntent.t) :
  (0 <= calculateRepeatCustomerRate paymentIntents <= 100)%Q /\
  (List.filter paid_by_customer paymentIntents = [] ->
   calculateRepeatCustomerRate paymentIntents = 0%Q).
Proof.
  unfold calculateRepeatCustomerRate. split.
  - set (counts := customerPaymentCounts paymentIntents).
    destruct (length counts) as [|n] eqn:Hn; cbn [Nat.ltb Nat.leb]; [split; lra|].
    apply Qnat_share; [lia|].
    rewrite <- Hn, <- (length_map snd counts). apply bool_filter_length_le.
  - intros Hnone. unfold customerPaymentCounts. rewrite Hnone. reflexivity.
Qed.

Lemma Map_set_keys {V} (key : string) (value : V) (m : list (string * V)) :
  map fst (Map_set key value m)
  = if bool_decide (key ∈ map fst m) then map fst m else map fst m ++ [key].
Proof.
  induction m as [|[k v] m IH]; cbn.
  - rewrite bool_decide_eq_false_2 by (intros H; inversion H). reflexivity.
  - destruct (String.eqb_spec k key) as [->|Hne]; cbn.
    + rewrite bool_decide_eq_true_2 by left. reflexivity.
    + rewrite IH. destruct (bool_decide (key ∈ map fst m)) eqn:E.
      * apply bool_decide_eq_true_1 in E.
        rewrite bool_decide_eq_true_2 by (right; exact E). reflexivity.
      * apply bool_decide_eq_false_1 in E.
        rewrite bool_decide_eq_false_2; [reflexivity|].
        intros H. apply elem_of_cons in H as [H|H]; [congruence|contradiction].
Qed.

Lemma Map_get_Some {V} (key : string) (m : list (string * V)) (v : V) :
  Map_get key m = Some v -> (key, v) ∈ m.
Proof.
  induction m as [|[k x] m IH]; cbn; [discriminate|].
  destruct (String.eqb_spec k key) as [->|Hne].
  - intros [= ->]. left.
  - intros H. right. apply IH, H.
Qed.

Lemma Map_get_None {V} (key : string) (m : list (string * V)) :
  Map_get key m = None -> key ∉ map fst m.
Proof.
  induction m as [|[k x] m IH]; cbn; intros H Hin.
  - inversion Hin.
  - destruct (String.eqb_spec k key) as [->|Hne]; [discriminate|].
    apply elem_of_cons in Hin as [Hin|Hin]; [congruence|exact (IH H Hin)].
Qed.

(** [set] on a [Map]: the entry of the key holds the new value, the
    other entries are as they were. *)
Lemma Map_set_Forall {V} (P : string -> V -> Prop) (key : string) (value : V)
    (m : list (string * V)) :
  NoDup (map fst m) ->
  Forall (fun entry => fst entry <> key -> P (fst entry) (snd entry)) m ->
  P key value ->
  Forall (fun entry => P (fst entry) (snd entry)) (Map_set key value m).
Proof.
  induction m as [|[k v] m IH]; cbn; intros Hnd Hm Hnew.
  - repeat constructor. exact Hnew.
  - apply NoDup_cons in Hnd as [Hk Hnd]. apply Forall_cons in Hm as [Hkv Hm].
    destruct (String.eqb_spec k key) as [->|Hne].
    + constructor; [exact Hnew|].
      apply Forall_forall. intros [k' v'] Hin. rewrite Forall_forall in Hm.
      apply (Hm _ Hin). cbn. intros ->. apply Hk.
      apply list_elem_of_fmap. exists (key, v'). split; [reflexivity|exact Hin].
    + constructor; [apply Hkv; exact Hne|]. apply IH; assumption.
Qed.

(** The payments of one customer, in their order. *)
Lemma payments_of_snoc (c : string) (seen : list PaymentIntent.t) (p : PaymentIntent.t) :
  filter (fun q => customer_of q = c) (seen ++ [p])
  = filter (fun q => customer_of q = c) seen
    ++ (if decide (customer_of p = c) then [p] else []).
Proof.
  rewrite filter_app, filter_cons, filter_nil. reflexivity.
Qed.

Lemma customerTotals_invariant (paid : list PaymentIntent.t) (m : list (string * Q))
    (seen : list PaymentIntent.t) :
  NoDup (map fst m) ->
  (forall c, c ∈ map fst m <-> exists p, p ∈ seen /\ customer_of p = c) ->
  Forall (fun entry =>
            (snd entry
             == sum_by PaymentIntent.amount
                  (filter (fun p => customer_of p = fst entry) seen))%Q) m ->
  let m' := fold_left
              (fun m p =>
                 Map_set (customer_of p)
                   (orQ (Map_get (customer_of p) m) 0 + PaymentIntent.amount p)%Q m)
              paid m in
  NoDup (map fst m') /\
  (forall c, c ∈ map fst m' <-> exists p, p ∈ seen ++ paid /\ customer_of p = c) /\
  Forall (fun entry =>
            (snd entry
             == sum_by PaymentIntent.amount
                  (filter (fun p => customer_of p = fst entry) (seen ++ paid)))%Q) m'.
Proof.
  revert m seen. induction paid as [|p paid IH]; intros m seen Hnd Hkeys Htot; cbn.
  - rewrite app_nil_r. repeat split; try assumption; apply Hkeys.
  - replace (seen ++ p :: paid) with ((seen ++ [p]) ++ paid)
      by (rewrite <- app_assoc; reflexivity).
    apply IH.
    + rewrite Map_set_keys. case_bool_decide as Hin; [exact Hnd|].
      apply NoDup_app. split; [exact Hnd|]. split; [|apply NoDup_singleton].
      intros c Hc Hnew. apply list_elem_of_singleton in Hnew. subst c. contradiction.
    + intros c. rewrite Map_set_keys. case_bool_decide as Hin.
      * rewrite Hkeys. split.
        -- intros (q & Hq & Hc). exists q. split; [apply elem_of_app; left; exact Hq|exact Hc].
        -- intros (q & Hq & Hc). apply elem_of_app in Hq as [Hq|Hq]; [eauto|].
           apply list_elem_of_singleton in Hq. subst q. rewrite <- Hc.
           apply Hkeys, Hin.
      * rewrite elem_of_app, Hkeys, list_elem_of_singleton. split.
        -- intros [(q & Hq & Hc) | ->].
           ++ exists q. split; [apply elem_of_app; left; exact Hq|exact Hc].
           ++ exists p. split; [apply elem_of_app; right; left|reflexivity].
        -- intros (q & Hq & Hc). apply elem_of_app in Hq as [Hq|Hq]; [left; eauto|].
           apply list_elem_of_singleton in Hq. subst q. right. symmetry. exact Hc.
    + pose (P := fun (c : string) (v : Q) =>
                   (v == sum_by PaymentIntent.amount
                           (filter (fun q => customer_of q = c) (seen ++ [p])))%Q).
      apply (Map_set_Forall P); [exact Hnd| |]; subst P; cbn beta.
      * eapply Forall_impl; [exact Htot|]. intros [c v] Hv Hne. cbn in *.
        rewrite payments_of_snoc. rewrite decide_False by congruence.
        rewrite app_nil_r. exact Hv.
      * rewrite payments_of_snoc. rewrite decide_True by reflexivity.
        rewrite sum_by_snoc.
        destruct (Map_get (customer_of p) m) as [v|] eqn:Hget.
        -- apply Map_get_Some in Hget. rewrite Forall_forall in Htot.
           specialize (Htot _ Hget). cbn in Htot.
           rewrite (orQ_eq v), Htot. reflexivity.
        -- apply Map_get_None in Hget.
           assert (Hnone : filter (fun q => customer_of q = customer_of p) seen = []).
           { apply filter_none. apply Forall_forall. intros q Hq Hc.
             apply Hget, Hkeys. exists q. split; assumption. }
           rewrite Hnone. reflexivity.
Qed.

(** [values.reduce] adds up the totals of the entries. *)
Lemma sum_by_values (m : list (string * Q)) :
  sum_by (fun value => value) (map snd m) = sum_by snd m.
Proof.
  unfold sum_by. generalize 0%Q.
  induction m as [|[k v] m IH]; intros acc; cbn; [reflexivity|apply IH].
Qed.

(** X26. [calculateAverageCustomerValue] averages over the customers, not
    over the payments.  Its [Map] holds one entry per distinct customer id
    of the succeeded payments, the total of an entry being the amounts of
    that customer's succeeded payments, added up in their order; the
    figure is the entries' totals, added up in insertion order, divided
    by the number of entries and by 100, and it is 0 when no succeeded
    payment names a customer. *)
Theorem calculateAverageCustomerValue_per_customer (paymentIntents : list PaymentIntent.t) :
  let paid := List.filter paid_by_customer paymentIntents in
  let totals := customerTotals paymentIntents in
  NoDup (map fst totals) /\
  (forall c, c ∈ map fst totals <-> exists p, p ∈ paid /\ customer_of p = c) /\
  Forall (fun entry =>
            (snd entry
             == sum_by PaymentIntent.amount
                  (filter (fun p => customer_of p = fst entry) paid))%Q) totals /\
  calculateAverageCustomerValue paymentIntents
  = (if (0 <? length totals)%nat
     then sum_by snd totals / Qnat (length totals) / 100
     else 0)%Q /\
  (paid = [] -> calculateAverageCustomerValue paymentIntents = 0%Q).
Proof.
  intros paid totals.
  destruct (customerTotals_invariant paid [] []) as (Hnd & Hkeys & Htot).
  { constructor. }
  { intros c. split; [intros H; inversion H|intros (p & Hp & _); inversion Hp]. }
  { constructor. }
  cbn [app] in Hkeys, Htot.
  change (fold_left _ paid []) with totals in Hnd, Hkeys, Htot.
  split; [exact Hnd|]. split; [exact Hkeys|]. split; [exact Htot|]. split.
  - unfold calculateAverageCustomerValue. fold totals.
    rewrite length_map, sum_by_values. reflexivity.
  - intros Hnone. unfold calculateAverageCustomerValue, customerTotals.
    fold paid. rewrite Hnone. reflexivity.
Qed.

Lemma calculateAverageCustomerValue_per_customer_witness :
  List.filter paid_by_customer sample_payments <> [] /\
  map fst (customerTotals sample_payments) = ["c1"; "c2"] /\
  Forall (fun entry =>
            (snd entry
             == sum_by PaymentIntent.amount
                  (filter (fun p => customer_of p = fst entry)
                     (List.filter paid_by_customer sample_payments)))%Q)
    (customerTotals sample_payments) /\
  (calculateAverageCustomerValue sample_payments == 15 # 2)%Q /\
  (calculateRepeatCustomerRate sample_payments == 50)%Q.
Proof.
  destruct (calculateAverageCustomerValue_per_customer sample_payments)
    as (_ & _ & Htot & Hvalue & _).
  split; [vm_compute; discriminate|]. split; [vm_compute; reflexivity|].
  split; [exact Htot|]. split; [rewrite Hvalue|]; vm_compute; reflexivity.
Defined.
